(** * Image-processing: a shallow embedding of the photo editor's client logic

    The development follows the two TypeScript modules of the repository:
    - [services/geminiService.ts]: [fileToPart], [handleApiResponse] and the
      nine [generate...Image] request builders;
    - [App.tsx]: the history store ([history], [historyIndex]), the edit
      handlers, the expansion geometry and the click handler;
    together with the click handler of [components/CombinePanel.tsx].

    Conventions of the embedding.
    - A JavaScript [number] is an exact rational or one of the three special
      values: the arithmetic is exact where the program's rounds to a
      double, and zero carries no sign.  The general statements on
      computed sizes are therefore bounds that a result keeps under either
      arithmetic.
    - A JavaScript string is a [string] of 8-bit code units.
    - A thrown value is a [Thrown]; a function that may throw returns a
      [Result]; an [async] function that may submit a request returns an
      [Async], the list of the requests it submitted paired with its result.
    - The browser and the remote endpoint are records of functions: [Env]
      for the service, [Browser] for the component.  The construction of
      the endpoint's client, which each builder starts with, is the field
      [newGoogleGenAI] of [Env].
    - The rendering and the download are not modelled.

    After the two modules come the panels of [components/] that feed the
    handlers ([ZoomPanel], [ExpandPanel], [ReframePanel], the buttons) and
    the local crop of [App.tsx]. *)

From Stdlib Require Import ZArith QArith Qround Lia Lqa Ascii String.
From stdpp Require Import base option list strings pretty gmap.

Local Open Scope Z_scope.

(* ===================================================================== *)
(** ** JavaScript values *)
(* ===================================================================== *)

Module Js.

(** *** Numbers *)

Inductive number : Type :=
| Finite (q : Q)
| PosInfinity
| NegInfinity
| NaN.

Definition ofZ (z : Z) : number := Finite (inject_Z z).

Definition nsign (a : number) : Z :=
  match a with
  | Finite q => Z.sgn (Qnum q)
  | PosInfinity => 1
  | NegInfinity => -1
  | NaN => 0
  end.

Definition inf_of_sign (s : Z) : number :=
  match s with
  | Z0 => NaN
  | Zpos _ => PosInfinity
  | Zneg _ => NegInfinity
  end.

(** [a * b], exact. *)
Definition nmul (a b : number) : number :=
  match a, b with
  | NaN, _ | _, NaN => NaN
  | Finite p, Finite q => Finite (Qred (p * q))
  | _, _ => inf_of_sign (nsign a * nsign b)
  end.

(** [a / b], exact; a zero divisor is [+0]. *)
Definition ndiv (a b : number) : number :=
  match a, b with
  | NaN, _ | _, NaN => NaN
  | Finite p, Finite q =>
      if Qeq_bool q 0 then inf_of_sign (nsign a) else Finite (Qred (p / q))
  | Finite _, _ => Finite 0
  | _, Finite q => inf_of_sign (nsign a * (if Qle_bool 0 q then 1 else -1))
  | _, _ => NaN
  end.

(** [a - b] *)
Definition nsub (a b : number) : number :=
  match a, b with
  | NaN, _ | _, NaN => NaN
  | Finite p, Finite q => Finite (Qred (p - q))
  | Finite _, PosInfinity => NegInfinity
  | Finite _, NegInfinity => PosInfinity
  | PosInfinity, PosInfinity | NegInfinity, NegInfinity => NaN
  | PosInfinity, _ => PosInfinity
  | NegInfinity, _ => NegInfinity
  end.

(** [a > b] *)
Definition ngt (a b : number) : bool :=
  match a, b with
  | NaN, _ | _, NaN => false
  | Finite p, Finite q => negb (Qle_bool p q)
  | PosInfinity, PosInfinity => false
  | PosInfinity, _ => true
  | _, NegInfinity => match a with NegInfinity => false | _ => true end
  | _, _ => false
  end.

(** [a === 0] *)
Definition isZero (a : number) : bool :=
  match a with
  | Finite q => Qeq_bool q 0
  | _ => false
  end.

(** [Math.round]: the nearest integer, ties towards [+Infinity]. *)
Definition round (a : number) : number :=
  match a with
  | Finite q => ofZ (Qfloor (q + (1 # 2)))
  | _ => a
  end.

(** *** Strings *)

Definition chr (n : nat) : string := String (Ascii.ascii_of_nat n) EmptyString.

(** The double quote and the line feed, written by their code units. *)
Definition dq : string := chr 34.
Definition nl : string := chr 10.

Definition truthy (s : string) : bool :=
  match s with
  | EmptyString => false
  | String _ _ => true
  end.

(** White space and line terminators among the 8-bit code units. *)
Definition isWhiteSpace (c : ascii) : bool :=
  let n := Ascii.nat_of_ascii c in
  ((9 <=? n)%nat && (n <=? 13)%nat) || (n =? 32)%nat || (n =? 160)%nat.

Definition isLineTerminator (c : ascii) : bool :=
  let n := Ascii.nat_of_ascii c in
  (n =? 10)%nat || (n =? 13)%nat.

Fixpoint trimStart (s : string) : string :=
  match s with
  | EmptyString => EmptyString
  | String c r => if isWhiteSpace c then trimStart r else s
  end.

Fixpoint trimEnd (s : string) : string :=
  match s with
  | EmptyString => EmptyString
  | String c r =>
      match trimEnd r with
      | EmptyString => if isWhiteSpace c then EmptyString else String c EmptyString
      | r' => String c r'
      end
  end.

(** [s.trim()] *)
Definition trim (s : string) : string := trimEnd (trimStart s).

(** [s.split(sep)] for a one-character separator: the list is never
    empty, and has one more element than [s] has separators. *)
Fixpoint split (sep : ascii) (s : string) : list string :=
  match s with
  | EmptyString => [EmptyString]
  | String c r =>
      if Ascii.eqb c sep then EmptyString :: split sep r
      else
        match split sep r with
        | [] => [String c EmptyString]
        | w :: ws => String c w :: ws
        end
  end.

(** [s.match(/:(.*?);/)], reduced to its first capture group: [None] is
    [null].  [lazyUpToSemicolon] is the part [(.*?);] tried at one
    position; the dot does not match a line terminator. *)
Fixpoint lazyUpToSemicolon (s : string) : option string :=
  match s with
  | EmptyString => None
  | String c r =>
      if Ascii.eqb c ";"%char then Some EmptyString
      else if isLineTerminator c then None
      else option_map (String c) (lazyUpToSemicolon r)
  end.

Fixpoint matchMime (s : string) : option string :=
  match s with
  | EmptyString => None
  | String c r =>
      if Ascii.eqb c ":"%char then
        match lazyUpToSemicolon r with
        | Some g => Some g
        | None => matchMime r
        end
      else matchMime r
  end.

(** The [type] that a [File] keeps of the one it is constructed with:
    empty when a code unit lies outside U+0020..U+007E, in ASCII lower
    case otherwise. *)
Definition isPrintable (c : ascii) : bool :=
  let n := Ascii.nat_of_ascii c in
  (32 <=? n)%nat && (n <=? 126)%nat.

Definition asciiLower (c : ascii) : ascii :=
  let n := Ascii.nat_of_ascii c in
  if (65 <=? n)%nat && (n <=? 90)%nat then Ascii.ascii_of_nat (n + 32) else c.

Fixpoint allChars (p : ascii -> bool) (s : string) : bool :=
  match s with
  | EmptyString => true
  | String c r => p c && allChars p r
  end.

Fixpoint mapChars (f : ascii -> ascii) (s : string) : string :=
  match s with
  | EmptyString => EmptyString
  | String c r => String (f c) (mapChars f r)
  end.

Definition typeOfFile (type : string) : string :=
  if allChars isPrintable type then mapChars asciiLower type else EmptyString.

(** *** Thrown values *)

(** What a [catch] clause can receive: an [Error] with its message, or a
    value that is not an instance of [Error] (a rejected DOM event). *)
Inductive Thrown : Type :=
| Error (message : string)
| NotAnError.

Definition Result (A : Type) : Type := Thrown + A.

End Js.

(* ===================================================================== *)
(** ** services/geminiService.ts *)
(* ===================================================================== *)

Module GeminiService.
Import Js.

(** A browser [File]: its name, its MIME type and its bytes. *)
Record File : Type := {
  fileName : string;
  fileType : string;
  fileBytes : list ascii
}.

(** *** The request and the response of the inference endpoint *)

Inductive RequestPart : Type :=
| InlinePart (mimeType data : string)
| TextPart (text : string).

Record Request : Type := {
  model : string;
  contents : list RequestPart
}.

Record InlineData : Type := {
  mimeType : option string;
  data : option string
}.

Record Part : Type := {
  inlineData : option InlineData;
  partText : option string
}.

Record Content : Type := { parts : option (list Part) }.

Record Candidate : Type := {
  content : option Content;
  finishReason : option string
}.

Record PromptFeedback : Type := {
  blockReason : option string;
  blockReasonMessage : option string
}.

(** The [text] accessor of a response either throws or returns a string or
    [undefined]. *)
Inductive TextGetter : Type :=
| TextThrows
| TextIs (t : option string).

Record GenerateContentResponse : Type := {
  promptFeedback : option PromptFeedback;
  candidates : option (list Candidate);
  text : TextGetter
}.

(** What the service takes from its surroundings: the outcome of
    [new GoogleGenAI({ apiKey: process.env.API_KEY! })], which is the
    client or what the construction throws, the [FileReader], the endpoint
    behind the client, and the printing of a number inside a template
    string. *)
Record Env : Type := {
  newGoogleGenAI : Result unit;
  readAsDataURL : File -> Result string;
  generateContent : Request -> Result GenerateContentResponse;
  numberToString : number -> string
}.

(** *** Asynchronous computations that may submit requests *)

Definition Async (A : Type) : Type := (list Request * Result A)%type.

Definition throw {A} (e : Thrown) : Async A := ([], inl e).

Definition bind {A B} (m : Async A) (k : A -> Async B) : Async B :=
  match m with
  | (sent, inl e) => (sent, inl e)
  | (sent, inr a) => let '(sent', r) := k a in (sent ++ sent', r)
  end.

Definition lift {A} (r : Result A) : Async A := ([], r).

(** [await ai.models.generateContent(request)] *)
Definition submit (env : Env) (request : Request) : Async GenerateContentResponse :=
  ([request], generateContent env request).

Declare Scope async_scope.
Delimit Scope async_scope with async.
Notation "'await' x <- m ; k" := (bind m (fun x => k))
  (at level 10, x name, m at level 100, k at level 200) : async_scope.

(** *** [fileToPart] *)

(** The part of [fileToPart] and of [dataURLtoFile] that takes a data URL
    apart: the MIME type and the payload, or the thrown [Error]. *)
Definition parseDataUrl (dataUrl : string) : Result (string * string) :=
  match split ","%char dataUrl with
  | prefix :: payload :: _ =>
      match matchMime prefix with
      | Some mime =>
          if truthy mime then inr (mime, payload)
          else inl (Error "Could not parse MIME type from data URL")
      | None => inl (Error "Could not parse MIME type from data URL")
      end
  | _ => inl (Error "Invalid data URL")
  end.

Definition fileToPart (env : Env) (file : File) : Result RequestPart :=
  match readAsDataURL env file with
  | inl e => inl e
  | inr dataUrl =>
      match parseDataUrl dataUrl with
      | inl e => inl e
      | inr (mimeType, data) => inr (InlinePart mimeType data)
      end
  end.

(** *** [handleApiResponse] *)

(** [response.promptFeedback?.blockReason], when truthy. *)
Definition blockReasonOf (response : GenerateContentResponse) : option PromptFeedback :=
  match promptFeedback response with
  | Some fb =>
      match blockReason fb with
      | Some r => if truthy r then Some fb else None
      | None => None
      end
  | None => None
  end.

(** [response.candidates?.[0]] *)
Definition firstCandidate (response : GenerateContentResponse) : option Candidate :=
  match candidates response with
  | Some (c :: _) => Some c
  | _ => None
  end.

(** [response.candidates?.[0]?.content?.parts?.find(part => part.inlineData)] *)
Definition imagePartFromResponse (response : GenerateContentResponse) : option Part :=
  match firstCandidate response with
  | Some c =>
      match content c with
      | Some ct =>
          match parts ct with
          | Some ps => List.find (fun part => bool_decide (is_Some (inlineData part))) ps
          | None => None
          end
      | None => None
      end
  | None => None
  end.

(** A value that may be [undefined] printed inside a template string. *)
Definition interpolate (o : option string) : string := default "undefined" o.

(** [o || fallback] for a string that may be [undefined]. *)
Definition orElse (o : option string) (fallback : string) : string :=
  match o with
  | Some s => if truthy s then s else fallback
  | None => fallback
  end.

Definition blockedMessage (fb : PromptFeedback) : string :=
  "Request was blocked by safety filters (Prompt). Reason: " +:+ interpolate (blockReason fb)
  +:+ ". "
  +:+ orElse (blockReasonMessage fb) "Try using a less specific prompt or a broader focus.".

Definition dataUrlOf (d : InlineData) : string :=
  "data:" +:+ interpolate (mimeType d) +:+ ";base64," +:+ interpolate (data d).

Definition stoppedMessage (finishReason : string) : string :=
  "Generation stopped by model safety system (FinishReason: " +:+ finishReason
  +:+ "). This often happens when focusing on specific human features at high zoom levels. Technical Mitigation: Try a slightly different zoom level or frame the request as a "
  +:+ dq +:+ "Macro Detail Study" +:+ dq +:+ ".".

Definition noImageMessage (context textFeedback : string) : string :=
  "No image output detected for " +:+ context +:+ ". "
  +:+ (if truthy (trim textFeedback)
       then "AI Feedback: " +:+ dq +:+ trim textFeedback +:+ dq
       else "The system blocked the output for safety or complexity reasons.").

(** [response.text || ""] inside its [try] block. *)
Definition textFeedbackOf (response : GenerateContentResponse) : string :=
  match text response with
  | TextThrows => EmptyString
  | TextIs t => orElse t EmptyString
  end.

Definition handleApiResponse (response : GenerateContentResponse) (context : string)
  : Result string :=
  match blockReasonOf response with
  | Some fb => inl (Error (blockedMessage fb))
  | None =>
      match imagePartFromResponse response with
      | Some {| inlineData := Some d |} => inr (dataUrlOf d)
      | _ =>
          match firstCandidate response ≫= finishReason with
          | Some reason =>
              if truthy reason && negb (String.eqb reason "STOP")
              then inl (Error (stoppedMessage reason))
              else inl (Error (noImageMessage context (textFeedbackOf response)))
          | None => inl (Error (noImageMessage context (textFeedbackOf response)))
          end
      end
  end.

(** *** The nine request builders *)

Definition CLINICAL_CONTEXT : string :=
  "Scientific Image Processing Protocol: Execute high-fidelity anatomical reconstruction and optical simulation. Maintain 100% texture, geometry, and identity consistency. Avoid all creative interpretation; prioritize technical accuracy and photographic fidelity.".

Definition MODEL : string := "gemini-2.5-flash-image".

Record Point : Type := { x : number; y : number }.

(** The crop rectangle of [react-image-crop]. *)
Inductive CropUnit : Type := px | percent.

Record Crop : Type := {
  cropX : number;
  cropY : number;
  width : number;
  height : number;
  unit : CropUnit
}.

Local Open Scope async_scope.

(** The shape all builders but the last share: construct the client,
    encode the image, submit one request with the image and the prompt,
    interpret the response. *)
Definition generateWith (env : Env) (image : File) (prompt context : string)
  : Async string :=
  await ai <- lift (newGoogleGenAI env);
  await imagePart <- lift (fileToPart env image);
  await response <- submit env
    {| model := MODEL; contents := [imagePart; TextPart prompt] |};
  lift (handleApiResponse response context).

Definition generateEditedImage (env : Env) (originalImage : File)
    (userPrompt : string) (hotspot : Point) : Async string :=
  generateWith env originalImage
    (CLINICAL_CONTEXT +:+ nl
     +:+ "Technical Command: Targeted localized edit at coordinate ("
     +:+ numberToString env (x hotspot) +:+ ", " +:+ numberToString env (y hotspot)
     +:+ ")." +:+ nl
     +:+ "Modification: " +:+ dq +:+ userPrompt +:+ dq +:+ nl
     +:+ "Requirements: Preserve surrounding pixel-state. Return final processed result only.")
    "edit".

Definition generateFilteredImage (env : Env) (originalImage : File)
    (filterPrompt : string) : Async string :=
  generateWith env originalImage
    (CLINICAL_CONTEXT +:+ nl
     +:+ "Technical Command: Stylistic pixel re-mapping: " +:+ dq +:+ filterPrompt
     +:+ dq +:+ "." +:+ nl
     +:+ "Requirements: Preserve geometry. Return image only.")
    "filter".

Definition generateAdjustedImage (env : Env) (originalImage : File)
    (adjustmentPrompt : string) : Async string :=
  generateWith env originalImage
    (CLINICAL_CONTEXT +:+ nl
     +:+ "Technical Command: Global optical adjustment: " +:+ dq +:+ adjustmentPrompt
     +:+ dq +:+ "." +:+ nl
     +:+ "Requirements: Return image only.")
    "adjustment".

Definition generateExpandedImage (env : Env) (paddedImage : File)
    (userPrompt : string) : Async string :=
  generateWith env paddedImage
    (CLINICAL_CONTEXT +:+ nl
     +:+ "Technical Command: Spatial scene extension (Outpainting)." +:+ nl
     +:+ "Context: " +:+ dq +:+ userPrompt +:+ dq +:+ nl
     +:+ "Requirements: Predict and reconstruct environment based on existing edge pixel metadata. Return image only.")
    "expansion".

Definition generateHarmonizedImage (env : Env) (originalImage : File)
    (userPrompt : string) (foregroundHotspot backgroundHotspot : Point)
  : Async string :=
  generateWith env originalImage
    (CLINICAL_CONTEXT +:+ nl
     +:+ "Technical Command: Compositing harmonization." +:+ nl
     +:+ "Points: FG(" +:+ numberToString env (x foregroundHotspot) +:+ ", "
     +:+ numberToString env (y foregroundHotspot) +:+ "), BG("
     +:+ numberToString env (x backgroundHotspot) +:+ ", "
     +:+ numberToString env (y backgroundHotspot) +:+ ")." +:+ nl
     +:+ "Instruction: " +:+ dq +:+ userPrompt +:+ dq +:+ nl
     +:+ "Requirements: Synchronize lighting, shadow projection, and focal depth between planes. Return image only.")
    "harmonization".

Definition generateEnhancedImage (env : Env) (originalImage : File)
    (userPrompt : string) (crop : Crop) : Async string :=
  generateWith env originalImage
    (CLINICAL_CONTEXT +:+ nl
     +:+ "Technical Command: Localized super-resolution enhancement." +:+ nl
     +:+ "ROI: x:" +:+ numberToString env (cropX crop)
     +:+ ", y:" +:+ numberToString env (cropY crop)
     +:+ ", w:" +:+ numberToString env (width crop)
     +:+ ", h:" +:+ numberToString env (height crop) +:+ "." +:+ nl
     +:+ "Target Detail: " +:+ dq +:+ userPrompt +:+ dq +:+ nl
     +:+ "Requirements: Synthesize additional high-frequency details while adhering to source identity. Return image only.")
    "enhancement".

Definition generateReframedImage (env : Env) (originalImage : File)
    (cameraAnglePrompt : string) : Async string :=
  generateWith env originalImage
    (CLINICAL_CONTEXT +:+ nl
     +:+ "Technical Command: Perspective projection re-rendering." +:+ nl
     +:+ "New Camera Vector: " +:+ dq +:+ cameraAnglePrompt +:+ dq +:+ nl
     +:+ "Requirements: Reconstruct subject and environment from the specified angle. Preserve anatomical integrity. Return image only.")
    "reframe".

Definition generateZoomedImage (env : Env) (originalImage : File)
    (zoomPrompt : string) : Async string :=
  generateWith env originalImage
    (CLINICAL_CONTEXT +:+ nl
     +:+ "Technical Command: Virtual lens focal length simulation." +:+ nl
     +:+ "Operation: " +:+ dq +:+ zoomPrompt +:+ dq +:+ nl
     +:+ "Guidelines: " +:+ nl
     +:+ "- For magnification: Perform high-fidelity texture study and detail reconstruction." +:+ nl
     +:+ "- For reduction: Perform seamless environmental extension." +:+ nl
     +:+ "- Strictly adhere to technical photographic physics. Return ONLY image data.")
    "zoom".

Definition generateCombinedImage (env : Env) (destinationImage sourceImage : File)
    (userPrompt : string) (insertionPoint : Point) : Async string :=
  await ai <- lift (newGoogleGenAI env);
  await destinationImagePart <- lift (fileToPart env destinationImage);
  await sourceImagePart <- lift (fileToPart env sourceImage);
  await response <- submit env
    {| model := MODEL;
       contents := [destinationImagePart; sourceImagePart;
                    TextPart
                      (CLINICAL_CONTEXT +:+ nl
                       +:+ "Technical Command: Dual-subject multi-source integration." +:+ nl
                       +:+ "Target: (" +:+ numberToString env (x insertionPoint) +:+ ", "
                       +:+ numberToString env (y insertionPoint) +:+ ")." +:+ nl
                       +:+ "Instruction: " +:+ dq +:+ userPrompt +:+ dq +:+ nl
                       +:+ "Requirements: Extract subject from Source, integrate into Destination. Resolve all occlusion and interaction artifacts. Return image only.")] |};
  lift (handleApiResponse response "combination").

End GeminiService.

(* ===================================================================== *)
(** ** App.tsx *)
(* ===================================================================== *)

Module App.
Import Js GeminiService.

Inductive Tab : Type :=
| TabRetouch | TabIntegrate | TabCombine | TabAdjust | TabReframe
| TabEnhance | TabFilters | TabCrop | TabExpand | TabZoom.

(** The state of the [App] component, one field per [useState]. *)
Record AppState : Type := {
  history : list File;
  historyIndex : Z;
  prompt : string;
  isLoading : bool;
  error : option string;
  activeTab : Tab;
  editHotspot : option Point;
  displayHotspot : option Point;
  foregroundHotspot : option Point;
  backgroundHotspot : option Point;
  displayForegroundHotspot : option Point;
  displayBackgroundHotspot : option Point;
  crop : option Crop;
  completedCrop : option Crop;
  aspect : option number;
  enhanceCrop : option Crop;
  completedEnhanceCrop : option Crop;
  isComparing : bool
}.

(** The setters of the state fields. *)
Definition setHistory (v : list File) (s : AppState) : AppState :=
  {| history := v; historyIndex := historyIndex s; prompt := prompt s;
     isLoading := isLoading s; error := error s; activeTab := activeTab s;
     editHotspot := editHotspot s; displayHotspot := displayHotspot s;
     foregroundHotspot := foregroundHotspot s; backgroundHotspot := backgroundHotspot s;
     displayForegroundHotspot := displayForegroundHotspot s;
     displayBackgroundHotspot := displayBackgroundHotspot s; crop := crop s;
     completedCrop := completedCrop s; aspect := aspect s; enhanceCrop := enhanceCrop s;
     completedEnhanceCrop := completedEnhanceCrop s; isComparing := isComparing s |}.

Definition setHistoryIndex (v : Z) (s : AppState) : AppState :=
  {| history := history s; historyIndex := v; prompt := prompt s;
     isLoading := isLoading s; error := error s; activeTab := activeTab s;
     editHotspot := editHotspot s; displayHotspot := displayHotspot s;
     foregroundHotspot := foregroundHotspot s; backgroundHotspot := backgroundHotspot s;
     displayForegroundHotspot := displayForegroundHotspot s;
     displayBackgroundHotspot := displayBackgroundHotspot s; crop := crop s;
     completedCrop := completedCrop s; aspect := aspect s; enhanceCrop := enhanceCrop s;
     completedEnhanceCrop := completedEnhanceCrop s; isComparing := isComparing s |}.

Definition setPrompt (v : string) (s : AppState) : AppState :=
  {| history := history s; historyIndex := historyIndex s; prompt := v;
     isLoading := isLoading s; error := error s; activeTab := activeTab s;
     editHotspot := editHotspot s; displayHotspot := displayHotspot s;
     foregroundHotspot := foregroundHotspot s; backgroundHotspot := backgroundHotspot s;
     displayForegroundHotspot := displayForegroundHotspot s;
     displayBackgroundHotspot := displayBackgroundHotspot s; crop := crop s;
     completedCrop := completedCrop s; aspect := aspect s; enhanceCrop := enhanceCrop s;
     completedEnhanceCrop := completedEnhanceCrop s; isComparing := isComparing s |}.

Definition setIsLoading (v : bool) (s : AppState) : AppState :=
  {| history := history s; historyIndex := historyIndex s; prompt := prompt s;
     isLoading := v; error := error s; activeTab := activeTab s;
     editHotspot := editHotspot s; displayHotspot := displayHotspot s;
     foregroundHotspot := foregroundHotspot s; backgroundHotspot := backgroundHotspot s;
     displayForegroundHotspot := displayForegroundHotspot s;
     displayBackgroundHotspot := displayBackgroundHotspot s; crop := crop s;
     completedCrop := completedCrop s; aspect := aspect s; enhanceCrop := enhanceCrop s;
     completedEnhanceCrop := completedEnhanceCrop s; isComparing := isComparing s |}.

Definition setError (v : option string) (s : AppState) : AppState :=
  {| history := history s; historyIndex := historyIndex s; prompt := prompt s;
     isLoading := isLoading s; error := v; activeTab := activeTab s;
     editHotspot := editHotspot s; displayHotspot := displayHotspot s;
     foregroundHotspot := foregroundHotspot s; backgroundHotspot := backgroundHotspot s;
     displayForegroundHotspot := displayForegroundHotspot s;
     displayBackgroundHotspot := displayBackgroundHotspot s; crop := crop s;
     completedCrop := completedCrop s; aspect := aspect s; enhanceCrop := enhanceCrop s;
     completedEnhanceCrop := completedEnhanceCrop s; isComparing := isComparing s |}.

Definition setActiveTab (v : Tab) (s : AppState) : AppState :=
  {| history := history s; historyIndex := historyIndex s; prompt := prompt s;
     isLoading := isLoading s; error := error s; activeTab := v;
     editHotspot := editHotspot s; displayHotspot := displayHotspot s;
     foregroundHotspot := foregroundHotspot s; backgroundHotspot := backgroundHotspot s;
     displayForegroundHotspot := displayForegroundHotspot s;
     displayBackgroundHotspot := displayBackgroundHotspot s; crop := crop s;
     completedCrop := completedCrop s; aspect := aspect s; enhanceCrop := enhanceCrop s;
     completedEnhanceCrop := completedEnhanceCrop s; isComparing := isComparing s |}.

Definition setEditHotspot (v : option Point) (s : AppState) : AppState :=
  {| history := history s; historyIndex := historyIndex s; prompt := prompt s;
     isLoading := isLoading s; error := error s; activeTab := activeTab s; editHotspot := v;
     displayHotspot := displayHotspot s; foregroundHotspot := foregroundHotspot s;
     backgroundHotspot := backgroundHotspot s;
     displayForegroundHotspot := displayForegroundHotspot s;
     displayBackgroundHotspot := displayBackgroundHotspot s; crop := crop s;
     completedCrop := completedCrop s; aspect := aspect s; enhanceCrop := enhanceCrop s;
     completedEnhanceCrop := completedEnhanceCrop s; isComparing := isComparing s |}.

Definition setDisplayHotspot (v : option Point) (s : AppState) : AppState :=
  {| history := history s; historyIndex := historyIndex s; prompt := prompt s;
     isLoading := isLoading s; error := error s; activeTab := activeTab s;
     editHotspot := editHotspot s; displayHotspot := v;
     foregroundHotspot := foregroundHotspot s; backgroundHotspot := backgroundHotspot s;
     displayForegroundHotspot := displayForegroundHotspot s;
     displayBackgroundHotspot := displayBackgroundHotspot s; crop := crop s;
     completedCrop := completedCrop s; aspect := aspect s; enhanceCrop := enhanceCrop s;
     completedEnhanceCrop := completedEnhanceCrop s; isComparing := isComparing s |}.

Definition setForegroundHotspot (v : option Point) (s : AppState) : AppState :=
  {| history := history s; historyIndex := historyIndex s; prompt := prompt s;
     isLoading := isLoading s; error := error s; activeTab := activeTab s;
     editHotspot := editHotspot s; displayHotspot := displayHotspot s;
     foregroundHotspot := v; backgroundHotspot := backgroundHotspot s;
     displayForegroundHotspot := displayForegroundHotspot s;
     displayBackgroundHotspot := displayBackgroundHotspot s; crop := crop s;
     completedCrop := completedCrop s; aspect := aspect s; enhanceCrop := enhanceCrop s;
     completedEnhanceCrop := completedEnhanceCrop s; isComparing := isComparing s |}.

Definition setBackgroundHotspot (v : option Point) (s : AppState) : AppState :=
  {| history := history s; historyIndex := historyIndex s; prompt := prompt s;
     isLoading := isLoading s; error := error s; activeTab := activeTab s;
     editHotspot := editHotspot s; displayHotspot := displayHotspot s;
     foregroundHotspot := foregroundHotspot s; backgroundHotspot := v;
     displayForegroundHotspot := displayForegroundHotspot s;
     displayBackgroundHotspot := displayBackgroundHotspot s; crop := crop s;
     completedCrop := completedCrop s; aspect := aspect s; enhanceCrop := enhanceCrop s;
     completedEnhanceCrop := completedEnhanceCrop s; isComparing := isComparing s |}.

Definition setDisplayForegroundHotspot (v : option Point) (s : AppState) : AppState :=
  {| history := history s; historyIndex := historyIndex s; prompt := prompt s;
     isLoading := isLoading s; error := error s; activeTab := activeTab s;
     editHotspot := editHotspot s; displayHotspot := displayHotspot s;
     foregroundHotspot := foregroundHotspot s; backgroundHotspot := backgroundHotspot s;
     displayForegroundHotspot := v; displayBackgroundHotspot := displayBackgroundHotspot s;
     crop := crop s; completedCrop := completedCrop s; aspect := aspect s;
     enhanceCrop := enhanceCrop s; completedEnhanceCrop := completedEnhanceCrop s;
     isComparing := isComparing s |}.

Definition setDisplayBackgroundHotspot (v : option Point) (s : AppState) : AppState :=
  {| history := history s; historyIndex := historyIndex s; prompt := prompt s;
     isLoading := isLoading s; error := error s; activeTab := activeTab s;
     editHotspot := editHotspot s; displayHotspot := displayHotspot s;
     foregroundHotspot := foregroundHotspot s; backgroundHotspot := backgroundHotspot s;
     displayForegroundHotspot := displayForegroundHotspot s; displayBackgroundHotspot := v;
     crop := crop s; completedCrop := completedCrop s; aspect := aspect s;
     enhanceCrop := enhanceCrop s; completedEnhanceCrop := completedEnhanceCrop s;
     isComparing := isComparing s |}.

Definition setCrop (v : option Crop) (s : AppState) : AppState :=
  {| history := history s; historyIndex := historyIndex s; prompt := prompt s;
     isLoading := isLoading s; error := error s; activeTab := activeTab s;
     editHotspot := editHotspot s; displayHotspot := displayHotspot s;
     foregroundHotspot := foregroundHotspot s; backgroundHotspot := backgroundHotspot s;
     displayForegroundHotspot := displayForegroundHotspot s;
     displayBackgroundHotspot := displayBackgroundHotspot s; crop := v;
     completedCrop := completedCrop s; aspect := aspect s; enhanceCrop := enhanceCrop s;
     completedEnhanceCrop := completedEnhanceCrop s; isComparing := isComparing s |}.

Definition setCompletedCrop (v : option Crop) (s : AppState) : AppState :=
  {| history := history s; historyIndex := historyIndex s; prompt := prompt s;
     isLoading := isLoading s; error := error s; activeTab := activeTab s;
     editHotspot := editHotspot s; displayHotspot := displayHotspot s;
     foregroundHotspot := foregroundHotspot s; backgroundHotspot := backgroundHotspot s;
     displayForegroundHotspot := displayForegroundHotspot s;
     displayBackgroundHotspot := displayBackgroundHotspot s; crop := crop s;
     completedCrop := v; aspect := aspect s; enhanceCrop := enhanceCrop s;
     completedEnhanceCrop := completedEnhanceCrop s; isComparing := isComparing s |}.

Definition setAspect (v : option number) (s : AppState) : AppState :=
  {| history := history s; historyIndex := historyIndex s; prompt := prompt s;
     isLoading := isLoading s; error := error s; activeTab := activeTab s;
     editHotspot := editHotspot s; displayHotspot := displayHotspot s;
     foregroundHotspot := foregroundHotspot s; backgroundHotspot := backgroundHotspot s;
     displayForegroundHotspot := displayForegroundHotspot s;
     displayBackgroundHotspot := displayBackgroundHotspot s; crop := crop s;
     completedCrop := completedCrop s; aspect := v; enhanceCrop := enhanceCrop s;
     completedEnhanceCrop := completedEnhanceCrop s; isComparing := isComparing s |}.

Definition setEnhanceCrop (v : option Crop) (s : AppState) : AppState :=
  {| history := history s; historyIndex := historyIndex s; prompt := prompt s;
     isLoading := isLoading s; error := error s; activeTab := activeTab s;
     editHotspot := editHotspot s; displayHotspot := displayHotspot s;
     foregroundHotspot := foregroundHotspot s; backgroundHotspot := backgroundHotspot s;
     displayForegroundHotspot := displayForegroundHotspot s;
     displayBackgroundHotspot := displayBackgroundHotspot s; crop := crop s;
     completedCrop := completedCrop s; aspect := aspect s; enhanceCrop := v;
     completedEnhanceCrop := completedEnhanceCrop s; isComparing := isComparing s |}.

Definition setCompletedEnhanceCrop (v : option Crop) (s : AppState) : AppState :=
  {| history := history s; historyIndex := historyIndex s; prompt := prompt s;
     isLoading := isLoading s; error := error s; activeTab := activeTab s;
     editHotspot := editHotspot s; displayHotspot := displayHotspot s;
     foregroundHotspot := foregroundHotspot s; backgroundHotspot := backgroundHotspot s;
     displayForegroundHotspot := displayForegroundHotspot s;
     displayBackgroundHotspot := displayBackgroundHotspot s; crop := crop s;
     completedCrop := completedCrop s; aspect := aspect s; enhanceCrop := enhanceCrop s;
     completedEnhanceCrop := v; isComparing := isComparing s |}.

Definition setIsComparing (v : bool) (s : AppState) : AppState :=
  {| history := history s; historyIndex := historyIndex s; prompt := prompt s;
     isLoading := isLoading s; error := error s; activeTab := activeTab s;
     editHotspot := editHotspot s; displayHotspot := displayHotspot s;
     foregroundHotspot := foregroundHotspot s; backgroundHotspot := backgroundHotspot s;
     displayForegroundHotspot := displayForegroundHotspot s;
     displayBackgroundHotspot := displayBackgroundHotspot s; crop := crop s;
     completedCrop := completedCrop s; aspect := aspect s; enhanceCrop := enhanceCrop s;
     completedEnhanceCrop := completedEnhanceCrop s; isComparing := v |}.

Definition initialState : AppState :=
  {| history := []; historyIndex := -1; prompt := EmptyString; isLoading := false;
     error := None; activeTab := TabRetouch;
     editHotspot := None; displayHotspot := None;
     foregroundHotspot := None; backgroundHotspot := None;
     displayForegroundHotspot := None; displayBackgroundHotspot := None;
     crop := None; completedCrop := None; aspect := None;
     enhanceCrop := None; completedEnhanceCrop := None; isComparing := false |}.

(** *** Arrays *)

(** [l[i]] for an integer [i]: [undefined] outside the array. *)
Definition at_ {A} (l : list A) (i : Z) : option A :=
  if i <? 0 then None else l !! Z.to_nat i.

(** [l.slice(0, stop)]: a negative [stop] counts from the end. *)
Definition slice0 {A} (l : list A) (stop : Z) : list A :=
  let len := Z.of_nat (length l) in
  let k := if stop <? 0 then Z.max (len + stop) 0 else Z.min stop len in
  take (Z.to_nat k) l.

(** *** What the component takes from the browser *)

(** Where [handleApplyExpansion] draws: the canvas of the request, the size
    of the original on it and its offset. *)
Record Placement : Type := {
  modelCanvasWidth : number;
  modelCanvasHeight : number;
  scaledOriginalWidth : number;
  scaledOriginalHeight : number;
  dxModel : number;
  dyModel : number
}.

(** [atob]; the clock behind the calls of [Date.now()] of one handler,
    numbered from 0; the decoding of an image, giving [naturalWidth] and
    [naturalHeight]; and the canvas: [None] when [getContext] returns
    [null], otherwise the data URL of the canvas after the drawing. *)
Record Browser : Type := {
  service : Env;
  atob : string -> Result string;
  clock : nat -> Z;
  loadImage : File -> Result (number * number);
  drawPadded : File -> Placement -> option string
}.

(** *** Derived values *)

(** [history[historyIndex] ?? null] *)
Definition currentImage (s : AppState) : option File := at_ (history s) (historyIndex s).

(** [history[0] ?? null] *)
Definition originalImage (s : AppState) : option File := at_ (history s) 0.

Definition canUndo (s : AppState) : bool := 0 <? historyIndex s.

Definition canRedo (s : AppState) : bool :=
  historyIndex s <? Z.of_nat (length (history s)) - 1.

(** *** [dataURLtoFile] *)

Definition dataURLtoFile (br : Browser) (dataurl filename : string) : Result File :=
  match parseDataUrl dataurl with
  | inl e => inl e
  | inr (mime, payload) =>
      match atob br payload with
      | inl e => inl e
      | inr bstr =>
          inr {| fileName := filename; fileType := typeOfFile mime;
                 fileBytes := list_ascii_of_string bstr |}
      end
  end.

(** *** The history store *)

Definition clearInteractionPoints (s : AppState) : AppState :=
  setCompletedEnhanceCrop None
    (setEnhanceCrop None
       (setDisplayBackgroundHotspot None
          (setDisplayForegroundHotspot None
             (setBackgroundHotspot None
                (setForegroundHotspot None
                   (setDisplayHotspot None (setEditHotspot None s))))))).

Definition addImageToHistory (newImageFile : File) (s : AppState) : AppState :=
  let newHistory := slice0 (history s) (historyIndex s + 1) ++ [newImageFile] in
  clearInteractionPoints
    (setCompletedCrop None
       (setCrop None
          (setHistoryIndex (Z.of_nat (length newHistory) - 1)
             (setHistory newHistory s)))).

Definition handleImageUpload (file : File) (s : AppState) : AppState :=
  clearInteractionPoints
    (setCompletedCrop None
       (setCrop None
          (setActiveTab TabRetouch
             (setHistoryIndex 0 (setHistory [file] (setError None s)))))).

Definition handleUndo (s : AppState) : AppState :=
  if canUndo s then clearInteractionPoints (setHistoryIndex (historyIndex s - 1) s)
  else s.

Definition handleRedo (s : AppState) : AppState :=
  if canRedo s then clearInteractionPoints (setHistoryIndex (historyIndex s + 1) s)
  else s.

Definition handleReset (s : AppState) : AppState :=
  if 0 <? Z.of_nat (length (history s))
  then clearInteractionPoints (setError None (setHistoryIndex 0 s))
  else s.

Definition handleUploadNew (s : AppState) : AppState :=
  clearInteractionPoints
    (setPrompt EmptyString (setError None (setHistoryIndex (-1) (setHistory [] s)))).

(** [handleFileSelect(files)]: [f] is [files[0]] when [files] is not
    [null]. *)
Definition handleFileSelect (f : option File) (s : AppState) : AppState :=
  match f with
  | Some file => handleImageUpload file s
  | None => s
  end.

Definition handleTabSwitch (tab : Tab) (s : AppState) : AppState :=
  clearInteractionPoints (setActiveTab tab s).

(** *** The edit handlers *)

(** [err instanceof Error ? err.message : 'An unknown error occurred.'] *)
Definition errorMessageOf (err : Thrown) : string :=
  match err with
  | Error message => message
  | NotAnError => "An unknown error occurred."
  end.

(** A handler's early exit: an error message and nothing submitted. *)
Definition refuse (message : string) (s : AppState) : AppState * list Request :=
  (setError (Some message) s, []).

(** The part of a handler after its guards: the busy flag is raised and the
    error cleared, then the [try] block [work] runs; its file is appended
    to the history, or what it throws is caught and becomes the error
    message; [finally] lowers the busy flag.  The result pairs the state
    with the requests submitted. *)
Definition attempt (failed : string) (work : Async File) (s : AppState)
  : AppState * list Request :=
  let started := setError None (setIsLoading true s) in
  let '(sent, outcome) := work in
  let settled :=
    match outcome with
    | inr newImageFile => addImageToHistory newImageFile started
    | inl err => setError (Some (failed +:+ errorMessageOf err)) started
    end in
  (setIsLoading false settled, sent).

(** [`${stem}-${Date.now()}.png`], for the [n]-th reading of the clock. *)
Definition stamped (br : Browser) (stem : string) (n : nat) : string :=
  stem +:+ "-" +:+ pretty (clock br n) +:+ ".png".

Local Open Scope async_scope.

Definition handleGenerate (br : Browser) (s : AppState) : AppState * list Request :=
  match currentImage s with
  | None => refuse "No image loaded to edit." s
  | Some image =>
      if negb (truthy (trim (prompt s)))
      then refuse "Please enter a description for your edit." s
      else
        match editHotspot s with
        | None => refuse "Please click on the image to select an area to edit." s
        | Some hotspot =>
            attempt "Failed to generate the image. "
              (await editedImageUrl <-
                 generateEditedImage (service br) image (prompt s) hotspot;
               lift (dataURLtoFile br editedImageUrl (stamped br "edited" 0)))
              s
        end
  end.

Definition handleApplyFilter (br : Browser) (filterPrompt : string) (s : AppState)
  : AppState * list Request :=
  match currentImage s with
  | None => refuse "No image loaded to apply a filter to." s
  | Some image =>
      attempt "Failed to apply the filter. "
        (await filteredImageUrl <- generateFilteredImage (service br) image filterPrompt;
         lift (dataURLtoFile br filteredImageUrl (stamped br "filtered" 0)))
        s
  end.

Definition handleApplyAdjustment (br : Browser) (adjustmentPrompt : string)
    (s : AppState) : AppState * list Request :=
  match currentImage s with
  | None => refuse "No image loaded to apply an adjustment to." s
  | Some image =>
      attempt "Failed to apply the adjustment. "
        (await adjustedImageUrl <-
           generateAdjustedImage (service br) image adjustmentPrompt;
         lift (dataURLtoFile br adjustedImageUrl (stamped br "adjusted" 0)))
        s
  end.

Definition handleApplyReframe (br : Browser) (cameraAnglePrompt : string)
    (s : AppState) : AppState * list Request :=
  match currentImage s with
  | None => refuse "No image loaded to reframe." s
  | Some image =>
      attempt "Failed to reframe the image. "
        (await reframedImageUrl <-
           generateReframedImage (service br) image cameraAnglePrompt;
         lift (dataURLtoFile br reframedImageUrl (stamped br "reframed" 0)))
        s
  end.

Definition handleApplyZoom (br : Browser) (zoomPrompt : string) (s : AppState)
  : AppState * list Request :=
  match currentImage s with
  | None => refuse "No image loaded to apply zoom to." s
  | Some image =>
      attempt "Failed to apply zoom. "
        (await zoomedImageUrl <- generateZoomedImage (service br) image zoomPrompt;
         lift (dataURLtoFile br zoomedImageUrl (stamped br "zoomed" 0)))
        s
  end.

Definition handleApplyEnhancement (br : Browser) (enhancementPrompt : string)
    (s : AppState) : AppState * list Request :=
  match currentImage s with
  | None => refuse "No image loaded to apply an enhancement to." s
  | Some image =>
      match completedEnhanceCrop s with
      | Some area =>
          if isZero (width area)
          then refuse "Please select an area on the image to enhance." s
          else
            attempt "Failed to apply the enhancement. "
              (await enhancedImageUrl <-
                 generateEnhancedImage (service br) image enhancementPrompt area;
               lift (dataURLtoFile br enhancedImageUrl (stamped br "enhanced" 0)))
              s
      | None => refuse "Please select an area on the image to enhance." s
      end
  end.

(** *** The expansion geometry *)

Definition MODEL_MAX_DIM : number := ofZ 2048.

(** [finalWidth] and [finalHeight]: the canvas before the bound on the
    model's input is applied. *)
Definition finalSize (originalWidth originalHeight aspectRatio : number)
  : number * number :=
  let originalAspect := ndiv originalWidth originalHeight in
  if ngt originalAspect aspectRatio
  then (originalWidth, round (ndiv originalWidth aspectRatio))
  else (round (nmul originalHeight aspectRatio), originalHeight).

Definition scaleFactorOf (finalWidth finalHeight : number) : number :=
  if ngt finalWidth MODEL_MAX_DIM || ngt finalHeight MODEL_MAX_DIM
  then
    if ngt finalWidth finalHeight
    then ndiv MODEL_MAX_DIM finalWidth
    else ndiv MODEL_MAX_DIM finalHeight
  else ofZ 1.

Definition placementOf (originalWidth originalHeight aspectRatio : number)
  : Placement :=
  let '(finalWidth, finalHeight) :=
    finalSize originalWidth originalHeight aspectRatio in
  let scaleFactor := scaleFactorOf finalWidth finalHeight in
  let canvasWidth := round (nmul finalWidth scaleFactor) in
  let canvasHeight := round (nmul finalHeight scaleFactor) in
  let scaledWidth := round (nmul originalWidth scaleFactor) in
  let scaledHeight := round (nmul originalHeight scaleFactor) in
  {| modelCanvasWidth := canvasWidth;
     modelCanvasHeight := canvasHeight;
     scaledOriginalWidth := scaledWidth;
     scaledOriginalHeight := scaledHeight;
     dxModel := ndiv (nsub canvasWidth scaledWidth) (ofZ 2);
     dyModel := ndiv (nsub canvasHeight scaledHeight) (ofZ 2) |}.

Definition handleApplyExpansion (br : Browser) (aspectRatio : number)
    (userPrompt : string) (s : AppState) : AppState * list Request :=
  match currentImage s with
  | None => refuse "No image loaded to expand." s
  | Some image =>
      attempt "Failed to expand the image. "
        (await size <- lift (loadImage br image);
         let placement := placementOf size.1 size.2 aspectRatio in
         match drawPadded br image placement with
         | None => throw (Error "Could not create canvas context for model.")
         | Some paddedDataUrlForModel =>
             await paddedImageFileForModel <-
               lift (dataURLtoFile br paddedDataUrlForModel
                       (stamped br "padded-for-model" 0));
             await expandedImageDataUrl <-
               generateExpandedImage (service br) paddedImageFileForModel userPrompt;
             lift (dataURLtoFile br expandedImageDataUrl
                     (stamped br "expanded-final" 1))
         end)
        s
  end.

Definition handleApplyHarmonize (br : Browser) (userPrompt : string) (s : AppState)
  : AppState * list Request :=
  match currentImage s with
  | None => refuse "No image loaded to harmonize." s
  | Some image =>
      match foregroundHotspot s, backgroundHotspot s with
      | Some foreground, Some background =>
          attempt "Failed to harmonize the image. "
            (await harmonizedImageUrl <-
               generateHarmonizedImage (service br) image userPrompt
                 foreground background;
             lift (dataURLtoFile br harmonizedImageUrl (stamped br "harmonized" 0)))
            s
      | _, _ => refuse "Please select a foreground object and a background point." s
      end
  end.

Definition handleApplyCombine (br : Browser) (sourceImage : File)
    (userPrompt : string) (s : AppState) : AppState * list Request :=
  match currentImage s with
  | None => refuse "No destination image loaded." s
  | Some image =>
      match editHotspot s with
      | None => refuse "Please select a location on the destination image." s
      | Some hotspot =>
          attempt "Failed to combine images. "
            (await combinedImageUrl <-
               generateCombinedImage (service br) image sourceImage userPrompt hotspot;
             lift (dataURLtoFile br combinedImageUrl (stamped br "combined" 0)))
            s
      end
  end.

(** *** [handleImageClick] *)

(** What the handler reads from the click and from the image element. *)
Record Click : Type := {
  clientX : number;
  clientY : number;
  rectLeft : number;
  rectTop : number;
  naturalWidth : number;
  naturalHeight : number;
  clientWidth : number;
  clientHeight : number
}.

Definition offsetOf (e : Click) : Point :=
  {| x := nsub (clientX e) (rectLeft e); y := nsub (clientY e) (rectTop e) |}.

Definition originalOf (e : Click) : Point :=
  let scaleX := ndiv (naturalWidth e) (clientWidth e) in
  let scaleY := ndiv (naturalHeight e) (clientHeight e) in
  {| x := round (nmul (x (offsetOf e)) scaleX);
     y := round (nmul (y (offsetOf e)) scaleY) |}.

Definition handleImageClick (e : Click) (s : AppState) : AppState :=
  match activeTab s with
  | TabRetouch | TabCombine =>
      setEditHotspot (Some (originalOf e)) (setDisplayHotspot (Some (offsetOf e)) s)
  | TabIntegrate =>
      match foregroundHotspot s, backgroundHotspot s with
      | None, _ | Some _, Some _ =>
          setBackgroundHotspot None
            (setDisplayBackgroundHotspot None
               (setForegroundHotspot (Some (originalOf e))
                  (setDisplayForegroundHotspot (Some (offsetOf e)) s)))
      | Some _, None =>
          setBackgroundHotspot (Some (originalOf e))
            (setDisplayBackgroundHotspot (Some (offsetOf e)) s)
      end
  | _ => s
  end.

End App.

(* ===================================================================== *)
(** ** components/CombinePanel.tsx *)
(* ===================================================================== *)

Module CombinePanel.
Import Js GeminiService App.

(** The [onClick] of the panel's button,
    [() => sourceImage && onApplyCombine(sourceImage, prompt)], where
    [onApplyCombine] is [handleApplyCombine]. *)
Definition onClick (br : Browser) (sourceImage : option File) (prompt : string)
    (s : AppState) : AppState * list Request :=
  match sourceImage with
  | Some file => handleApplyCombine br file prompt s
  | None => (s, [])
  end.

End CombinePanel.

(* ===================================================================== *)
(** ** Sessions: the handlers as the transitions of one state machine *)
(* ===================================================================== *)

Module Session.
Import Js GeminiService App.

(** The nine operations that submit a request, with the arguments their
    panels pass. *)
Inductive EditOp : Type :=
| Generate
| ApplyFilter (filterPrompt : string)
| ApplyAdjustment (adjustmentPrompt : string)
| ApplyReframe (cameraAnglePrompt : string)
| ApplyZoom (zoomPrompt : string)
| ApplyEnhancement (enhancementPrompt : string)
| ApplyExpansion (aspectRatio : number) (userPrompt : string)
| ApplyHarmonize (userPrompt : string)
| ApplyCombine (sourceImage : File) (userPrompt : string).

Definition edit (br : Browser) (op : EditOp) (s : AppState) : AppState * list Request :=
  match op with
  | Generate => handleGenerate br s
  | ApplyFilter p => handleApplyFilter br p s
  | ApplyAdjustment p => handleApplyAdjustment br p s
  | ApplyReframe p => handleApplyReframe br p s
  | ApplyZoom p => handleApplyZoom br p s
  | ApplyEnhancement p => handleApplyEnhancement br p s
  | ApplyExpansion r p => handleApplyExpansion br r p s
  | ApplyHarmonize p => handleApplyHarmonize br p s
  | ApplyCombine f p => handleApplyCombine br f p s
  end.

(** What can happen to the state: the handlers, the setters the panels
    and the image call directly, and the edits; an edit carries the browser
    and endpoint behaviour met by that call. *)
Inductive Action : Type :=
| Upload (file : File)
| Append (version : File)
| Undo
| Redo
| Reset
| UploadNew
| TabSwitch (tab : Tab)
| ImageClick (e : Click)
| SetPrompt (text : string)
| ChangeCrop (c : option Crop)
| CompleteCrop (c : Crop)
| SetAspect (ratio : option number)
| ChangeEnhanceCrop (c : option Crop)
| CompleteEnhanceCrop (c : Crop)
| Compare (held : bool)
| DismissError
| Edit (br : Browser) (op : EditOp).

Definition perform (a : Action) (s : AppState) : AppState :=
  match a with
  | Upload file => handleImageUpload file s
  | Append version => addImageToHistory version s
  | Undo => handleUndo s
  | Redo => handleRedo s
  | Reset => handleReset s
  | UploadNew => handleUploadNew s
  | TabSwitch tab => handleTabSwitch tab s
  | ImageClick e => handleImageClick e s
  | SetPrompt text => setPrompt text s
  | ChangeCrop c => setCrop c s
  | CompleteCrop c => setCompletedCrop (Some c) s
  | SetAspect ratio => setAspect ratio s
  | ChangeEnhanceCrop c => setEnhanceCrop c s
  | CompleteEnhanceCrop c => setCompletedEnhanceCrop (Some c) s
  | Compare held => setIsComparing held s
  | DismissError => setError None s
  | Edit br op => (edit br op s).1
  end.

(** The actions of a list in order, the head first. *)
Definition performAll (acts : list Action) (s : AppState) : AppState :=
  fold_left (fun st a => perform a st) acts s.

(** The states after each click of a list. *)
Fixpoint clickTrace (clicks : list Click) (s : AppState) : list AppState :=
  match clicks with
  | [] => []
  | e :: rest => let s' := handleImageClick e s in s' :: clickTrace rest s'
  end.

(** The history invariant: the cursor is [-1] on an empty history and an
    index of the history otherwise. *)
Definition cursorOk (s : AppState) : Prop :=
  match history s with
  | [] => historyIndex s = -1
  | _ :: _ => 0 <= historyIndex s <= Z.of_nat (length (history s)) - 1
  end.

(** The actions that only move the cursor. *)
Definition isNavigation (a : Action) : bool :=
  match a with
  | Undo | Redo | Reset => true
  | _ => false
  end.

(** *** What the claims speak of *)

(** A state that differs from [s] at most in the error message and the
    busy flag. *)
Definition sameButErrorAndBusy (s s' : AppState) : Prop :=
  s' = setIsLoading (isLoading s') (setError (error s') s).

(** The response carries a block reason. *)
Definition carriesBlockReason (response : GenerateContentResponse) : Prop :=
  exists fb reason,
    promptFeedback response = Some fb /\ blockReason fb = Some reason
    /\ reason <> EmptyString.

(** No part of the first candidate of the response has inline data. *)
Definition noInlineData (response : GenerateContentResponse) : Prop :=
  forall c rest ct ps,
    candidates response = Some (c :: rest) -> content c = Some ct ->
    parts ct = Some ps ->
    Forall (fun part => inlineData part = None) ps.

(** The first candidate of the response, if there is one, gives no finish
    reason, an empty one, or the normal one. *)
Definition normalFinish (response : GenerateContentResponse) : Prop :=
  forall c rest reason,
    candidates response = Some (c :: rest) -> finishReason c = Some reason ->
    reason = EmptyString \/ reason = "STOP".

(** The double quote as a text. *)
Definition quote : string := String "034"%char EmptyString.

(** The text a handler reports for what its [try] block threw. *)
Definition thrownText (err : Thrown) : string :=
  match err with
  | Error message => message
  | NotAnError => "An unknown error occurred."
  end.

(** The [try] block of a handler fails with [err] after submitting [sent]:
    the call of the dispatcher throws [err], or it returns a data URL and
    decoding that throws [err]. *)
Definition tryFails (call : Async string) (decode : string -> Result File)
    (sent : list Request) (err : Thrown) : Prop :=
  call = (sent, inl err)
  \/ exists url, call = (sent, inr url) /\ decode url = inl err.

(** What a failed edit leaves: the state [s] with the error message and the
    busy flag down, and the requests [sent]. *)
Definition failedWith (failed : string) (err : Thrown) (sent : list Request)
    (s : AppState) : AppState * list Request :=
  (setIsLoading false (setError (Some (failed +:+ thrownText err)) s), sent).

(** The client of [env] is constructed and its endpoint answers every
    request with [response], which the interpreter refuses with [err] in the
    context [context]. *)
Definition refusedAnswer (env : Env) (response : GenerateContentResponse)
    (context : string) (err : Thrown) : Prop :=
  newGoogleGenAI env = inr tt
  /\ (forall request, generateContent env request = inr response)
  /\ handleApiResponse response context = inl err.

(** The code unit [c] occurs in [t]. *)
Fixpoint contains (c : ascii) (t : string) : bool :=
  match t with
  | EmptyString => false
  | String c' rest => Ascii.eqb c' c || contains c rest
  end.

(** The integer nearest to a rational, a tie going up: what [Math.round]
    returns on a finite number. *)
Definition nearest (q : Q) : Z := Qfloor (q + (1 # 2)).

(** The integer [z] is less than one away from the number [q]: what
    rounding [q] to an integer gives, however a tie or the last digit of
    [q] is settled. *)
Definition withinOne (z : Z) (q : Q) : Prop :=
  (q - 1 < inject_Z z /\ inject_Z z < q + 1)%Q.

(** The message of each handler when no image is loaded. *)
Definition noImageLoaded (op : EditOp) : string :=
  match op with
  | Generate => "No image loaded to edit."
  | ApplyFilter _ => "No image loaded to apply a filter to."
  | ApplyAdjustment _ => "No image loaded to apply an adjustment to."
  | ApplyReframe _ => "No image loaded to reframe."
  | ApplyZoom _ => "No image loaded to apply zoom to."
  | ApplyEnhancement _ => "No image loaded to apply an enhancement to."
  | ApplyExpansion _ _ => "No image loaded to expand."
  | ApplyHarmonize _ => "No image loaded to harmonize."
  | ApplyCombine _ _ => "No destination image loaded."
  end.

(** The enhance area is absent or has width 0. *)
Definition noEnhanceArea (s : AppState) : Prop :=
  completedEnhanceCrop s = None
  \/ exists area, completedEnhanceCrop s = Some area /\ isZero (width area) = true.

(** In a state of the integrate tab, a background point is there only with
    a foreground point. *)
Definition backgroundNeedsForeground (s : AppState) : Prop :=
  is_Some (backgroundHotspot s) -> is_Some (foregroundHotspot s).

(** *** Samples for the worked examples *)

(** A file of a given name, and the history [[A; B; C]] at cursor 2. *)
Definition sampleFile (name : string) : File :=
  {| fileName := name; fileType := "image/png"; fileBytes := [] |}.

Definition sampleABC : AppState :=
  setHistoryIndex 2
    (setHistory [sampleFile "A"; sampleFile "B"; sampleFile "C"] initialState).

(** One image loaded, an instruction typed and a point selected. *)
Definition sampleReady : AppState :=
  setEditHotspot (Some {| x := ofZ 10; y := ofZ 20 |})
    (setPrompt "make the sky blue" (handleImageUpload (sampleFile "A") initialState)).

(** One image loaded, the integrate tab open, no point selected. *)
Definition sampleIntegrate : AppState :=
  handleTabSwitch TabIntegrate (handleImageUpload (sampleFile "A") initialState).

Definition sampleClick : Click :=
  {| clientX := ofZ 110; clientY := ofZ 70; rectLeft := ofZ 10; rectTop := ofZ 20;
     naturalWidth := ofZ 1000; naturalHeight := ofZ 500;
     clientWidth := ofZ 500; clientHeight := ofZ 250 |}.

(** A response whose first candidate has one image of MIME type [mime]. *)
Definition sampleResponse (feedback : option PromptFeedback) (mime : string)
  : GenerateContentResponse :=
  {| promptFeedback := feedback;
     candidates :=
       Some [ {| content :=
                   Some {| parts :=
                             Some [ {| inlineData :=
                                         Some {| mimeType := Some mime;
                                                 data := Some "AAAA" |};
                                       partText := None |} ] |};
                 finishReason := Some "STOP" |} ];
     text := TextIs None |}.

(** A response with both a block reason and an image. *)
Definition sampleBlockedWithImage : GenerateContentResponse :=
  sampleResponse (Some {| blockReason := Some "SAFETY"; blockReasonMessage := None |})
    "image/png".

(** A response with an image and no block reason. *)
Definition sampleImageResponse : GenerateContentResponse :=
  sampleResponse None "image/png".

(** A response whose image has an empty MIME type. *)
Definition sampleEmptyMimeResponse : GenerateContentResponse :=
  sampleResponse None EmptyString.

(** A browser whose file reader and canvas give a well-formed data URL,
    whose [atob] is the identity, and whose endpoint answers every request
    with [response]. *)
Definition sampleBrowser (response : GenerateContentResponse) : Browser :=
  {| service :=
       {| newGoogleGenAI := inr tt;
          readAsDataURL := fun _ => inr "data:image/png;base64,AAAA";
          generateContent := fun _ => inr response;
          numberToString := fun _ => "0" |};
     atob := fun payload => inr payload;
     clock := fun _ => 0;
     loadImage := fun _ => inr (ofZ 1000, ofZ 500);
     drawPadded := fun _ _ => Some "data:image/png;base64,AAAA" |}.

End Session.

(* ===================================================================== *)
(** ** components/ZoomPanel.tsx *)
(* ===================================================================== *)

Module ZoomPanel.
Import Js GeminiService App.

Inductive LensAngle : Type := Standard | Wide | UltraWide.

(** The string each lens angle stands for. *)
Definition lensName (angle : LensAngle) : string :=
  match angle with
  | Standard => "Standard"
  | Wide => "Wide"
  | UltraWide => "Ultra-wide"
  end.

Definition MIN_ZOOM : Z := -2.
Definition MAX_ZOOM : Z := 3.

Definition zoomLevelDescriptions : gmap Z string :=
  list_to_map
    [ (MAX_ZOOM, "Macro Detail Focus");
      (2, "High-Resolution Center Study");
      (1, "Focal Magnification");
      (0, "Standard Calibration");
      (-1, "Wide-Field Context");
      (MIN_ZOOM, "Global Scene Panorama") ].

Definition zoomPrompts : gmap Z string :=
  list_to_map
    [ (3, "Execute 400% magnification. Focus on microscopic surface details and high-frequency textures of the central subject ROI.");
      (2, "Execute 200% magnification. Magnify central anatomical structures and resolve fine surface patterns.");
      (1, "Execute 150% focal length extension. Center perspective on primary anatomical features with high fidelity.");
      (0, "Maintain current standard photographic framing and perspective projection.");
      (-1, "Execute 75% focal length reduction. Synthesize surrounding environmental metadata to provide broader spatial context.");
      (-2, "Execute 50% wide-angle projection. Reconstruct a global panorama encompassing the complete scene and environment.") ].

Definition lensAngles : list LensAngle := [Standard; Wide; UltraWide].

(** [t.toLowerCase()] on the letters A to Z. *)
Definition lowerChar (c : ascii) : ascii :=
  let n := Ascii.nat_of_ascii c in
  if (65 <=? n)%nat && (n <=? 90)%nat then Ascii.ascii_of_nat (n + 32) else c.

Fixpoint toLowerCase (t : string) : string :=
  match t with
  | EmptyString => EmptyString
  | String c rest => String (lowerChar c) (toLowerCase rest)
  end.

(** The text [handleApply] passes to [onApplyZoom], from the two pieces of
    the panel's state. *)
Definition zoomInstruction (zoomLevel : Z) (lensAngle : LensAngle) : string :=
  let basePrompt := interpolate (zoomPrompts !! zoomLevel) in
  let angleModifier :=
    match lensAngle with
    | Standard => EmptyString
    | _ => " Use an " +:+ toLowerCase (lensName lensAngle)
           +:+ " lens distortion profile."
    end in
  basePrompt +:+ angleModifier.

(** [handleApply], with [onApplyZoom] bound to [handleApplyZoom]. *)
Definition handleApply (br : Browser) (zoomLevel : Z) (lensAngle : LensAngle)
    (s : AppState) : AppState * list Request :=
  handleApplyZoom br (zoomInstruction zoomLevel lensAngle) s.

End ZoomPanel.

(* ===================================================================== *)
(** ** components/ExpandPanel.tsx *)
(* ===================================================================== *)

Module ExpandPanel.
Import Js GeminiService App.

(** The six names ['16:9'], ['32:9'], ['9:16'], ['4:3'], ['3:4'] and
    ['1:1']. *)
Inductive AspectRatio : Type :=
| Ratio_16_9 | Ratio_32_9 | Ratio_9_16 | Ratio_4_3 | Ratio_3_4 | Ratio_1_1.

#[export] Instance AspectRatio_eq_dec : EqDecision AspectRatio.
Proof. solve_decision. Defined.

Definition aspects : list (AspectRatio * number) :=
  [ (Ratio_16_9, ndiv (ofZ 16) (ofZ 9));
    (Ratio_32_9, ndiv (ofZ 32) (ofZ 9));
    (Ratio_9_16, ndiv (ofZ 9) (ofZ 16));
    (Ratio_4_3, ndiv (ofZ 4) (ofZ 3));
    (Ratio_3_4, ndiv (ofZ 3) (ofZ 4));
    (Ratio_1_1, ofZ 1) ].

(** [handleApply], with [onApplyExpansion] bound to
    [handleApplyExpansion]. *)
Definition handleApply (br : Browser) (activeAspect : AspectRatio) (prompt : string)
    (s : AppState) : AppState * list Request :=
  match List.find (fun a => bool_decide (a.1 = activeAspect)) aspects with
  | Some selectedAspect => handleApplyExpansion br selectedAspect.2 prompt s
  | None => (s, [])
  end.

End ExpandPanel.

(* ===================================================================== *)
(** ** components/ReframePanel.tsx *)
(* ===================================================================== *)

Module ReframePanel.
Import Js GeminiService App.

(** The presets: a name and a prompt each. *)
Definition presets : list (string * string) :=
  [ ("Over-the-Shoulder",
     "Re-render from an over-the-shoulder third-person video game perspective. The camera is very close behind the subject's left shoulder, looking forward.");
    ("Low Angle",
     "A dramatic shot from a low angle in front, with the camera looking up at the subject.");
    ("Worm's-eye View",
     "Re-render the image from an extreme low-angle, wide-angle perspective, as if the camera is placed on the floor very close to the main subject, looking up.");
    ("Top-Down View",
     "A shot from directly above, also known as a " +:+ dq +:+ "bird's-eye view"
     +:+ dq +:+ ".");
    ("Dutch Angle",
     "A shot with the camera tilted to create a sense of unease or disorientation.");
    ("Side View",
     "A shot from the side, at eye level, showing the subject in profile.");
    ("Full Body",
     "A full-body shot from the front at eye level.");
    ("Close-up",
     "A close-up shot of the subject's face at eye level.") ].

(** [handleApply], with [onApplyReframe] bound to [handleApplyReframe] and
    the [isLoading] property bound to the busy flag. *)
Definition handleApply (br : Browser) (prompt : string) (s : AppState)
  : AppState * list Request :=
  if truthy (trim prompt) && negb (isLoading s)
  then handleApplyReframe br prompt s
  else (s, []).

End ReframePanel.

(* ===================================================================== *)
(** ** The buttons of the panels, and the local crop of App.tsx *)
(* ===================================================================== *)

Module Buttons.
Import Js GeminiService App.

(** The [disabled] attribute of the retouch button in [App.tsx]. *)
Definition generateDisabled (s : AppState) : bool :=
  isLoading s || negb (truthy (trim (prompt s)))
  || negb (bool_decide (is_Some (editHotspot s))).

(** The [disabled] attribute of the button of [HarmonizePanel]. *)
Definition harmonizeDisabled (s : AppState) : bool :=
  isLoading s || negb (bool_decide (is_Some (foregroundHotspot s)))
  || negb (bool_decide (is_Some (backgroundHotspot s))).

(** [isAreaSelected], as [App.tsx] passes it to [EnhancePanel], and the
    [disabled] attribute of the panel's button. *)
Definition isAreaSelected (s : AppState) : bool :=
  bool_decide (is_Some (completedEnhanceCrop s)).

Definition enhanceDisabled (s : AppState) : bool :=
  isLoading s || negb (isAreaSelected s).

(** [canGenerate] of [CombinePanel], over the panel's own source image and
    prompt. *)
Definition canGenerate (sourceImage : option File) (prompt : string)
    (s : AppState) : bool :=
  negb (isLoading s) && bool_decide (is_Some sourceImage)
  && bool_decide (is_Some (editHotspot s)) && truthy (trim prompt).

End Buttons.

Module LocalCrop.
Import Js GeminiService App.

(** What [handleApplyCrop] reads from the image element. *)
Record ImageElement : Type := {
  imageNaturalWidth : number;
  imageNaturalHeight : number;
  imageWidth : number;
  imageHeight : number
}.

(** What [handleApplyCrop] does to its canvas: the numbers it assigns last
    to [canvas.width] and [canvas.height] (the canvas converts them to
    unsigned integers), the scale of [setTransform], and the arguments of
    [drawImage] after the image. *)
Record Drawing : Type := {
  widthAssigned : number;
  heightAssigned : number;
  transformScale : number;
  sourceX : number;
  sourceY : number;
  sourceWidth : number;
  sourceHeight : number;
  destX : number;
  destY : number;
  destWidth : number;
  destHeight : number
}.

(** The page around the handler: [imgRef.current], whether [getContext]
    gives a context, [window.devicePixelRatio], and the data URL of the
    canvas after a drawing. *)
Record Page : Type := {
  imgRef : option ImageElement;
  hasContext : bool;
  devicePixelRatio : number;
  toDataURL : ImageElement -> Drawing -> string
}.

(** [n || 1] *)
Definition orOne (n : number) : number :=
  match n with
  | NaN => ofZ 1
  | _ => if isZero n then ofZ 1 else n
  end.

Definition drawingOf (pg : Page) (image : ImageElement) (c : Crop) : Drawing :=
  let scaleX := ndiv (imageNaturalWidth image) (imageWidth image) in
  let scaleY := ndiv (imageNaturalHeight image) (imageHeight image) in
  let pixelRatio := orOne (devicePixelRatio pg) in
  {| widthAssigned := nmul (width c) pixelRatio;
     heightAssigned := nmul (height c) pixelRatio;
     transformScale := pixelRatio;
     sourceX := nmul (cropX c) scaleX;
     sourceY := nmul (cropY c) scaleY;
     sourceWidth := nmul (width c) scaleX;
     sourceHeight := nmul (height c) scaleY;
     destX := ofZ 0;
     destY := ofZ 0;
     destWidth := width c;
     destHeight := height c |}.

(** [handleApplyCrop]: the new state, or what the handler lets escape.
    Nothing is submitted. *)
Definition handleApplyCrop (br : Browser) (pg : Page) (s : AppState)
  : Result AppState :=
  match completedCrop s, imgRef pg with
  | Some c, Some image =>
      if hasContext pg then
        match dataURLtoFile br (toDataURL pg image (drawingOf pg image c))
                (stamped br "cropped" 0) with
        | inl e => inl e
        | inr newImageFile => inr (addImageToHistory newImageFile s)
        end
      else inr (setError (Some "Could not process the crop.") s)
  | _, _ => inr (setError (Some "Please select an area to crop.") s)
  end.

End LocalCrop.

(* ===================================================================== *)
(** ** What the further properties speak of *)
(* ===================================================================== *)

Module Properties.
Import Js GeminiService App Session.

(** No point and no enhance area is selected. *)
Definition pointsCleared (s : AppState) : Prop :=
  editHotspot s = None /\ displayHotspot s = None
  /\ foregroundHotspot s = None /\ backgroundHotspot s = None
  /\ displayForegroundHotspot s = None /\ displayBackgroundHotspot s = None
  /\ enhanceCrop s = None /\ completedEnhanceCrop s = None.

(** The actions that load or unload an image. *)
Definition isUpload (a : Action) : bool :=
  match a with
  | Upload _ | UploadNew => true
  | _ => false
  end.

(** The requests [sent] by one edit through the service [env]: none, or
    one request to the model [MODEL] made of one or two image parts, each
    read from a file by [fileToPart], and then one text part that begins
    with [CLINICAL_CONTEXT]. *)
Definition sentBy (env : Env) (sent : list Request) : Prop :=
  sent = []
  \/ exists images text,
       Forall (fun p => exists file, fileToPart env file = inr p) images
       /\ (1 <= length images <= 2)%nat
       /\ String.prefix CLINICAL_CONTEXT text = true
       /\ sent = [ {| model := MODEL; contents := images ++ [TextPart text] |} ].

(** Every code unit of [t] is white space. *)
Fixpoint allWhiteSpace (t : string) : bool :=
  match t with
  | EmptyString => true
  | String c rest => isWhiteSpace c && allWhiteSpace rest
  end.

(** The sample browser with a file reader that fails on every file. *)
Definition sampleUnreadable : Browser :=
  {| service :=
       {| newGoogleGenAI := inr tt;
          readAsDataURL := fun _ => inl NotAnError;
          generateContent := generateContent (service (sampleBrowser sampleImageResponse));
          numberToString := numberToString (service (sampleBrowser sampleImageResponse)) |};
     atob := atob (sampleBrowser sampleImageResponse);
     clock := clock (sampleBrowser sampleImageResponse);
     loadImage := loadImage (sampleBrowser sampleImageResponse);
     drawPadded := drawPadded (sampleBrowser sampleImageResponse) |}.

(** The sample browser with a canvas that gives no context. *)
Definition sampleNoCanvas : Browser :=
  {| service := service (sampleBrowser sampleImageResponse);
     atob := atob (sampleBrowser sampleImageResponse);
     clock := clock (sampleBrowser sampleImageResponse);
     loadImage := loadImage (sampleBrowser sampleImageResponse);
     drawPadded := fun _ _ => None |}.

(** A placement whose sizes are integers, with the original inside the
    canvas, the canvas inside the 2048 by 2048 square, and offsets that are
    not negative. *)
Definition withinModelBound (p : Placement) : Prop :=
  exists (cw ch sw sh : Z) (dx dy : Q),
    p = {| modelCanvasWidth := ofZ cw; modelCanvasHeight := ofZ ch;
           scaledOriginalWidth := ofZ sw; scaledOriginalHeight := ofZ sh;
           dxModel := Finite dx; dyModel := Finite dy |}
    /\ 0 <= sw <= cw /\ cw <= 2048
    /\ 0 <= sh <= ch /\ ch <= 2048
    /\ (0 <= dx /\ dx + inject_Z sw <= inject_Z cw)%Q
    /\ (0 <= dy /\ dy + inject_Z sh <= inject_Z ch)%Q.

(** The ratio each name of [ExpandPanel] stands for. *)
Definition namedRatio (a : ExpandPanel.AspectRatio) : Q :=
  match a with
  | ExpandPanel.Ratio_16_9 => 16 # 9
  | ExpandPanel.Ratio_32_9 => 32 # 9
  | ExpandPanel.Ratio_9_16 => 9 # 16
  | ExpandPanel.Ratio_4_3 => 4 # 3
  | ExpandPanel.Ratio_3_4 => 3 # 4
  | ExpandPanel.Ratio_1_1 => 1
  end.

(** No code unit of [t] is a line terminator. *)
Fixpoint noLineTerminator (t : string) : bool :=
  match t with
  | EmptyString => true
  | String c rest => negb (isLineTerminator c) && noLineTerminator rest
  end.

(** A MIME type that a data URL can carry: not empty, without comma,
    semicolon or line terminator. *)
Definition cleanMime (mime : string) : bool :=
  truthy mime && negb (contains ","%char mime) && negb (contains ";"%char mime)
  && noLineTerminator mime.

(** Every code unit of [t] is in U+0020..U+007E and none is an upper-case
    letter: a type that a [File] keeps as it is given. *)
Fixpoint lowerPrintable (t : string) : bool :=
  match t with
  | EmptyString => true
  | String c rest =>
      let n := Ascii.nat_of_ascii c in
      (32 <=? n)%nat && (n <=? 126)%nat && negb ((65 <=? n)%nat && (n <=? 90)%nat)
      && lowerPrintable rest
  end.

(** Some code unit of [t] is outside U+0020..U+007E. *)
Fixpoint hasUnprintable (t : string) : bool :=
  match t with
  | EmptyString => false
  | String c rest =>
      let n := Ascii.nat_of_ascii c in
      (n <? 32)%nat || (126 <? n)%nat || hasUnprintable rest
  end.

(** The text [t] with its upper-case ASCII letters in lower case. *)
Fixpoint lowered (t : string) : string :=
  match t with
  | EmptyString => EmptyString
  | String c rest =>
      let n := Ascii.nat_of_ascii c in
      String (if (65 <=? n)%nat && (n <=? 90)%nat
              then Ascii.ascii_of_nat (n + 32) else c)
        (lowered rest)
  end.

(** The first candidate of the response has no part with inline data. *)
Definition firstCandidateHasNoImage (response : GenerateContentResponse) : Prop :=
  forall c ct ps,
    firstCandidate response = Some c -> content c = Some ct -> parts ct = Some ps ->
    Forall (fun part => inlineData part = None) ps.

(** A page with an image shown at half its natural size of 1000 by 500, a
    canvas context, and the pixel ratio [ratio]; its canvas always gives
    the data URL [url]. *)
Definition samplePage (ratio : number) (url : string) : LocalCrop.Page :=
  {| LocalCrop.imgRef :=
       Some {| LocalCrop.imageNaturalWidth := ofZ 1000;
               LocalCrop.imageNaturalHeight := ofZ 500;
               LocalCrop.imageWidth := ofZ 500;
               LocalCrop.imageHeight := ofZ 250 |};
     LocalCrop.hasContext := true;
     LocalCrop.devicePixelRatio := ratio;
     LocalCrop.toDataURL := fun _ _ => url |}.

(** The sample state with a completed crop of 100 by 50 at (200, 100). *)
Definition sampleCropped : AppState :=
  setCompletedCrop
    (Some {| cropX := ofZ 200; cropY := ofZ 100; width := ofZ 100; height := ofZ 50;
             unit := px |})
    sampleReady.

(** The sample page at pixel ratio 1, with a canvas that gives the data
    URL [data:,] when one of the sizes assigned to it is 0, as a canvas
    without pixels does, and the data URL of a PNG image otherwise. *)
Definition sampleCanvasPage : LocalCrop.Page :=
  {| LocalCrop.imgRef :=
       Some {| LocalCrop.imageNaturalWidth := ofZ 1000;
               LocalCrop.imageNaturalHeight := ofZ 500;
               LocalCrop.imageWidth := ofZ 500;
               LocalCrop.imageHeight := ofZ 250 |};
     LocalCrop.hasContext := true;
     LocalCrop.devicePixelRatio := ofZ 1;
     LocalCrop.toDataURL := fun _ d =>
       if isZero (LocalCrop.widthAssigned d) || isZero (LocalCrop.heightAssigned d)
       then "data:,"
       else "data:image/png;base64,AAAA" |}.

(** The sample state with a completed crop of no extent at (200, 100): a
    click on the image without a drag. *)
Definition sampleEmptyCrop : AppState :=
  setCompletedCrop
    (Some {| cropX := ofZ 200; cropY := ofZ 100; width := ofZ 0; height := ofZ 0;
             unit := px |})
    sampleReady.

(** The prefix of the message of each handler when its [try] block
    throws. *)
Definition failedPrefix (op : EditOp) : string :=
  match op with
  | Generate => "Failed to generate the image. "
  | ApplyFilter _ => "Failed to apply the filter. "
  | ApplyAdjustment _ => "Failed to apply the adjustment. "
  | ApplyReframe _ => "Failed to reframe the image. "
  | ApplyZoom _ => "Failed to apply zoom. "
  | ApplyEnhancement _ => "Failed to apply the enhancement. "
  | ApplyExpansion _ _ => "Failed to expand the image. "
  | ApplyHarmonize _ => "Failed to harmonize the image. "
  | ApplyCombine _ _ => "Failed to combine images. "
  end.

(** The messages of the guards of each handler. *)
Definition guardMessages (op : EditOp) : list string :=
  noImageLoaded op
  :: match op with
     | Generate =>
         [ "Please enter a description for your edit.";
           "Please click on the image to select an area to edit." ]
     | ApplyEnhancement _ => [ "Please select an area on the image to enhance." ]
     | ApplyHarmonize _ =>
         [ "Please select a foreground object and a background point." ]
     | ApplyCombine _ _ => [ "Please select a location on the destination image." ]
     | _ => []
     end.

End Properties.

(* ===================================================================== *)
(** ** The history store *)
(* ===================================================================== *)

Import Js GeminiService App Session.

Section HistoryStore.

Implicit Types (s : AppState) (f v : File) (l : list File).

Lemma slice0_nonneg {A} (l : list A) (k : Z) :
  0 <= k -> slice0 l k = take (Z.to_nat k) l.
Proof.
  intros Hk. unfold slice0.
  destruct (Z.ltb_spec k 0) as [?|_]; [lia|].
  destruct (Z.le_gt_cases k (Z.of_nat (length l))) as [Hle|Hgt].
  - now rewrite Z.min_l.
  - rewrite Z.min_r by lia. rewrite Nat2Z.id.
    rewrite !take_ge; [reflexivity|lia|lia].
Qed.

Lemma at_lookup {A} (l : list A) (i : Z) :
  0 <= i -> at_ l i = l !! Z.to_nat i.
Proof.
  intros Hi. unfold at_. destruct (Z.ltb_spec i 0); [lia|reflexivity].
Qed.

Lemma at_last {A} (l : list A) (a : A) :
  at_ (l ++ [a]) (Z.of_nat (length (l ++ [a])) - 1) = Some a.
Proof.
  rewrite length_app; simpl.
  rewrite at_lookup by lia.
  replace (Z.to_nat (Z.of_nat (length l + 1) - 1)) with (length l + 0)%nat by lia.
  now rewrite lookup_app_r, Nat.add_comm, Nat.add_sub by lia.
Qed.

Lemma history_add f s :
  history (addImageToHistory f s) = slice0 (history s) (historyIndex s + 1) ++ [f].
Proof. reflexivity. Qed.

Lemma historyIndex_add f s :
  historyIndex (addImageToHistory f s)
  = Z.of_nat (length (history (addImageToHistory f s))) - 1.
Proof. reflexivity. Qed.

Lemma currentImage_add f s : currentImage (addImageToHistory f s) = Some f.
Proof.
  unfold currentImage. rewrite historyIndex_add, history_add. apply at_last.
Qed.

Lemma canRedo_add f s : canRedo (addImageToHistory f s) = false.
Proof.
  unfold canRedo. rewrite historyIndex_add. apply Z.ltb_irrefl.
Qed.

Lemma cursorOk_bounds s :
  cursorOk s -> -1 <= historyIndex s < Z.of_nat (length (history s)).
Proof.
  unfold cursorOk. destruct (history s); simpl; lia.
Qed.

Lemma cursorOk_add f s : cursorOk (addImageToHistory f s).
Proof.
  unfold cursorOk. rewrite historyIndex_add, history_add.
  destruct (slice0 _ _); simpl; lia.
Qed.

Lemma cursorOk_undo s : cursorOk s -> cursorOk (handleUndo s).
Proof.
  intros H. unfold handleUndo, canUndo.
  destruct (Z.ltb_spec 0 (historyIndex s)); [|exact H].
  revert H. unfold cursorOk; simpl. destruct (history s); simpl; lia.
Qed.

Lemma cursorOk_redo s : cursorOk s -> cursorOk (handleRedo s).
Proof.
  intros H. unfold handleRedo, canRedo.
  destruct (Z.ltb_spec (historyIndex s) (Z.of_nat (length (history s)) - 1));
    [|exact H].
  revert H H0. unfold cursorOk; simpl. destruct (history s); simpl; lia.
Qed.

Lemma cursorOk_reset s : cursorOk s -> cursorOk (handleReset s).
Proof.
  intros H. unfold handleReset.
  destruct (Z.ltb_spec 0 (Z.of_nat (length (history s)))); [|exact H].
  revert H H0. unfold cursorOk; simpl. destruct (history s); simpl; lia.
Qed.

Lemma history_navigation a s :
  isNavigation a = true -> history (perform a s) = history s.
Proof.
  destruct a; try discriminate; intros _; simpl.
  - unfold handleUndo. now destruct (canUndo s).
  - unfold handleRedo. now destruct (canRedo s).
  - unfold handleReset. now destruct (_ <? _).
Qed.

Lemma cursorOk_navigation a s :
  isNavigation a = true -> cursorOk s -> cursorOk (perform a s).
Proof.
  destruct a; try discriminate; intros _; simpl;
    auto using cursorOk_undo, cursorOk_redo, cursorOk_reset.
Qed.

Lemma navigation_run (acts : list Action) s :
  forallb isNavigation acts = true -> cursorOk s ->
  history (performAll acts s) = history s /\ cursorOk (performAll acts s).
Proof.
  revert s. induction acts as [|a acts IH]; intros s Hnav Hok; [easy|].
  simpl in Hnav. apply andb_prop in Hnav as [Ha Hacts].
  destruct (IH (perform a s) Hacts (cursorOk_navigation a s Ha Hok)) as [Hh Hc].
  split; [|exact Hc].
  change (performAll (a :: acts) s) with (performAll acts (perform a s)).
  now rewrite Hh, history_navigation.
Qed.

Lemma currentImage_in s :
  cursorOk s -> history s <> [] ->
  exists v, currentImage s = Some v /\ v ∈ history s.
Proof.
  intros Hok Hne. unfold currentImage.
  assert (0 <= historyIndex s < Z.of_nat (length (history s))) as Hb.
  { revert Hok Hne. unfold cursorOk. destruct (history s); simpl; [easy|lia]. }
  rewrite at_lookup by lia.
  destruct (lookup_lt_is_Some_2 (history s) (Z.to_nat (historyIndex s))) as [v Hv];
    [lia|].
  exists v. split; [exact Hv|]. eapply list_elem_of_lookup_2, Hv.
Qed.

End HistoryStore.

(* ===================================================================== *)
(** ** The shape of the edit handlers *)
(* ===================================================================== *)

Section EditShape.

Implicit Types (s : AppState) (br : Browser) (op : EditOp).

Lemma attempt_failure failed sent err s :
  attempt failed (sent, inl err) s
  = (setIsLoading false (setError (Some (failed +:+ errorMessageOf err)) s), sent).
Proof. reflexivity. Qed.

Lemma attempt_success failed sent f s :
  attempt failed (sent, inr f) s
  = (setIsLoading false (addImageToHistory f (setError None s)), sent).
Proof. reflexivity. Qed.

(** Every edit handler either refuses at a guard, or runs its [try] block
    once. *)
Lemma edit_shape br op s :
  (exists message, edit br op s = refuse message s)
  \/ (exists failed work, edit br op s = attempt failed work s).
Proof.
  destruct op; simpl;
    [ unfold handleGenerate | unfold handleApplyFilter
    | unfold handleApplyAdjustment | unfold handleApplyReframe
    | unfold handleApplyZoom | unfold handleApplyEnhancement
    | unfold handleApplyExpansion | unfold handleApplyHarmonize
    | unfold handleApplyCombine ];
    repeat match goal with
      | |- context [match ?x with _ => _ end] => destruct x
      end;
    eauto.
Qed.

(** The two outcomes of an edit, on the state: a failure changes the error
    message and the busy flag only; a success appends one file. *)
Lemma edit_outcome br op s :
  let s' := (edit br op s).1 in
  (is_Some (error s') /\ sameButErrorAndBusy s s')
  \/ (error s' = None /\ isLoading s' = false /\
      exists f, history s' = history (addImageToHistory f s)
                /\ historyIndex s' = historyIndex (addImageToHistory f s)).
Proof.
  destruct (edit_shape br op s) as [[m ->]|(failed & [sent [err|f]] & ->)].
  - left. simpl. split; [eauto|]. unfold sameButErrorAndBusy. now destruct s.
  - left. rewrite attempt_failure. simpl. split; [eauto|].
    unfold sameButErrorAndBusy. now destruct s.
  - right. rewrite attempt_success. simpl. repeat split. now exists f.
Qed.

End EditShape.

(* ===================================================================== *)
(** ** Claims on the history store *)
(* ===================================================================== *)

Section HistoryClaims.

Implicit Types (s : AppState) (A B C D f v : File).

(** C1.  Appending discards the versions after the cursor, appends the new
    version and moves the cursor to the new last index.  After an undo, the
    version that was current is replaced by the appended one and no
    sequence of undo, redo and reset reaches it again.  From [[A; B; C]] at
    cursor 2, undo gives cursor 1 and appending [D] gives [[A; B; D]] at
    cursor 2. *)
Theorem append_after_undo_discards_tail :
  (forall s D, cursorOk s ->
     let s' := addImageToHistory D s in
     history s' = take (Z.to_nat (historyIndex s + 1)) (history s) ++ [D]
     /\ historyIndex s' = Z.of_nat (length (history s')) - 1)
  /\ (forall s D, cursorOk s -> canUndo s = true ->
       let s' := addImageToHistory D (handleUndo s) in
       historyIndex (handleUndo s) = historyIndex s - 1
       /\ history s' = take (Z.to_nat (historyIndex s)) (history s) ++ [D]
       /\ historyIndex s' = historyIndex s
       /\ currentImage s' = Some D
       /\ canRedo s' = false
       /\ forall acts, forallb isNavigation acts = true ->
            exists v, currentImage (performAll acts s') = Some v
                      /\ v ∈ take (Z.to_nat (historyIndex s)) (history s) ++ [D])
  /\ (forall A B C D s, history s = [A; B; C] -> historyIndex s = 2 ->
       historyIndex (handleUndo s) = 1
       /\ history (addImageToHistory D (handleUndo s)) = [A; B; D]
       /\ historyIndex (addImageToHistory D (handleUndo s)) = 2).
Proof.
  assert (forall s D, cursorOk s ->
            history (addImageToHistory D s)
            = take (Z.to_nat (historyIndex s + 1)) (history s) ++ [D]) as Happend.
  { intros s D Hok. apply cursorOk_bounds in Hok.
    rewrite history_add, slice0_nonneg by lia. reflexivity. }
  assert (forall s D, cursorOk s -> canUndo s = true ->
            historyIndex (handleUndo s) = historyIndex s - 1
            /\ history (addImageToHistory D (handleUndo s))
               = take (Z.to_nat (historyIndex s)) (history s) ++ [D]) as Hundo.
  { intros s D Hok Hcan. pose proof (cursorOk_undo s Hok) as Hok'.
    rewrite (Happend _ D Hok'). unfold handleUndo in *. rewrite Hcan in *. simpl.
    split; [reflexivity|]. do 3 f_equal. lia. }
  split; [|split].
  - intros s D Hok. split; [now apply Happend | apply historyIndex_add].
  - intros s D Hok Hcan s'.
    destruct (Hundo s D Hok Hcan) as [Hidx Hhist]. fold s' in Hhist.
    pose proof (cursorOk_bounds s Hok) as Hb.
    assert (0 < historyIndex s) as Hpos by (now apply Z.ltb_lt).
    repeat split; try assumption.
    + subst s'. rewrite historyIndex_add, Hhist, length_app, length_take. simpl. lia.
    + apply currentImage_add.
    + apply canRedo_add.
    + intros acts Hnav.
      destruct (navigation_run acts s' Hnav (cursorOk_add _ _)) as [Hh Hc].
      destruct (currentImage_in _ Hc) as (v & Hv & Hin).
      * rewrite Hh, Hhist. now destruct (take _ _).
      * exists v. split; [exact Hv|]. now rewrite <- Hhist, <- Hh.
  - intros A B C D s Hh Hi.
    assert (cursorOk s) as Hok by (unfold cursorOk; rewrite Hh, Hi; simpl; lia).
    assert (canUndo s = true) as Hcan by (unfold canUndo; now rewrite Hi).
    destruct (Hundo s D Hok Hcan) as [Hidx Hhist].
    rewrite Hidx, Hhist, historyIndex_add, Hhist, Hh, Hi. now simpl.
Qed.

(** The worked example of C1 on three sample files. *)
Lemma append_after_undo_discards_tail_witness :
  cursorOk sampleABC /\ canUndo sampleABC = true
  /\ history (addImageToHistory (sampleFile "D") (handleUndo sampleABC))
     = [sampleFile "A"; sampleFile "B"; sampleFile "D"]
  /\ historyIndex (addImageToHistory (sampleFile "D") (handleUndo sampleABC)) = 2.
Proof.
  assert (cursorOk sampleABC) as Hok by (unfold cursorOk; simpl; lia).
  split; [exact Hok|]. split; [reflexivity|].
  destruct append_after_undo_discards_tail as (_ & Hundo & _).
  destruct (Hundo sampleABC (sampleFile "D") Hok eq_refl) as (_ & Hh & Hi & _).
  split; [exact Hh | exact Hi].
Defined.

Lemma redo_steps s (k : nat) :
  history s <> [] -> (k < length (history s))%nat ->
  let s' := Nat.iter k handleRedo (handleReset s) in
  history s' = history s /\ historyIndex s' = Z.of_nat k.
Proof.
  intros Hne. induction k as [|k IH]; intros Hk; simpl.
  - unfold handleReset. destruct (Z.ltb_spec 0 (Z.of_nat (length (history s)))).
    + now simpl.
    + destruct (history s); simpl in *; [easy|lia].
  - destruct IH as [Hh Hi]; [lia|].
    set (t := Nat.iter k handleRedo (handleReset s)) in *.
    unfold handleRedo, canRedo. rewrite Hh, Hi.
    destruct (Z.ltb_spec (Z.of_nat k) (Z.of_nat (length (history s)) - 1)); [|lia].
    simpl. split; [exact Hh|lia].
Qed.

(** C5.  On a non-empty history, reset moves the cursor to 0 and keeps
    every version; [k] redos after it make version [k] current, for every
    index [k] of the history.  From [[A; B; C]] at cursor 2, reset gives
    cursor 0 on [[A; B; C]], one redo reaches [B] and a second reaches
    [C]. *)
Theorem reset_keeps_history :
  (forall s, history s <> [] ->
     history (handleReset s) = history s
     /\ historyIndex (handleReset s) = 0
     /\ forall k : nat, (k < length (history s))%nat ->
          let s' := Nat.iter k handleRedo (handleReset s) in
          history s' = history s
          /\ historyIndex s' = Z.of_nat k
          /\ currentImage s' = history s !! k)
  /\ (forall A B C s, history s = [A; B; C] -> historyIndex s = 2 ->
       let r := handleReset s in
       historyIndex r = 0
       /\ history r = [A; B; C]
       /\ currentImage (handleRedo r) = Some B
       /\ currentImage (handleRedo (handleRedo r)) = Some C).
Proof.
  assert (forall s, history s <> [] ->
            forall k : nat, (k < length (history s))%nat ->
              let s' := Nat.iter k handleRedo (handleReset s) in
              history s' = history s
              /\ historyIndex s' = Z.of_nat k
              /\ currentImage s' = history s !! k) as Hredo.
  { intros s Hne k Hk s'. destruct (redo_steps s k Hne Hk) as [Hh Hi].
    fold s' in Hh, Hi. repeat split; try assumption.
    unfold currentImage. rewrite Hh, Hi, at_lookup by lia. now rewrite Nat2Z.id. }
  split.
  - intros s Hne. pose proof (redo_steps s 0 Hne) as H0. simpl in H0.
    destruct H0 as [Hh Hi]; [destruct (history s); simpl; [easy|lia]|].
    split; [exact Hh|]. split; [exact Hi|]. now apply Hredo.
  - intros A B C s Hh Hi r.
    assert (history s <> []) as Hne by now rewrite Hh.
    destruct (Hredo s Hne 0%nat) as (H0h & H0i & _); [rewrite Hh; simpl; lia|].
    destruct (Hredo s Hne 1%nat) as (_ & _ & H1); [rewrite Hh; simpl; lia|].
    destruct (Hredo s Hne 2%nat) as (_ & _ & H2); [rewrite Hh; simpl; lia|].
    simpl in H0h, H0i, H1, H2. fold r in H0h, H0i, H1, H2.
    rewrite Hh in *. now repeat split.
Qed.

(** The worked example of C5 on three sample files. *)
Lemma reset_keeps_history_witness :
  history sampleABC <> []
  /\ historyIndex (handleReset sampleABC) = 0
  /\ history (handleReset sampleABC)
     = [sampleFile "A"; sampleFile "B"; sampleFile "C"]
  /\ currentImage (handleRedo (handleReset sampleABC)) = Some (sampleFile "B")
  /\ currentImage (handleRedo (handleRedo (handleReset sampleABC)))
     = Some (sampleFile "C").
Proof.
  split; [discriminate|].
  exact (proj2 reset_keeps_history (sampleFile "A") (sampleFile "B")
           (sampleFile "C") sampleABC eq_refl eq_refl).
Defined.

Lemma cursorOk_same s s' :
  history s' = history s -> historyIndex s' = historyIndex s ->
  cursorOk s -> cursorOk s'.
Proof. unfold cursorOk. now intros -> ->. Qed.

Lemma sameButErrorAndBusy_history s s' :
  sameButErrorAndBusy s s' ->
  history s' = history s /\ historyIndex s' = historyIndex s.
Proof. unfold sameButErrorAndBusy. now intros ->. Qed.

Lemma cursorOk_perform (a : Action) s : cursorOk s -> cursorOk (perform a s).
Proof.
  intros Hok. destruct a; simpl;
    auto using cursorOk_add, cursorOk_undo, cursorOk_redo, cursorOk_reset.
  - unfold cursorOk; simpl; lia.
  - reflexivity.
  - unfold handleImageClick.
    repeat match goal with
      | |- context [match ?x with _ => _ end] => destruct x
      end; exact Hok.
  - destruct (edit_outcome br op s) as [[_ Hsame]|(_ & _ & f & Hh & Hi)].
    + apply sameButErrorAndBusy_history in Hsame as [Hh Hi].
      now apply (cursorOk_same s).
    + apply (cursorOk_same (addImageToHistory f s)); auto using cursorOk_add.
Qed.

Lemma cursorOk_reachable (acts : list Action) s :
  cursorOk s -> cursorOk (performAll acts s).
Proof.
  revert s. induction acts as [|a acts IH]; intros s Hok; [exact Hok|].
  apply (IH (perform a s)), cursorOk_perform, Hok.
Qed.

(** C6.  The cursor is [-1] when the history is empty and an index of the
    history otherwise: this holds initially, is kept by every upload,
    append, undo, redo, reset, new upload, edit, click and tab switch, and so
    holds in every state reached from the initial one.  Where it holds, the
    current image is absent on an empty history and is the version at the
    cursor otherwise.  After an append the cursor is the last index, so that
    redo is not possible and does nothing. *)
Theorem cursor_invariant :
  cursorOk initialState
  /\ (forall a s, cursorOk s -> cursorOk (perform a s))
  /\ (forall acts, cursorOk (performAll acts initialState))
  /\ (forall s, cursorOk s ->
        match history s with
        | [] => historyIndex s = -1 /\ currentImage s = None
        | _ :: _ =>
            0 <= historyIndex s <= Z.of_nat (length (history s)) - 1
            /\ exists v, history s !! Z.to_nat (historyIndex s) = Some v
                         /\ currentImage s = Some v
        end)
  /\ (forall f s,
        let s' := addImageToHistory f s in
        historyIndex s' = Z.of_nat (length (history s')) - 1
        /\ currentImage s' = Some f
        /\ canRedo s' = false
        /\ handleRedo s' = s').
Proof.
  split; [reflexivity|]. split; [exact cursorOk_perform|].
  split; [intros acts; now apply cursorOk_reachable|]. split.
  - intros s Hok. pose proof Hok as Hc. unfold cursorOk in Hc. unfold currentImage.
    destruct (history s) as [|v0 l] eqn:Hh.
    + split; [exact Hc|]. now rewrite Hc.
    + split; [exact Hc|]. rewrite at_lookup by lia.
      destruct (lookup_lt_is_Some_2 (v0 :: l) (Z.to_nat (historyIndex s)))
        as [v Hv]; [simpl in *; lia|].
      exists v. now rewrite Hv.
  - intros f s s'. repeat split.
    + apply currentImage_add.
    + apply canRedo_add.
    + unfold handleRedo. subst s'. now rewrite canRedo_add.
Qed.

(** The invariant on the sample history, kept by an undo. *)
Lemma cursor_invariant_witness :
  cursorOk sampleABC
  /\ cursorOk (perform Undo sampleABC)
  /\ currentImage (perform Undo sampleABC) = Some (sampleFile "B").
Proof.
  assert (cursorOk sampleABC) as Hok by (unfold cursorOk; simpl; lia).
  split; [exact Hok|].
  destruct cursor_invariant as (_ & Hkeep & _).
  split; [exact (Hkeep Undo sampleABC Hok)|reflexivity].
Defined.

End HistoryClaims.

(* ===================================================================== *)
(** ** The response interpreter *)
(* ===================================================================== *)

Section ResponseInterpreter.

Implicit Types (response : GenerateContentResponse) (context : string).

Lemma truthy_spec (t : string) : truthy t = true <-> t <> EmptyString.
Proof. destruct t; simpl; split; congruence. Qed.

Lemma blockReasonOf_Some response :
  carriesBlockReason response ->
  exists fb, promptFeedback response = Some fb /\ blockReasonOf response = Some fb.
Proof.
  intros (fb & reason & Hfb & Hr & Hne). exists fb. split; [exact Hfb|].
  unfold blockReasonOf. rewrite Hfb, Hr.
  apply truthy_spec in Hne. now rewrite Hne.
Qed.

Lemma blockReasonOf_None response :
  ~ carriesBlockReason response -> blockReasonOf response = None.
Proof.
  intros Hno. unfold blockReasonOf.
  destruct (promptFeedback response) as [fb|] eqn:Hfb; [|reflexivity].
  destruct (blockReason fb) as [reason|] eqn:Hr; [|reflexivity].
  destruct (truthy reason) eqn:Ht; [|reflexivity].
  exfalso. apply Hno. exists fb, reason. repeat split; try assumption.
  now apply truthy_spec.
Qed.

Lemma string_app_assoc (a b c : string) : (a +:+ b) +:+ c = a +:+ b +:+ c.
Proof.
  induction a as [|ch a IH]; [reflexivity|].
  change (String ch ((a +:+ b) +:+ c) = String ch (a +:+ b +:+ c)).
  now f_equal.
Qed.

Lemma find_first_inline (before after : list Part) (part : Part) (d : InlineData) :
  Forall (fun p => inlineData p = None) before -> inlineData part = Some d ->
  List.find (fun p => bool_decide (is_Some (inlineData p))) (before ++ part :: after)
  = Some part.
Proof.
  intros Hbefore Hd. induction Hbefore as [|p before Hp _ IH]; simpl.
  - rewrite Hd. now rewrite bool_decide_eq_true_2 by now eexists.
  - rewrite Hp. rewrite bool_decide_eq_false_2; [exact IH|].
    intros [? ?]; discriminate.
Qed.

Lemma find_no_inline (ps : list Part) :
  Forall (fun p => inlineData p = None) ps ->
  List.find (fun p => bool_decide (is_Some (inlineData p))) ps = None.
Proof.
  induction 1 as [|p ps Hp _ IH]; [reflexivity|]. simpl.
  rewrite Hp. rewrite bool_decide_eq_false_2; [exact IH|].
  intros [? ?]; discriminate.
Qed.

Lemma imagePart_none response :
  noInlineData response -> imagePartFromResponse response = None.
Proof.
  intros Hnone. unfold imagePartFromResponse, firstCandidate.
  destruct (candidates response) as [[|c rest]|] eqn:Hc; try reflexivity.
  destruct (content c) as [ct|] eqn:Hct; [|reflexivity].
  destruct (parts ct) as [ps|] eqn:Hps; [|reflexivity].
  apply find_no_inline. exact (Hnone c rest ct ps Hc Hct Hps).
Qed.

(** C2.  The interpreter classifies in a fixed order.
    - A response whose prompt feedback has a block reason is refused with
      the blocked message, which names the reason and then the message of
      the feedback or a default advice: this whatever the candidates hold,
      an image included.
    - Otherwise, when the parts of the first candidate hold a part with
      inline data, the result is the data URL made of the MIME type and the
      data of the first such part.
    - Otherwise, when the first candidate has a finish reason that is not
      empty and not STOP, the response is refused with the stopped message,
      which names the reason.
    - Otherwise the response is refused with the no-image message, which
      names the context and then quotes the trimmed text of the response,
      or says that the output was blocked when the text is absent, blank or
      not available. *)
Theorem response_priority response context :
  (forall fb reason,
     promptFeedback response = Some fb -> blockReason fb = Some reason ->
     reason <> EmptyString ->
     handleApiResponse response context
     = inl (Error
              ("Request was blocked by safety filters (Prompt). Reason: " +:+ reason
               +:+ ". "
               +:+ match blockReasonMessage fb with
                   | Some (String a m) => String a m
                   | _ => "Try using a less specific prompt or a broader focus."
                   end)))
  /\ (~ carriesBlockReason response ->
      forall c rest ct before part after d,
        candidates response = Some (c :: rest) -> content c = Some ct ->
        parts ct = Some (before ++ part :: after) ->
        Forall (fun p => inlineData p = None) before ->
        inlineData part = Some d ->
        handleApiResponse response context
        = inr ("data:" +:+ default "undefined" (mimeType d)
               +:+ ";base64," +:+ default "undefined" (data d)))
  /\ (~ carriesBlockReason response -> noInlineData response ->
      forall c rest reason,
        candidates response = Some (c :: rest) -> finishReason c = Some reason ->
        reason <> EmptyString -> reason <> "STOP" ->
        handleApiResponse response context
        = inl (Error
                 ("Generation stopped by model safety system (FinishReason: "
                  +:+ reason
                  +:+ "). This often happens when focusing on specific human features at high zoom levels. Technical Mitigation: Try a slightly different zoom level or frame the request as a "
                  +:+ quote +:+ "Macro Detail Study" +:+ quote +:+ ".")))
  /\ (~ carriesBlockReason response -> noInlineData response ->
      normalFinish response ->
      (forall t, text response = TextIs (Some t) -> trim t <> EmptyString ->
         handleApiResponse response context
         = inl (Error
                  ("No image output detected for " +:+ context
                   +:+ ". AI Feedback: " +:+ quote +:+ trim t +:+ quote)))
      /\ (text response = TextThrows \/ text response = TextIs None
          \/ (exists t, text response = TextIs (Some t) /\ trim t = EmptyString) ->
          handleApiResponse response context
          = inl (Error
                   ("No image output detected for " +:+ context
                    +:+ ". The system blocked the output for safety or complexity reasons.")))).
Proof.
  split; [|split; [|split]].
  - intros fb reason Hfb Hr Hne. unfold handleApiResponse, blockReasonOf.
    rewrite Hfb, Hr. apply truthy_spec in Hne. rewrite Hne.
    unfold blockedMessage. rewrite Hr.
    now destruct (blockReasonMessage fb) as [[|a m]|].
  - intros Hno c rest ct before part after d Hc Hct Hps Hbefore Hd.
    unfold handleApiResponse.
    rewrite (blockReasonOf_None _ Hno).
    unfold imagePartFromResponse, firstCandidate.
    rewrite Hc, Hct, Hps, (find_first_inline before after part d Hbefore Hd).
    destruct part as [i t]; simpl in Hd; subst i. reflexivity.
  - intros Hno Himg c rest reason Hc Hr Hne Hstop. unfold handleApiResponse.
    rewrite (blockReasonOf_None _ Hno), (imagePart_none _ Himg).
    unfold firstCandidate. rewrite Hc. simpl. rewrite Hr.
    apply truthy_spec in Hne. apply String.eqb_neq in Hstop.
    now rewrite Hne, Hstop.
  - intros Hno Himg Hnormal.
    assert (handleApiResponse response context
            = inl (Error (noImageMessage context (textFeedbackOf response))))
      as Hshape.
    { unfold handleApiResponse.
      rewrite (blockReasonOf_None _ Hno), (imagePart_none _ Himg).
      unfold firstCandidate.
      destruct (candidates response) as [[|c rest]|] eqn:Hc; try reflexivity.
      simpl.
      destruct (finishReason c) as [reason|] eqn:Hr; [|reflexivity].
      destruct (Hnormal c rest reason Hc Hr) as [->| ->]; reflexivity. }
    rewrite Hshape. unfold noImageMessage, textFeedbackOf. split.
    + intros t Ht Hfeedback. rewrite Ht. unfold orElse.
      destruct t as [|a t]; [now elim Hfeedback|]. simpl truthy. cbv iota.
      apply truthy_spec in Hfeedback. now rewrite Hfeedback.
    + intros [Ht|[Ht|(t & Ht & Hblank)]]; rewrite Ht; try reflexivity.
      unfold orElse. destruct t as [|a t]; [reflexivity|].
      simpl truthy. cbv iota. rewrite Hblank. reflexivity.
Qed.

(** A blocked response that also contains an image is refused. *)
Lemma response_priority_witness :
  promptFeedback sampleBlockedWithImage
  = Some {| blockReason := Some "SAFETY"; blockReasonMessage := None |}
  /\ blockReason {| blockReason := Some "SAFETY"; blockReasonMessage := None |}
  = Some "SAFETY"
  /\ "SAFETY" <> EmptyString
  /\ is_Some (imagePartFromResponse sampleBlockedWithImage)
  /\ handleApiResponse sampleBlockedWithImage "edit"
     = inl (Error
              ("Request was blocked by safety filters (Prompt). Reason: SAFETY. "
               +:+ "Try using a less specific prompt or a broader focus.")).
Proof.
  split; [reflexivity|].
  split; [reflexivity|]. split; [discriminate|]. split; [now eexists|].
  exact (proj1 (response_priority sampleBlockedWithImage "edit")
           {| blockReason := Some "SAFETY"; blockReasonMessage := None |} "SAFETY"
           eq_refl eq_refl ltac:(discriminate)).
Defined.

End ResponseInterpreter.

(* ===================================================================== *)
(** ** The expansion geometry *)
(* ===================================================================== *)

Section Geometry.

Local Open Scope Q_scope.

Lemma nearest_comp (p q : Q) : p == q -> nearest p = nearest q.
Proof. intros H. unfold nearest. now rewrite H. Qed.

Lemma nearest_Qred (q : Q) : nearest (Qred q) = nearest q.
Proof. apply nearest_comp, Qred_correct. Qed.

Lemma Qfloor_unique (x : Q) (n : Z) :
  inject_Z n <= x -> x < inject_Z (n + 1) -> Qfloor x = n.
Proof.
  intros Hlo Hhi.
  pose proof (Qfloor_le x) as Hf. pose proof (Qlt_floor x) as Hc.
  rewrite inject_Z_plus in Hhi, Hc.
  assert (Qfloor x < n + 1)%Z by (rewrite Zlt_Qlt, inject_Z_plus; lra).
  assert (n < Qfloor x + 1)%Z by (rewrite Zlt_Qlt, inject_Z_plus; lra).
  lia.
Qed.

Lemma nearest_Z (z : Z) : nearest (inject_Z z) = z.
Proof.
  apply Qfloor_unique; rewrite ?inject_Z_plus; change (inject_Z 1) with 1; lra.
Qed.

(** The nearest integer is within one half of the number. *)
Lemma nearest_close (q : Q) :
  q - (1 # 2) < inject_Z (nearest q) /\ inject_Z (nearest q) <= q + (1 # 2).
Proof.
  unfold nearest.
  pose proof (Qfloor_le (q + (1 # 2))) as Hf.
  pose proof (Qlt_floor (q + (1 # 2))) as Hc.
  rewrite inject_Z_plus in Hc. change (inject_Z 1) with 1 in Hc. split; lra.
Qed.

Lemma nearest_mono (p q : Q) : p <= q -> (nearest p <= nearest q)%Z.
Proof. intros H. apply Qfloor_resp_le. lra. Qed.

Lemma round_Finite (q : Q) : round (Finite q) = ofZ (nearest q).
Proof. reflexivity. Qed.

Lemma ndiv_Finite (p q : Q) :
  ~ q == 0 -> ndiv (Finite p) (Finite q) = Finite (Qred (p / q)).
Proof.
  intros Hq. simpl. destruct (Qeq_bool q 0) eqn:E; [|reflexivity].
  now apply Qeq_bool_iff in E.
Qed.

Lemma ngt_Finite (p q : Q) : ngt (Finite p) (Finite q) = true <-> q < p.
Proof.
  simpl. rewrite negb_true_iff. split.
  - intros E. apply Qnot_le_lt. intros Hle. apply Qle_bool_iff in Hle. congruence.
  - intros Hlt. destruct (Qle_bool p q) eqn:E; [|reflexivity].
    apply Qle_bool_iff in E. lra.
Qed.

Lemma ngt_Finite_false (p q : Q) : ngt (Finite p) (Finite q) = false <-> p <= q.
Proof.
  simpl. rewrite negb_false_iff. apply Qle_bool_iff.
Qed.

Lemma ngt_ofZ (a b : Z) : ngt (ofZ a) (ofZ b) = (b <? a)%Z.
Proof.
  unfold ofZ. destruct (Z.ltb_spec b a) as [Hlt|Hle].
  - apply ngt_Finite. now rewrite <- Zlt_Qlt.
  - apply ngt_Finite_false. now rewrite <- Zle_Qle.
Qed.

Lemma Qdiv_cancel (a b : Q) : 0 < b -> a / b * b == a.
Proof. intros Hb. field. lra. Qed.

Lemma Qdiv_nonneg (a b : Q) : 0 <= a -> 0 < b -> 0 <= a / b.
Proof. intros Ha Hb. apply Qle_shift_div_l; [exact Hb|lra]. Qed.

Lemma inject_Z_pos (z : Z) : (0 < z)%Z -> 0 < inject_Z z.
Proof. intros H. change 0 with (inject_Z 0). now rewrite <- Zlt_Qlt. Qed.

(** The canvas before the bound: one side is the original's, the other is
    the nearest integer to what the target ratio asks and is not shorter
    than the original's. *)
Lemma finalSize_spec (w h : Z) (r : Q) :
  (0 < w)%Z -> (0 < h)%Z -> 0 < r ->
  exists fw fh : Z,
    finalSize (ofZ w) (ofZ h) (Finite r) = (ofZ fw, ofZ fh)
    /\ ((r < inject_Z w / inject_Z h
         /\ fw = w /\ fh = nearest (inject_Z w / r) /\ (h <= fh)%Z)
        \/ (inject_Z w / inject_Z h <= r
            /\ fh = h /\ fw = nearest (inject_Z h * r) /\ (w <= fw)%Z)).
Proof.
  intros Hw Hh Hr.
  pose proof (inject_Z_pos w Hw) as Hw'. pose proof (inject_Z_pos h Hh) as Hh'.
  pose proof (Qdiv_cancel (inject_Z w) (inject_Z h) Hh') as Hwh.
  unfold finalSize, ofZ. rewrite ndiv_Finite by lra.
  destruct (ngt (Finite (Qred (inject_Z w / inject_Z h))) (Finite r)) eqn:E.
  - apply ngt_Finite in E. rewrite Qred_correct in E.
    rewrite ndiv_Finite, round_Finite, nearest_Qred by lra.
    exists w, (nearest (inject_Z w / r)). split; [reflexivity|]. left.
    repeat split; try assumption.
    rewrite <- (nearest_Z h) at 1. apply nearest_mono.
    apply Qle_shift_div_l; [exact Hr|].
    assert (r * inject_Z h < inject_Z w / inject_Z h * inject_Z h) as Hlt
      by (apply Qmult_lt_r; assumption).
    rewrite Hwh in Hlt. rewrite Qmult_comm. lra.
  - apply ngt_Finite_false in E. rewrite Qred_correct in E.
    change (nmul (Finite (inject_Z h)) (Finite r))
      with (Finite (Qred (inject_Z h * r))).
    rewrite round_Finite, nearest_Qred.
    exists (nearest (inject_Z h * r)), h. split; [reflexivity|]. right.
    repeat split; try assumption.
    rewrite <- (nearest_Z w) at 1. apply nearest_mono.
    assert (inject_Z w / inject_Z h * inject_Z h <= r * inject_Z h) as Hle
      by (apply Qmult_le_compat_r; lra).
    rewrite Hwh in Hle. rewrite Qmult_comm. exact Hle.
Qed.

(** The scale factor: 1 when both sides fit, and 2048 over the longer side
    otherwise. *)
Lemma scaleFactorOf_spec (fw fh : Z) :
  (0 < fw)%Z -> (0 < fh)%Z ->
  exists k : Q,
    scaleFactorOf (ofZ fw) (ofZ fh) = Finite k
    /\ (((fw <= 2048)%Z /\ (fh <= 2048)%Z /\ k == 1)
        \/ (((2048 < fw)%Z \/ (2048 < fh)%Z)
            /\ k == 2048 / inject_Z (Z.max fw fh))).
Proof.
  intros Hfw Hfh. unfold scaleFactorOf, MODEL_MAX_DIM. rewrite !ngt_ofZ.
  destruct (Z.ltb_spec 2048 fw) as [Hw|Hw]; cbn [orb].
  - destruct (Z.ltb_spec fh fw) as [Hlong|Hlong].
    + unfold ofZ. rewrite ndiv_Finite by (pose proof (inject_Z_pos fw Hfw); lra).
      eexists. split; [reflexivity|]. right. split; [now left|].
      rewrite Qred_correct, Z.max_l by lia. reflexivity.
    + unfold ofZ. rewrite ndiv_Finite by (pose proof (inject_Z_pos fh Hfh); lra).
      eexists. split; [reflexivity|]. right. split; [now left|].
      rewrite Qred_correct, Z.max_r by lia. reflexivity.
  - destruct (Z.ltb_spec 2048 fh) as [Hh|Hh].
    + destruct (Z.ltb_spec fh fw) as [Hlong|Hlong]; [lia|].
      unfold ofZ. rewrite ndiv_Finite by (pose proof (inject_Z_pos fh Hfh); lra).
      eexists. split; [reflexivity|]. right. split; [now right|].
      rewrite Qred_correct, Z.max_r by lia. reflexivity.
    + exists (inject_Z 1). split; [reflexivity|]. left. now repeat split.
Qed.

Lemma round_scaled (a : Z) (k : Q) :
  round (nmul (ofZ a) (Finite k)) = ofZ (nearest (inject_Z a * k)).
Proof.
  change (nmul (ofZ a) (Finite k)) with (Finite (Qred (inject_Z a * k))).
  now rewrite round_Finite, nearest_Qred.
Qed.

Lemma half_difference (c o : Z) :
  exists d : Q,
    ndiv (nsub (ofZ c) (ofZ o)) (ofZ 2) = Finite d
    /\ d + inject_Z o + d == inject_Z c.
Proof.
  exists (Qred (Qred (inject_Z c - inject_Z o) / inject_Z 2)).
  split; [reflexivity|]. rewrite !Qred_correct.
  change (inject_Z 2) with 2. field.
Qed.

Lemma scaled_mono (a b : Z) (k : Q) :
  (a <= b)%Z -> 0 <= k -> (nearest (inject_Z a * k) <= nearest (inject_Z b * k))%Z.
Proof.
  intros Hab Hk. apply nearest_mono, Qmult_le_compat_r; [|exact Hk].
  now rewrite <- Zle_Qle.
Qed.

Lemma scaled_longer (a l : Z) (k : Q) :
  (0 < a <= l)%Z -> k == 2048 / inject_Z l ->
  nearest (inject_Z l * k) = 2048%Z /\ (nearest (inject_Z a * k) <= 2048)%Z.
Proof.
  intros [Ha Hal] Hk.
  pose proof (inject_Z_pos l ltac:(lia)) as Hl.
  assert (inject_Z l * k == inject_Z 2048) as Hlk.
  { rewrite Hk. change (inject_Z 2048) with 2048. field. lra. }
  assert (0 <= k) as Hk0.
  { rewrite Hk. apply Qdiv_nonneg; lra. }
  split.
  - rewrite (nearest_comp _ _ Hlk). apply nearest_Z.
  - rewrite <- (nearest_Z 2048), <- (nearest_comp _ _ Hlk).
    now apply scaled_mono.
Qed.

Lemma nearest_withinOne (q : Q) : withinOne (nearest q) q.
Proof. unfold withinOne. pose proof (nearest_close q). split; lra. Qed.

(** C3.  For an image of positive natural size [w] by [h] and a positive
    target ratio [r], all sizes are whole numbers of pixels.  The canvas
    before the bound contains the original unscaled: it keeps one side of
    the original, and its other side is not shorter than the original's and
    is what the ratio asks, rounded to a pixel.  When both sides of that
    canvas are at most 2048 nothing is scaled.  When one exceeds 2048, the
    longer side of the final canvas is 2048, and the sides of the canvas
    and of the original are those before the bound times one factor, 2048
    over the longer side, each rounded to a pixel.  The original fits the
    canvas and has equal margins left and right, and top and bottom.  A
    1000 by 500 image with target ratio 1 gets a 1000 by 1000 canvas,
    unscaled, with margins 0 and 250; a 3000 by 1500 image with target ratio
    1 gets a 2048 by 2048 canvas with the original at 2048 by 1024 and
    margins 0 and 512. *)
Theorem expansion_geometry :
  (forall (w h : Z) (r : Q), (0 < w)%Z -> (0 < h)%Z -> 0 < r ->
     exists fw fh cw ch sw sh : Z, exists dx dy : Q,
       finalSize (ofZ w) (ofZ h) (Finite r) = (ofZ fw, ofZ fh)
       /\ ((fw = w /\ (h <= fh)%Z /\ withinOne fh (inject_Z w / r))
           \/ (fh = h /\ (w <= fw)%Z /\ withinOne fw (inject_Z h * r)))
       /\ placementOf (ofZ w) (ofZ h) (Finite r)
          = {| modelCanvasWidth := ofZ cw; modelCanvasHeight := ofZ ch;
               scaledOriginalWidth := ofZ sw; scaledOriginalHeight := ofZ sh;
               dxModel := Finite dx; dyModel := Finite dy |}
       /\ ((fw <= 2048)%Z -> (fh <= 2048)%Z ->
           cw = fw /\ ch = fh /\ sw = w /\ sh = h)
       /\ ((2048 < fw)%Z \/ (2048 < fh)%Z ->
           Z.max cw ch = 2048%Z
           /\ exists k : Q,
               k == 2048 / inject_Z (Z.max fw fh)
               /\ withinOne cw (inject_Z fw * k) /\ withinOne ch (inject_Z fh * k)
               /\ withinOne sw (inject_Z w * k) /\ withinOne sh (inject_Z h * k))
       /\ (sw <= cw)%Z /\ (sh <= ch)%Z
       /\ dx + inject_Z sw + dx == inject_Z cw
       /\ dy + inject_Z sh + dy == inject_Z ch)
  /\ placementOf (ofZ 1000) (ofZ 500) (ofZ 1)
     = {| modelCanvasWidth := ofZ 1000; modelCanvasHeight := ofZ 1000;
          scaledOriginalWidth := ofZ 1000; scaledOriginalHeight := ofZ 500;
          dxModel := ofZ 0; dyModel := ofZ 250 |}
  /\ placementOf (ofZ 3000) (ofZ 1500) (ofZ 1)
     = {| modelCanvasWidth := ofZ 2048; modelCanvasHeight := ofZ 2048;
          scaledOriginalWidth := ofZ 2048; scaledOriginalHeight := ofZ 1024;
          dxModel := ofZ 0; dyModel := ofZ 512 |}.
Proof.
  split; [|split; reflexivity].
  intros w h r Hw Hh Hr.
  destruct (finalSize_spec w h r Hw Hh Hr) as (fw & fh & Hfinal & Hsides).
  assert ((0 < fw)%Z /\ (0 < fh)%Z /\ (w <= fw)%Z /\ (h <= fh)%Z)
    as (Hfw & Hfh & Hwfw & Hhfh) by (destruct Hsides as [?|?]; lia).
  destruct (scaleFactorOf_spec fw fh Hfw Hfh) as (k & Hk & Hscale).
  assert (0 <= k) as Hk0.
  { destruct Hscale as [(_ & _ & ->)|[_ ->]]; [lra|].
    apply Qdiv_nonneg; [lra|]. apply inject_Z_pos. lia. }
  set (cw := nearest (inject_Z fw * k)). set (ch := nearest (inject_Z fh * k)).
  set (sw := nearest (inject_Z w * k)). set (sh := nearest (inject_Z h * k)).
  destruct (half_difference cw sw) as (dx & Hdx & Hdx').
  destruct (half_difference ch sh) as (dy & Hdy & Hdy').
  exists fw, fh, cw, ch, sw, sh, dx, dy.
  split; [exact Hfinal|]. split.
  { destruct Hsides as [(_ & Hkept & Hgrown & Hle)|(_ & Hkept & Hgrown & Hle)];
      [left|right];
      (split; [exact Hkept|]); (split; [exact Hle|]);
      rewrite Hgrown; apply nearest_withinOne. }
  split.
  { unfold placementOf. rewrite Hfinal, Hk, !round_scaled.
    fold cw ch sw sh. now rewrite Hdx, Hdy. }
  split.
  { intros Hfitw Hfith.
    destruct Hscale as [(_ & _ & Hone)|[Hbig _]]; [|lia].
    assert (forall a, nearest (inject_Z a * k) = a) as Hsame.
    { intros a. rewrite <- (nearest_Z a) at 2. apply nearest_comp.
      rewrite Hone. ring. }
    unfold cw, ch, sw, sh. now rewrite !Hsame. }
  split.
  { intros Hbig.
    destruct Hscale as [(? & ? & _)|[_ Hratio]]; [lia|].
    split; [|exists k; split; [exact Hratio|];
             repeat split; apply nearest_withinOne].
    destruct (Z.max_spec fw fh) as [[Hlt Hmax]|[Hle Hmax]]; rewrite Hmax in Hratio.
    - destruct (scaled_longer fw fh k ltac:(lia) Hratio) as [Hlong Hshort].
      unfold cw, ch. lia.
    - destruct (scaled_longer fh fw k ltac:(lia) Hratio) as [Hlong Hshort].
      unfold cw, ch. lia. }
  split; [now apply scaled_mono|]. split; [now apply scaled_mono|].
  split; assumption.
Qed.

(** The worked example of C3 through the general statement: nothing is
    scaled and the canvas is square. *)
Lemma expansion_geometry_witness :
  (0 < 1000)%Z /\ (0 < 500)%Z /\ 0 < 1
  /\ exists fw fh cw ch sw sh : Z,
      finalSize (ofZ 1000) (ofZ 500) (Finite 1) = (ofZ fw, ofZ fh)
      /\ ((fw <= 2048)%Z -> (fh <= 2048)%Z ->
          cw = fw /\ ch = fh /\ sw = 1000%Z /\ sh = 500%Z)
      /\ (sw <= cw)%Z /\ (sh <= ch)%Z.
Proof.
  split; [reflexivity|]. split; [reflexivity|]. split; [reflexivity|].
  destruct (proj1 expansion_geometry 1000%Z 500%Z 1 eq_refl eq_refl eq_refl)
    as (fw & fh & cw & ch & sw & sh & dx & dy & H1 & _ & _ & H4 & _ & H6 & H7 & _).
  exists fw, fh, cw, ch, sw, sh.
  split; [exact H1|]. split; [exact H4|]. split; [exact H6|exact H7].
Defined.

End Geometry.

(* ===================================================================== *)
(** ** Failing edits *)
(* ===================================================================== *)

Section FailingEdits.

Implicit Types (s : AppState) (br : Browser) (op : EditOp).

Lemma currentImage_same s s' :
  history s' = history s -> historyIndex s' = historyIndex s ->
  currentImage s' = currentImage s.
Proof. unfold currentImage. now intros -> ->. Qed.

Lemma edit_busy br op s :
  isLoading s = false -> isLoading (edit br op s).1 = false.
Proof.
  intros Hidle.
  destruct (edit_shape br op s) as [[m ->]|(failed & [sent [err|f]] & ->)];
    [exact Hidle|reflexivity|reflexivity].
Qed.

Lemma isLoading_perform (a : Action) s :
  isLoading s = false -> isLoading (perform a s) = false.
Proof.
  intros Hidle. destruct a; simpl; try exact Hidle.
  - unfold handleUndo. now destruct (canUndo s).
  - unfold handleRedo. now destruct (canRedo s).
  - unfold handleReset. now destruct (_ <? _).
  - unfold handleImageClick.
    repeat match goal with
      | |- context [match ?x with _ => _ end] => destruct x
      end; exact Hidle.
  - now apply edit_busy.
Qed.

Lemma isLoading_reachable (acts : list Action) s :
  isLoading s = false -> isLoading (performAll acts s) = false.
Proof.
  revert s. induction acts as [|a acts IH]; intros s Hidle; [exact Hidle|].
  apply (IH (perform a s)), isLoading_perform, Hidle.
Qed.

Lemma handleGenerate_attempt br s image hotspot :
  currentImage s = Some image -> trim (prompt s) <> EmptyString ->
  editHotspot s = Some hotspot ->
  handleGenerate br s
  = attempt "Failed to generate the image. "
      (bind (generateEditedImage (service br) image (prompt s) hotspot)
         (fun editedImageUrl =>
            lift (dataURLtoFile br editedImageUrl (stamped br "edited" 0))))
      s.
Proof.
  intros Himg Hprompt Hspot. unfold handleGenerate.
  apply truthy_spec in Hprompt. now rewrite Himg, Hprompt, Hspot.
Qed.

Lemma attempt_tryFails failed call decode sent err s :
  tryFails call decode sent err ->
  attempt failed (bind call (fun url => lift (decode url))) s
  = failedWith failed err sent s.
Proof.
  intros [->|(url & -> & Hdecode)]; unfold bind, lift.
  - apply attempt_failure.
  - rewrite Hdecode, app_nil_r. apply attempt_failure.
Qed.

Lemma generateWith_refused (env : Env) image userPrompt context part response err :
  fileToPart env image = inr part -> refusedAnswer env response context err ->
  generateWith env image userPrompt context
  = ([ {| model := MODEL; contents := [part; TextPart userPrompt] |} ], inl err).
Proof.
  intros Hpart (Hclient & Hanswer & Hrefused).
  unfold generateWith, submit, bind, lift.
  now rewrite Hclient, Hpart, Hanswer, Hrefused.
Qed.

(** C4.  An edit either fails or succeeds.  When it fails an error message
    is set, and the state differs from the one before at most in the error
    message and the busy flag: history, cursor and current image are
    unchanged.  When it succeeds no error message is set and one version is
    appended.  In a state reached from the initial one the busy flag is
    down, and a failing edit changes the error message only.

    For each of the nine handlers, with an image loaded and its inputs
    present: when the dispatcher it calls throws, or returns a data URL
    that cannot be decoded, the handler leaves the state it started from
    with its own failure message followed by the text of what was thrown;
    for the expansion this holds as well when the image cannot be loaded,
    when the canvas gives no context and when the padded image cannot be
    decoded.  Such a state has the history, the cursor and the current
    image of the state before.

    Each of the nine dispatchers throws what the interpreter throws: when
    its client is constructed, the files it encodes are readable and the
    endpoint answers with a response that the interpreter refuses, the
    dispatcher submits one request and throws that refusal. *)
Theorem failed_edit_keeps_history :
  (forall acts br op,
     let s := performAll acts initialState in
     let s' := (edit br op s).1 in
     is_Some (error s') -> s' = setError (error s') s)
  /\
  (forall br op s,
     let s' := (edit br op s).1 in
     (is_Some (error s')
      /\ sameButErrorAndBusy s s'
      /\ history s' = history s
      /\ historyIndex s' = historyIndex s
      /\ currentImage s' = currentImage s)
     \/ (error s' = None
         /\ exists f, history s' = history (addImageToHistory f s)
                      /\ historyIndex s' = historyIndex (addImageToHistory f s)))
  /\ (forall failed err sent s,
       let s' := (failedWith failed err sent s).1 in
       history s' = history s
       /\ historyIndex s' = historyIndex s
       /\ currentImage s' = currentImage s
       /\ error s' = Some (failed +:+ thrownText err)
       /\ isLoading s' = false)
  /\ (forall br s image sent err,
       currentImage s = Some image ->
       (forall hotspot,
          trim (prompt s) <> EmptyString -> editHotspot s = Some hotspot ->
          tryFails (generateEditedImage (service br) image (prompt s) hotspot)
            (fun url => dataURLtoFile br url (stamped br "edited" 0)) sent err ->
          handleGenerate br s
          = failedWith "Failed to generate the image. " err sent s)
       /\ (forall filterPrompt,
           tryFails (generateFilteredImage (service br) image filterPrompt)
             (fun url => dataURLtoFile br url (stamped br "filtered" 0)) sent err ->
           handleApplyFilter br filterPrompt s
           = failedWith "Failed to apply the filter. " err sent s)
       /\ (forall adjustmentPrompt,
           tryFails (generateAdjustedImage (service br) image adjustmentPrompt)
             (fun url => dataURLtoFile br url (stamped br "adjusted" 0)) sent err ->
           handleApplyAdjustment br adjustmentPrompt s
           = failedWith "Failed to apply the adjustment. " err sent s)
       /\ (forall cameraAnglePrompt,
           tryFails (generateReframedImage (service br) image cameraAnglePrompt)
             (fun url => dataURLtoFile br url (stamped br "reframed" 0)) sent err ->
           handleApplyReframe br cameraAnglePrompt s
           = failedWith "Failed to reframe the image. " err sent s)
       /\ (forall zoomPrompt,
           tryFails (generateZoomedImage (service br) image zoomPrompt)
             (fun url => dataURLtoFile br url (stamped br "zoomed" 0)) sent err ->
           handleApplyZoom br zoomPrompt s
           = failedWith "Failed to apply zoom. " err sent s)
       /\ (forall enhancementPrompt area,
           completedEnhanceCrop s = Some area -> isZero (width area) = false ->
           tryFails
             (generateEnhancedImage (service br) image enhancementPrompt area)
             (fun url => dataURLtoFile br url (stamped br "enhanced" 0)) sent err ->
           handleApplyEnhancement br enhancementPrompt s
           = failedWith "Failed to apply the enhancement. " err sent s)
       /\ (forall aspectRatio userPrompt size padded paddedFile,
           loadImage br image = inr size ->
           drawPadded br image (placementOf size.1 size.2 aspectRatio) = Some padded ->
           dataURLtoFile br padded (stamped br "padded-for-model" 0) = inr paddedFile ->
           tryFails (generateExpandedImage (service br) paddedFile userPrompt)
             (fun url => dataURLtoFile br url (stamped br "expanded-final" 1))
             sent err ->
           handleApplyExpansion br aspectRatio userPrompt s
           = failedWith "Failed to expand the image. " err sent s)
       /\ (forall aspectRatio userPrompt,
           loadImage br image = inl err
           \/ (exists size,
                 loadImage br image = inr size
                 /\ drawPadded br image (placementOf size.1 size.2 aspectRatio) = None
                 /\ err = Error "Could not create canvas context for model.")
           \/ (exists size padded,
                 loadImage br image = inr size
                 /\ drawPadded br image (placementOf size.1 size.2 aspectRatio)
                    = Some padded
                 /\ dataURLtoFile br padded (stamped br "padded-for-model" 0)
                    = inl err) ->
           handleApplyExpansion br aspectRatio userPrompt s
           = failedWith "Failed to expand the image. " err [] s)
       /\ (forall userPrompt foreground background,
           foregroundHotspot s = Some foreground ->
           backgroundHotspot s = Some background ->
           tryFails
             (generateHarmonizedImage (service br) image userPrompt
                foreground background)
             (fun url => dataURLtoFile br url (stamped br "harmonized" 0)) sent err ->
           handleApplyHarmonize br userPrompt s
           = failedWith "Failed to harmonize the image. " err sent s)
       /\ (forall sourceImage userPrompt hotspot,
           editHotspot s = Some hotspot ->
           tryFails
             (generateCombinedImage (service br) image sourceImage userPrompt hotspot)
             (fun url => dataURLtoFile br url (stamped br "combined" 0)) sent err ->
           handleApplyCombine br sourceImage userPrompt s
           = failedWith "Failed to combine images. " err sent s))
  /\ (forall env image part response err userPrompt,
       fileToPart env image = inr part ->
       (refusedAnswer env response "edit" err ->
        forall hotspot, exists request,
          generateEditedImage env image userPrompt hotspot = ([request], inl err))
       /\ (refusedAnswer env response "filter" err ->
           exists request,
             generateFilteredImage env image userPrompt = ([request], inl err))
       /\ (refusedAnswer env response "adjustment" err ->
           exists request,
             generateAdjustedImage env image userPrompt = ([request], inl err))
       /\ (refusedAnswer env response "reframe" err ->
           exists request,
             generateReframedImage env image userPrompt = ([request], inl err))
       /\ (refusedAnswer env response "zoom" err ->
           exists request,
             generateZoomedImage env image userPrompt = ([request], inl err))
       /\ (refusedAnswer env response "enhancement" err ->
           forall area, exists request,
             generateEnhancedImage env image userPrompt area = ([request], inl err))
       /\ (refusedAnswer env response "expansion" err ->
           exists request,
             generateExpandedImage env image userPrompt = ([request], inl err))
       /\ (refusedAnswer env response "harmonization" err ->
           forall foreground background, exists request,
             generateHarmonizedImage env image userPrompt foreground background
             = ([request], inl err))
       /\ (refusedAnswer env response "combination" err ->
           forall sourceImage sourcePart hotspot,
             fileToPart env sourceImage = inr sourcePart ->
             exists request,
               generateCombinedImage env image sourceImage userPrompt hotspot
               = ([request], inl err))).
Proof.
  split; [|split; [|split; [|split]]].
  - intros acts br op s s' Herr.
    assert (isLoading s = false) as Hidle by now apply isLoading_reachable.
    pose proof (edit_busy br op s Hidle) as Hidle'. fold s' in Hidle'.
    destruct (edit_outcome br op s) as [[_ Hsame]|(Hnone & _)].
    + fold s' in Hsame. unfold sameButErrorAndBusy in Hsame.
      rewrite Hidle' in Hsame. rewrite Hsame at 1.
      destruct s; simpl in *. now subst.
    + fold s' in Hnone. rewrite Hnone in Herr. now destruct Herr.
  - intros br op s s'.
    destruct (edit_outcome br op s) as [[Herr Hsame]|(Herr & _ & Hadd)].
    + left. destruct (sameButErrorAndBusy_history _ _ Hsame) as [Hh Hi].
      repeat split; try assumption. now apply currentImage_same.
    + right. now split.
  - intros failed err sent s. now destruct s.
  - intros br s image sent err Himg.
    split; [|split; [|split; [|split; [|split; [|split; [|split;
      [|split; [|split]]]]]]]].
    + intros hotspot Hprompt Hspot Hfails.
      rewrite (handleGenerate_attempt br s image hotspot) by assumption.
      now apply attempt_tryFails.
    + intros filterPrompt Hfails. unfold handleApplyFilter. rewrite Himg.
      now apply attempt_tryFails.
    + intros adjustmentPrompt Hfails. unfold handleApplyAdjustment. rewrite Himg.
      now apply attempt_tryFails.
    + intros cameraAnglePrompt Hfails. unfold handleApplyReframe. rewrite Himg.
      now apply attempt_tryFails.
    + intros zoomPrompt Hfails. unfold handleApplyZoom. rewrite Himg.
      now apply attempt_tryFails.
    + intros enhancementPrompt area Harea Hwidth Hfails.
      unfold handleApplyEnhancement. rewrite Himg, Harea, Hwidth.
      now apply attempt_tryFails.
    + intros aspectRatio userPrompt size padded paddedFile Hload Hdraw Hpadded
        Hfails.
      unfold handleApplyExpansion. rewrite Himg, Hload.
      unfold bind at 1, lift at 1. rewrite Hdraw.
      unfold bind at 1, lift at 1. rewrite Hpadded.
      destruct Hfails as [Hcall|(url & Hcall & Hdecode)]; rewrite Hcall;
        unfold bind, lift; [|rewrite Hdecode, app_nil_r]; apply attempt_failure.
    + intros aspectRatio userPrompt Hearly.
      unfold handleApplyExpansion. rewrite Himg.
      destruct Hearly as [Hload|[(size & Hload & Hdraw & ->)
                                |(size & padded & Hload & Hdraw & Hpadded)]];
        rewrite Hload; unfold bind at 1, lift at 1;
        [|rewrite Hdraw|rewrite Hdraw; unfold bind at 1, lift at 1; rewrite Hpadded];
        apply attempt_failure.
    + intros userPrompt foreground background Hfore Hback Hfails.
      unfold handleApplyHarmonize. rewrite Himg, Hfore, Hback.
      now apply attempt_tryFails.
    + intros sourceImage userPrompt hotspot Hspot Hfails.
      unfold handleApplyCombine. rewrite Himg, Hspot.
      now apply attempt_tryFails.
  - intros env image part response err userPrompt Hpart.
    repeat match goal with |- _ /\ _ => split end;
      intros Hrefused; intros;
      try (eexists; eapply generateWith_refused; eassumption).
    destruct Hrefused as (Hclient & Hanswer & Hrefused).
    match goal with H : fileToPart env sourceImage = _ |- _ => rename H into Hsource end.
    eexists. unfold generateCombinedImage, submit, bind, lift.
    now rewrite Hclient, Hpart, Hsource, Hanswer, Hrefused.
Qed.

(** A blocked request on the sample state: the error is reported and the
    history keeps its single version. *)
Lemma failed_edit_keeps_history_witness :
  currentImage sampleReady = Some (sampleFile "A")
  /\ trim (prompt sampleReady) <> EmptyString
  /\ editHotspot sampleReady = Some {| x := ofZ 10; y := ofZ 20 |}
  /\ (handleGenerate (sampleBrowser sampleBlockedWithImage) sampleReady).1
     = setIsLoading false
         (setError
            (Some ("Failed to generate the image. "
                   +:+ "Request was blocked by safety filters (Prompt). Reason: SAFETY. "
                   +:+ "Try using a less specific prompt or a broader focus."))
            sampleReady)
  /\ history (handleGenerate (sampleBrowser sampleBlockedWithImage) sampleReady).1
     = [sampleFile "A"].
Proof.
  split; [reflexivity|]. split; [discriminate|]. split; [reflexivity|].
  set (br := sampleBrowser sampleBlockedWithImage).
  set (hotspot := {| x := ofZ 10; y := ofZ 20 |}).
  set (call := generateEditedImage (service br) (sampleFile "A")
                 (prompt sampleReady) hotspot).
  set (err := Error ("Request was blocked by safety filters (Prompt). Reason: SAFETY. "
                     +:+ "Try using a less specific prompt or a broader focus.")).
  assert (call = (call.1, inl err)) as Hcall by (vm_compute; reflexivity).
  destruct failed_edit_keeps_history as (_ & _ & _ & Hhandlers & _).
  destruct (Hhandlers br sampleReady (sampleFile "A") call.1 err eq_refl)
    as (Hgenerate & _).
  pose proof (Hgenerate hotspot ltac:(discriminate) eq_refl (or_introl Hcall))
    as Hfailed.
  split; [exact (f_equal fst Hfailed)|].
  exact (f_equal (fun r => history r.1) Hfailed).
Defined.

End FailingEdits.

(* ===================================================================== *)
(** ** The guards of the edit handlers *)
(* ===================================================================== *)

Section Guards.

Implicit Types (s : AppState) (br : Browser) (op : EditOp).

(** C7, as the code has it.  Without a current image each of the nine
    handlers sets its no-image message.  With one: the retouch handler sets
    a message when the instruction is blank and, the instruction present,
    when no point is selected; the harmonize handler when the foreground or
    the background point is absent; the enhancement handler when the area is
    absent or has width 0; the combine handler when no point is selected.
    In each case nothing is submitted and only the error message changes.
    Without a second source image the button of the combine panel does
    nothing: no message and no request. *)
Theorem edit_guards br s :
  (currentImage s = None ->
     forall op, edit br op s = (setError (Some (noImageLoaded op)) s, []))
  /\ (is_Some (currentImage s) ->
      (trim (prompt s) = EmptyString ->
         handleGenerate br s
         = (setError (Some "Please enter a description for your edit.") s, []))
      /\ (trim (prompt s) <> EmptyString -> editHotspot s = None ->
          handleGenerate br s
          = (setError (Some "Please click on the image to select an area to edit.") s,
             []))
      /\ (foregroundHotspot s = None \/ backgroundHotspot s = None ->
          forall userPrompt,
            handleApplyHarmonize br userPrompt s
            = (setError
                 (Some "Please select a foreground object and a background point.") s,
               []))
      /\ (noEnhanceArea s ->
          forall enhancementPrompt,
            handleApplyEnhancement br enhancementPrompt s
            = (setError (Some "Please select an area on the image to enhance.") s, []))
      /\ (editHotspot s = None ->
          forall sourceImage userPrompt,
            handleApplyCombine br sourceImage userPrompt s
            = (setError (Some "Please select a location on the destination image.") s,
               [])))
  /\ (forall userPrompt, CombinePanel.onClick br None userPrompt s = (s, [])).
Proof.
  split; [|split].
  - intros Hnone op.
    destruct op; simpl;
      [ unfold handleGenerate | unfold handleApplyFilter
      | unfold handleApplyAdjustment | unfold handleApplyReframe
      | unfold handleApplyZoom | unfold handleApplyEnhancement
      | unfold handleApplyExpansion | unfold handleApplyHarmonize
      | unfold handleApplyCombine ];
      now rewrite Hnone.
  - intros [image Himg]. repeat split.
    + intros Hblank. unfold handleGenerate. now rewrite Himg, Hblank.
    + intros Htext Hspot. unfold handleGenerate.
      apply truthy_spec in Htext. now rewrite Himg, Htext, Hspot.
    + intros Hpoints userPrompt. unfold handleApplyHarmonize. rewrite Himg.
      destruct Hpoints as [-> | ->]; [reflexivity|].
      now destruct (foregroundHotspot s).
    + intros Harea enhancementPrompt. unfold handleApplyEnhancement. rewrite Himg.
      destruct Harea as [-> | (area & -> & ->)]; reflexivity.
    + intros Hspot sourceImage userPrompt. unfold handleApplyCombine.
      now rewrite Himg, Hspot.
  - reflexivity.
Qed.

(** The guards on the sample state after its point is cleared. *)
Lemma edit_guards_witness :
  is_Some (currentImage (setEditHotspot None sampleReady))
  /\ (handleGenerate (sampleBrowser sampleImageResponse)
        (setEditHotspot None sampleReady)).2 = []
  /\ error (handleGenerate (sampleBrowser sampleImageResponse)
              (setEditHotspot None sampleReady)).1
     = Some "Please click on the image to select an area to edit.".
Proof.
  assert (is_Some (currentImage (setEditHotspot None sampleReady))) as Himg
    by now eexists.
  split; [exact Himg|].
  destruct (edit_guards (sampleBrowser sampleImageResponse)
              (setEditHotspot None sampleReady)) as (_ & Hguards & _).
  destruct (Hguards Himg) as (_ & Hpoint & _).
  rewrite (Hpoint ltac:(discriminate) eq_refl). split; reflexivity.
Defined.

(** C7 as stated fails for the combine operation.  Without a second source
    image the operation ends with no error message at all; and with a blank
    instruction, which the panel counts as missing when it disables its
    button, the handler submits a request and appends the answer. *)
Lemma edit_guards_counterexample :
  error (CombinePanel.onClick (sampleBrowser sampleImageResponse) None
           "add the person" sampleReady).1 = None
  /\ length (handleApplyCombine (sampleBrowser sampleImageResponse)
               (sampleFile "S") EmptyString sampleReady).2 = 1%nat
  /\ error (handleApplyCombine (sampleBrowser sampleImageResponse)
              (sampleFile "S") EmptyString sampleReady).1 = None
  /\ length (history (handleApplyCombine (sampleBrowser sampleImageResponse)
                        (sampleFile "S") EmptyString sampleReady).1) = 2%nat.
Proof. repeat split. Qed.

(** C10.  When the completed enhance area is absent or has width 0, the
    enhancement handler submits nothing and only sets an error message, the
    same in both cases: with an image loaded it is the message that asks for
    an area. *)
Theorem enhancement_rejects_empty_area br enhancementPrompt s :
  noEnhanceArea s ->
  exists message,
    handleApplyEnhancement br enhancementPrompt s = (setError (Some message) s, [])
    /\ handleApplyEnhancement br enhancementPrompt (setCompletedEnhanceCrop None s)
       = (setError (Some message) (setCompletedEnhanceCrop None s), [])
    /\ (is_Some (currentImage s) ->
        message = "Please select an area on the image to enhance.").
Proof.
  intros Harea. unfold handleApplyEnhancement.
  change (currentImage (setCompletedEnhanceCrop None s)) with (currentImage s).
  destruct (currentImage s) as [image|].
  - exists "Please select an area on the image to enhance.".
    destruct Harea as [-> | (area & -> & ->)]; now repeat split.
  - eexists. split; [reflexivity|]. split; [reflexivity|].
    now intros [? ?].
Qed.

(** A rectangle of width 0 on the sample state. *)
Lemma enhancement_rejects_empty_area_witness :
  let zeroWide :=
    setCompletedEnhanceCrop
      (Some {| cropX := ofZ 5; cropY := ofZ 5; width := ofZ 0; height := ofZ 40;
               unit := px |})
      sampleReady in
  noEnhanceArea zeroWide
  /\ handleApplyEnhancement (sampleBrowser sampleImageResponse) "sharpen" zeroWide
     = (setError (Some "Please select an area on the image to enhance.") zeroWide, []).
Proof.
  intros zeroWide.
  assert (noEnhanceArea zeroWide) as Harea by (right; now eexists).
  split; [exact Harea|].
  destruct (enhancement_rejects_empty_area (sampleBrowser sampleImageResponse)
              "sharpen" zeroWide Harea) as (message & Hrun & _ & Hmessage).
  rewrite Hrun, (Hmessage ltac:(now eexists)). reflexivity.
Defined.

End Guards.

(* ===================================================================== *)
(** ** Decoding data URLs *)
(* ===================================================================== *)

Section DataUrls.

Implicit Types (t prefix payload dataUrl : string) (c sep : ascii).

Lemma append_cons c t t' : String c t +:+ t' = String c (t +:+ t').
Proof. reflexivity. Qed.

Lemma split_nonempty sep t : exists w ws, split sep t = w :: ws.
Proof.
  destruct t as [|c t]; simpl; [now eexists _, _|].
  destruct (Ascii.eqb c sep); [now eexists _, _|].
  destruct (split sep t); now eexists _, _.
Qed.

(** Without a separator the whole text is the only piece. *)
Lemma split_without sep t : contains sep t = false -> split sep t = [t].
Proof.
  induction t as [|c t IH]; simpl; [reflexivity|].
  intros H. apply orb_false_elim in H as [Hc Ht].
  now rewrite Hc, (IH Ht).
Qed.

(** The text before the first separator is the first piece, and at least
    one piece follows it. *)
Lemma split_at_first sep prefix payload :
  contains sep prefix = false ->
  exists second rest,
    split sep (prefix +:+ String sep payload) = prefix :: second :: rest.
Proof.
  induction prefix as [|c prefix IH]; intros H.
  - change (EmptyString +:+ String sep payload) with (String sep payload).
    simpl. rewrite Ascii.eqb_refl.
    destruct (split_nonempty sep payload) as (w & ws & ->). now eexists _, _.
  - simpl in H. apply orb_false_elim in H as [Hc Hp].
    destruct (IH Hp) as (second & rest & Hsplit).
    rewrite append_cons. simpl. rewrite Hc, Hsplit. now eexists _, _.
Qed.

Lemma lazyUpToSemicolon_without t :
  contains ";"%char t = false -> lazyUpToSemicolon t = None.
Proof.
  induction t as [|c t IH]; simpl; [reflexivity|].
  intros H. apply orb_false_elim in H as [Hc Ht].
  rewrite Hc, (IH Ht). now destruct (isLineTerminator c).
Qed.

Lemma matchMime_without_semicolon t :
  contains ";"%char t = false -> matchMime t = None.
Proof.
  induction t as [|c t IH]; simpl; [reflexivity|].
  intros H. apply orb_false_elim in H as [Hc Ht].
  rewrite (lazyUpToSemicolon_without t Ht), (IH Ht).
  now destruct (Ascii.eqb c ":"%char).
Qed.

Lemma matchMime_without_colon t :
  contains ":"%char t = false -> matchMime t = None.
Proof.
  induction t as [|c t IH]; simpl; [reflexivity|].
  intros H. apply orb_false_elim in H as [Hc Ht].
  now rewrite Hc, (IH Ht).
Qed.

Lemma parseDataUrl_without_comma dataUrl :
  contains ","%char dataUrl = false ->
  parseDataUrl dataUrl = inl (Error "Invalid data URL").
Proof.
  intros H. unfold parseDataUrl. now rewrite (split_without _ _ H).
Qed.

Lemma parseDataUrl_bad_prefix prefix payload :
  contains ","%char prefix = false ->
  matchMime prefix = None \/ matchMime prefix = Some EmptyString ->
  parseDataUrl (prefix +:+ String ","%char payload)
  = inl (Error "Could not parse MIME type from data URL").
Proof.
  intros Hcomma Hmime. unfold parseDataUrl.
  destruct (split_at_first _ prefix payload Hcomma) as (second & rest & ->).
  now destruct Hmime as [-> | ->].
Qed.

(** Both decoding routines answer a malformed data URL with a thrown
    [Error] that carries a message of its own, and with nothing else.  A
    text without a comma gives the invalid-data-URL error.  A text whose
    part before the first comma does not match the MIME pattern, or matches
    it with an empty type, gives the MIME error; this covers every prefix
    without a colon and every prefix without a semicolon.  In the retouch
    handler the error thrown on the data URL of the response is caught and
    becomes the error message, the history being unchanged. *)
Theorem malformed_data_url (br : Browser) (env : Env) (file : File)
    (filename dataUrl : string) :
  (contains ","%char dataUrl = false ->
     dataURLtoFile br dataUrl filename = inl (Error "Invalid data URL")
     /\ (readAsDataURL env file = inr dataUrl ->
         fileToPart env file = inl (Error "Invalid data URL")))
  /\ (forall prefix payload,
        dataUrl = prefix +:+ String ","%char payload ->
        contains ","%char prefix = false ->
        contains ":"%char prefix = false \/ contains ";"%char prefix = false
        \/ matchMime prefix = None \/ matchMime prefix = Some EmptyString ->
        dataURLtoFile br dataUrl filename
        = inl (Error "Could not parse MIME type from data URL")
        /\ (readAsDataURL env file = inr dataUrl ->
            fileToPart env file
            = inl (Error "Could not parse MIME type from data URL")))
  /\ (forall s image hotspot sent message,
        currentImage s = Some image -> trim (prompt s) <> EmptyString ->
        editHotspot s = Some hotspot ->
        generateEditedImage (service br) image (prompt s) hotspot
        = (sent, inr dataUrl) ->
        dataURLtoFile br dataUrl (stamped br "edited" 0) = inl (Error message) ->
        handleGenerate br s
        = (setIsLoading false
             (setError (Some ("Failed to generate the image. " +:+ message)) s),
           sent)).
Proof.
  split; [|split].
  - intros Hcomma. pose proof (parseDataUrl_without_comma _ Hcomma) as Hparse.
    split.
    + unfold dataURLtoFile. now rewrite Hparse.
    + intros Hread. unfold fileToPart. now rewrite Hread, Hparse.
  - intros prefix payload -> Hcomma Hbad.
    assert (matchMime prefix = None \/ matchMime prefix = Some EmptyString) as Hmime.
    { destruct Hbad as [H|[H|[H|H]]];
        auto using matchMime_without_colon, matchMime_without_semicolon. }
    pose proof (parseDataUrl_bad_prefix prefix payload Hcomma Hmime) as Hparse.
    split.
    + unfold dataURLtoFile. now rewrite Hparse.
    + intros Hread. unfold fileToPart. now rewrite Hread, Hparse.
  - intros s image hotspot sent message Himg Hprompt Hspot Hurl Hdecode.
    rewrite (handleGenerate_attempt br s image hotspot) by assumption.
    rewrite Hurl. unfold bind, lift. rewrite Hdecode, app_nil_r. reflexivity.
Qed.

(** A text without a comma, decoded in the sample browser; and a response
    whose image has an empty MIME type, met by the retouch handler. *)
Lemma malformed_data_url_witness :
  contains ","%char "data:image/png;base64" = false
  /\ dataURLtoFile (sampleBrowser sampleImageResponse) "data:image/png;base64"
       "edited-0.png"
     = inl (Error "Invalid data URL")
  /\ (handleGenerate (sampleBrowser sampleEmptyMimeResponse) sampleReady).1
     = setIsLoading false
         (setError
            (Some ("Failed to generate the image. "
                   +:+ "Could not parse MIME type from data URL"))
            sampleReady).
Proof.
  split; [reflexivity|]. split.
  - exact (proj1 (proj1 (malformed_data_url (sampleBrowser sampleImageResponse)
                           (service (sampleBrowser sampleImageResponse))
                           (sampleFile "A") "edited-0.png" "data:image/png;base64")
                    eq_refl)).
  - destruct (malformed_data_url (sampleBrowser sampleEmptyMimeResponse)
                (service (sampleBrowser sampleEmptyMimeResponse))
                (sampleFile "A") "edited-0.png" "data:;base64,AAAA")
      as (_ & _ & Hreported).
    set (hotspot := {| x := ofZ 10; y := ofZ 20 |}).
    set (sent := (generateEditedImage
                    (service (sampleBrowser sampleEmptyMimeResponse))
                    (sampleFile "A") (prompt sampleReady) hotspot).1).
    assert (generateEditedImage (service (sampleBrowser sampleEmptyMimeResponse))
              (sampleFile "A") (prompt sampleReady) hotspot
            = (sent, inr "data:;base64,AAAA")) as Hanswer
      by (vm_compute; reflexivity).
    exact (f_equal fst
             (Hreported sampleReady (sampleFile "A") hotspot sent
                "Could not parse MIME type from data URL"
                eq_refl ltac:(discriminate) eq_refl Hanswer eq_refl)).
Defined.

(** C8.  Decoding a malformed data URL throws an [Error] with a message of
    its own: the invalid-data-URL error for a text without a comma, the
    MIME error for a text whose part before the first comma carries no MIME
    type.  The retouch handler decodes inside its [try] block, so that the
    error is caught and reported as the error message, the history being
    unchanged.  The crop handler decodes the data URL of its canvas outside
    any [try] block: with a completed crop, an image element and a canvas
    context, whatever the decoding throws escapes the handler, which
    produces no state and so sets no error message.  A completed crop of no
    extent gives a canvas without pixels, whose data URL is [data:,]: the
    crop handler then lets the MIME error escape, and from a canvas with
    pixels it appends the cropped file. *)
Theorem crop_lets_decode_error_escape :
  (forall (br : Browser) dataUrl filename,
     contains ","%char dataUrl = false ->
     dataURLtoFile br dataUrl filename = inl (Error "Invalid data URL"))
  /\ (forall (br : Browser) prefix payload filename,
        contains ","%char prefix = false ->
        matchMime prefix = None \/ matchMime prefix = Some EmptyString ->
        dataURLtoFile br (prefix +:+ String ","%char payload) filename
        = inl (Error "Could not parse MIME type from data URL"))
  /\ (forall (br : Browser) s image hotspot sent dataUrl err,
        currentImage s = Some image -> trim (prompt s) <> EmptyString ->
        editHotspot s = Some hotspot ->
        generateEditedImage (service br) image (prompt s) hotspot
        = (sent, inr dataUrl) ->
        dataURLtoFile br dataUrl (stamped br "edited" 0) = inl err ->
        handleGenerate br s
        = failedWith "Failed to generate the image. " err sent s)
  /\ (forall (br : Browser) (pg : LocalCrop.Page) s crop image err,
        completedCrop s = Some crop -> LocalCrop.imgRef pg = Some image ->
        LocalCrop.hasContext pg = true ->
        dataURLtoFile br
          (LocalCrop.toDataURL pg image (LocalCrop.drawingOf pg image crop))
          (stamped br "cropped" 0)
        = inl err ->
        LocalCrop.handleApplyCrop br pg s = inl err)
  /\ LocalCrop.handleApplyCrop (sampleBrowser sampleImageResponse)
       Properties.sampleCanvasPage Properties.sampleEmptyCrop
     = inl (Error "Could not parse MIME type from data URL")
  /\ LocalCrop.handleApplyCrop (sampleBrowser sampleImageResponse)
       Properties.sampleCanvasPage Properties.sampleCropped
     = inr (addImageToHistory
              {| fileName := "cropped-0.png"; fileType := "image/png";
                 fileBytes := list_ascii_of_string "AAAA" |}
              Properties.sampleCropped).
Proof.
  split; [|split; [|split; [|split; [|split; reflexivity]]]].
  - intros br dataUrl filename Hcomma. unfold dataURLtoFile.
    now rewrite (parseDataUrl_without_comma _ Hcomma).
  - intros br prefix payload filename Hcomma Hmime. unfold dataURLtoFile.
    now rewrite (parseDataUrl_bad_prefix prefix payload Hcomma Hmime).
  - intros br s image hotspot sent dataUrl err Himg Hprompt Hspot Hurl Hdecode.
    rewrite (handleGenerate_attempt br s image hotspot) by assumption.
    apply attempt_tryFails. right. now exists dataUrl.
  - intros br pg s crop image err Hcrop Himage Hcontext Hdecode.
    unfold LocalCrop.handleApplyCrop.
    now rewrite Hcrop, Himage, Hcontext, Hdecode.
Qed.

(** The crop of no extent on the sample page: the MIME error escapes. *)
Lemma crop_lets_decode_error_escape_witness :
  completedCrop Properties.sampleEmptyCrop
  = Some {| cropX := ofZ 200; cropY := ofZ 100; width := ofZ 0; height := ofZ 0;
            unit := px |}
  /\ LocalCrop.hasContext Properties.sampleCanvasPage = true
  /\ contains ","%char "data:" = false
  /\ matchMime "data:" = None
  /\ dataURLtoFile (sampleBrowser sampleImageResponse) "data:," "cropped-0.png"
     = inl (Error "Could not parse MIME type from data URL")
  /\ LocalCrop.handleApplyCrop (sampleBrowser sampleImageResponse)
       Properties.sampleCanvasPage Properties.sampleEmptyCrop
     = inl (Error "Could not parse MIME type from data URL").
Proof.
  destruct crop_lets_decode_error_escape as (_ & Hmime & _ & Hescapes & _).
  pose proof (Hmime (sampleBrowser sampleImageResponse) "data:" EmptyString
                "cropped-0.png" eq_refl (or_introl eq_refl)) as Hdecode.
  split; [reflexivity|]. split; [reflexivity|]. split; [reflexivity|].
  split; [reflexivity|]. split; [exact Hdecode|].
  exact (Hescapes (sampleBrowser sampleImageResponse) Properties.sampleCanvasPage
           Properties.sampleEmptyCrop _ _ _ eq_refl eq_refl eq_refl Hdecode).
Defined.

End DataUrls.

(* ===================================================================== *)
(** ** Clicks in the integrate tab *)
(* ===================================================================== *)

Section IntegrateClicks.

Implicit Types (s : AppState) (e : Click).

Lemma click_integrate e s :
  activeTab s = TabIntegrate ->
  let s' := handleImageClick e s in
  activeTab s' = TabIntegrate
  /\ (foregroundHotspot s = None
      \/ (is_Some (foregroundHotspot s) /\ is_Some (backgroundHotspot s)) ->
      foregroundHotspot s' = Some (originalOf e) /\ backgroundHotspot s' = None)
  /\ (is_Some (foregroundHotspot s) -> backgroundHotspot s = None ->
      foregroundHotspot s' = foregroundHotspot s
      /\ backgroundHotspot s' = Some (originalOf e))
  /\ (is_Some (backgroundHotspot s') -> is_Some (foregroundHotspot s))
  /\ backgroundNeedsForeground s'.
Proof.
  intros Htab. unfold handleImageClick, backgroundNeedsForeground. rewrite Htab.
  destruct (foregroundHotspot s) as [fg|] eqn:Hfg;
    destruct (backgroundHotspot s) as [bg|] eqn:Hbg; simpl;
    rewrite ?Htab, ?Hfg, ?Hbg;
    repeat split; intros;
    repeat match goal with
      | H : _ \/ _ |- _ => destruct H
      | H : _ /\ _ |- _ => destruct H
      | H : is_Some None |- _ => destruct H as [? H]; discriminate H
      | H : Some _ = None |- _ => discriminate H
      | H : None = Some _ |- _ => discriminate H
      end;
    eauto.
Qed.

(** C9.  In the integrate tab a click sets the clicked point as the
    foreground point and clears the background point when no foreground
    point is set or when both points are set; it sets the clicked point as
    the background point when only the foreground point is set, and this is
    the only way a background point appears.  After every click of every
    sequence of clicks a background point is there only with a foreground
    point. *)
Theorem integrate_clicks :
  (forall e s, activeTab s = TabIntegrate ->
     let s' := handleImageClick e s in
     (foregroundHotspot s = None
      \/ (is_Some (foregroundHotspot s) /\ is_Some (backgroundHotspot s)) ->
      foregroundHotspot s' = Some (originalOf e) /\ backgroundHotspot s' = None)
     /\ (is_Some (foregroundHotspot s) -> backgroundHotspot s = None ->
         foregroundHotspot s' = foregroundHotspot s
         /\ backgroundHotspot s' = Some (originalOf e))
     /\ (is_Some (backgroundHotspot s') -> is_Some (foregroundHotspot s))
     /\ backgroundNeedsForeground s')
  /\ (forall clicks s, activeTab s = TabIntegrate ->
        Forall backgroundNeedsForeground (clickTrace clicks s)).
Proof.
  split.
  - intros e s Htab. apply (click_integrate e s Htab).
  - intros clicks. induction clicks as [|e clicks IH]; intros s Htab; simpl.
    + constructor.
    + destruct (click_integrate e s Htab) as (Htab' & _ & _ & _ & Hinv).
      constructor; [exact Hinv|]. apply IH, Htab'.
Qed.

(** Three clicks on the sample state: foreground, background, and again a
    foreground with the background cleared. *)
Lemma integrate_clicks_witness :
  activeTab sampleIntegrate = TabIntegrate
  /\ Forall backgroundNeedsForeground
       (clickTrace [sampleClick; sampleClick; sampleClick] sampleIntegrate)
  /\ map (fun st => (bool_decide (is_Some (foregroundHotspot st)),
                     bool_decide (is_Some (backgroundHotspot st))))
       (clickTrace [sampleClick; sampleClick; sampleClick] sampleIntegrate)
     = [(true, false); (true, true); (true, false)].
Proof.
  split; [reflexivity|]. split; [|reflexivity].
  exact (proj2 integrate_clicks [sampleClick; sampleClick; sampleClick]
           sampleIntegrate eq_refl).
Defined.

End IntegrateClicks.

(* ===================================================================== *)
(** ** Further properties of the history store *)
(* ===================================================================== *)

Import Properties.

Section HistoryAlgebra.

Implicit Types (s : AppState) (f : File) (a : Action).

(** X1.  On a well-formed history an undo followed by a redo, and a redo
    followed by an undo, give back the state with its points cleared. *)
Theorem undo_redo_round_trip s :
  cursorOk s ->
  (canUndo s = true -> handleRedo (handleUndo s) = clearInteractionPoints s)
  /\ (canRedo s = true -> handleUndo (handleRedo s) = clearInteractionPoints s).
Proof.
  intros Hok.
  assert (canRedo s = true -> 0 <= historyIndex s) as Hnonneg.
  { unfold canRedo, cursorOk in *. intros Hcan. apply Z.ltb_lt in Hcan.
    destruct (history s); simpl in *; lia. }
  apply cursorOk_bounds in Hok. split; intros Hcan.
  - unfold handleUndo. rewrite Hcan. unfold canUndo in Hcan.
    apply Z.ltb_lt in Hcan. unfold handleRedo, canRedo. simpl.
    destruct (Z.ltb_spec (historyIndex s - 1) (Z.of_nat (length (history s)) - 1));
      [|lia].
    replace (historyIndex s - 1 + 1) with (historyIndex s) by lia.
    now destruct s.
  - specialize (Hnonneg Hcan). unfold handleRedo. rewrite Hcan.
    unfold handleUndo, canUndo. simpl.
    destruct (Z.ltb_spec 0 (historyIndex s + 1)); [|lia].
    replace (historyIndex s + 1 - 1) with (historyIndex s) by lia.
    now destruct s.
Qed.

(** The round trip on the history [[A; B; C]] at cursor 2. *)
Lemma undo_redo_round_trip_witness :
  cursorOk sampleABC /\ canUndo sampleABC = true
  /\ handleRedo (handleUndo sampleABC) = clearInteractionPoints sampleABC.
Proof.
  assert (cursorOk sampleABC) as Hok by (unfold cursorOk; simpl; lia).
  split; [exact Hok|]. split; [reflexivity|].
  exact (proj1 (undo_redo_round_trip sampleABC Hok) eq_refl).
Defined.

Lemma undo_steps s (k : nat) :
  0 <= historyIndex s ->
  let t := Nat.iter k handleUndo s in
  history t = history s /\ historyIndex t = Z.max 0 (historyIndex s - Z.of_nat k).
Proof.
  intros Hi. induction k as [|k [Hh Hk]]; simpl.
  - split; [reflexivity|lia].
  - set (t := Nat.iter k handleUndo s) in *.
    unfold handleUndo, canUndo. destruct (Z.ltb_spec 0 (historyIndex t)); simpl.
    + split; [exact Hh|lia].
    + split; [exact Hh|lia].
Qed.

Lemma redo_run s (k : nat) :
  historyIndex s <= Z.of_nat (length (history s)) - 1 ->
  let t := Nat.iter k handleRedo s in
  history t = history s
  /\ historyIndex t
     = Z.min (Z.of_nat (length (history s)) - 1) (historyIndex s + Z.of_nat k).
Proof.
  intros Hi. induction k as [|k [Hh Hk]]; simpl.
  - split; [reflexivity|lia].
  - set (t := Nat.iter k handleRedo s) in *.
    unfold handleRedo, canRedo. rewrite Hh.
    destruct (Z.ltb_spec (historyIndex t) (Z.of_nat (length (history s)) - 1));
      simpl.
    + split; [exact Hh|lia].
    + split; [exact Hh|lia].
Qed.

(** X2.  On a well-formed, non-empty history the cursor saturates: [k]
    undos move it down by [k] but not below 0, [k] redos move it up by [k]
    but not above the last index, and neither changes the history; as many
    undos as the cursor's value reach the same cursor as a reset. *)
Theorem navigation_saturates s (k : nat) :
  cursorOk s -> history s <> [] ->
  history (Nat.iter k handleUndo s) = history s
  /\ historyIndex (Nat.iter k handleUndo s)
     = Z.max 0 (historyIndex s - Z.of_nat k)
  /\ history (Nat.iter k handleRedo s) = history s
  /\ historyIndex (Nat.iter k handleRedo s)
     = Z.min (Z.of_nat (length (history s)) - 1) (historyIndex s + Z.of_nat k)
  /\ (historyIndex s <= Z.of_nat k ->
      historyIndex (Nat.iter k handleUndo s) = historyIndex (handleReset s)).
Proof.
  intros Hok Hne.
  assert (0 <= historyIndex s <= Z.of_nat (length (history s)) - 1) as Hb.
  { revert Hok Hne. unfold cursorOk. destruct (history s); simpl; [easy|lia]. }
  destruct (undo_steps s k) as [Hu1 Hu2]; [lia|].
  destruct (redo_run s k) as [Hr1 Hr2]; [lia|].
  repeat split; try assumption.
  intros Hk. rewrite Hu2. unfold handleReset.
  destruct (Z.ltb_spec 0 (Z.of_nat (length (history s)))); simpl; lia.
Qed.

(** Five undos and five redos on the history [[A; B; C]] at cursor 2. *)
Lemma navigation_saturates_witness :
  cursorOk sampleABC /\ history sampleABC <> []
  /\ historyIndex (Nat.iter 5 handleUndo sampleABC) = 0
  /\ historyIndex (Nat.iter 5 handleRedo (Nat.iter 5 handleUndo sampleABC)) = 2.
Proof.
  assert (cursorOk sampleABC) as Hok by (unfold cursorOk; simpl; lia).
  split; [exact Hok|]. split; [discriminate|].
  destruct (navigation_saturates sampleABC 5 Hok ltac:(discriminate))
    as (_ & Hundo & _).
  split; [exact Hundo|reflexivity].
Defined.

Lemma originalImage_same s s' :
  history s' = history s -> originalImage s' = originalImage s.
Proof. unfold originalImage. now intros ->. Qed.

Lemma originalImage_add f s :
  cursorOk s -> history s <> [] ->
  originalImage (addImageToHistory f s) = originalImage s.
Proof.
  intros Hok Hne. unfold originalImage. rewrite history_add.
  assert (0 <= historyIndex s) as Hi.
  { revert Hok Hne. unfold cursorOk. destruct (history s); simpl; [easy|lia]. }
  rewrite slice0_nonneg by lia.
  replace (Z.to_nat (historyIndex s + 1)) with (S (Z.to_nat (historyIndex s)))
    by lia.
  destruct (history s); [easy|reflexivity].
Qed.

(** X3.  Once an image is loaded, the original image, the first version of
    the history, is the same after every action but an upload and a new
    upload: appends, undos, redos, resets, edits, clicks and tab switches
    keep it. *)
Theorem original_image_kept a s :
  cursorOk s -> history s <> [] -> isUpload a = false ->
  originalImage (perform a s) = originalImage s.
Proof.
  intros Hok Hne Ha. destruct a; try discriminate; simpl;
    try reflexivity.
  - now apply originalImage_add.
  - apply originalImage_same. unfold handleUndo. now destruct (canUndo s).
  - apply originalImage_same. unfold handleRedo. now destruct (canRedo s).
  - apply originalImage_same. unfold handleReset. now destruct (_ <? _).
  - apply originalImage_same. unfold handleImageClick.
    repeat match goal with
      | |- context [match ?x with _ => _ end] => destruct x
      end; reflexivity.
  - destruct (edit_outcome br op s) as [[_ Hsame]|(_ & _ & f & Hh & _)].
    + apply originalImage_same. now apply sameButErrorAndBusy_history in Hsame.
    + rewrite (originalImage_same _ _ Hh). now apply originalImage_add.
Qed.

(** An append after an undo on [[A; B; C]] keeps [A] as the original. *)
Lemma original_image_kept_witness :
  cursorOk (handleUndo sampleABC) /\ history (handleUndo sampleABC) <> []
  /\ originalImage (perform (Append (sampleFile "D")) (handleUndo sampleABC))
     = Some (sampleFile "A").
Proof.
  assert (cursorOk (handleUndo sampleABC)) as Hok by (unfold cursorOk; simpl; lia).
  split; [exact Hok|]. split; [discriminate|].
  rewrite (original_image_kept (Append (sampleFile "D")) (handleUndo sampleABC)
             Hok ltac:(discriminate) eq_refl).
  reflexivity.
Defined.

Lemma currentImage_kept s s' :
  history s' = history s -> historyIndex s' = historyIndex s ->
  currentImage s' = currentImage s.
Proof. unfold currentImage. now intros -> ->. Qed.

(** X4.  Whenever an action changes the current image, no point and no
    enhance area selected on the image before survives it. *)
Theorem image_change_clears_points a s :
  currentImage (perform a s) <> currentImage s -> pointsCleared (perform a s).
Proof.
  intros Hchange. destruct a; simpl in *;
    try (exfalso; apply Hchange; reflexivity);
    try (unfold pointsCleared; now repeat split).
  - revert Hchange. unfold handleUndo. destruct (canUndo s); [|easy].
    intros _. unfold pointsCleared. now repeat split.
  - revert Hchange. unfold handleRedo. destruct (canRedo s); [|easy].
    intros _. unfold pointsCleared. now repeat split.
  - revert Hchange. unfold handleReset. destruct (_ <? _); [|easy].
    intros _. unfold pointsCleared. now repeat split.
  - exfalso. apply Hchange. apply currentImage_kept; unfold handleImageClick;
      repeat match goal with
        | |- context [match ?x with _ => _ end] => destruct x
        end; reflexivity.
  - destruct (edit_shape br op s) as [[m E]|(failed & [sent [err|f]] & E)];
      rewrite E in *; simpl in *.
    + exfalso. now apply Hchange.
    + exfalso. now apply Hchange.
    + unfold pointsCleared. now repeat split.
Qed.

(** An undo on the sample history with a point selected. *)
Lemma image_change_clears_points_witness :
  let before := setEditHotspot (Some {| x := ofZ 1; y := ofZ 2 |}) sampleABC in
  currentImage (perform Undo before) <> currentImage before
  /\ editHotspot (perform Undo before) = None.
Proof.
  intros before.
  assert (currentImage (perform Undo before) <> currentImage before) as Hchange
    by discriminate.
  split; [exact Hchange|].
  exact (proj1 (image_change_clears_points Undo before Hchange)).
Defined.

End HistoryAlgebra.

(* ===================================================================== *)
(** ** What the edits submit *)
(* ===================================================================== *)

Section Dispatch.

Implicit Types (s : AppState) (br : Browser) (op : EditOp) (env : Env).

Lemma prefix_append (a b : string) : String.prefix a (a +:+ b) = true.
Proof.
  induction a as [|c a IH]; [now destruct b|].
  change (String c a +:+ b) with (String c (a +:+ b)). simpl.
  destruct (Ascii.ascii_dec c c); [exact IH|easy].
Qed.

Lemma bind_lift_sent {A B} (m : Async A) (k : A -> Result B) :
  (bind m (fun a => lift (k a))).1 = m.1.
Proof. destruct m as [sent [e|a]]; simpl; [reflexivity|apply app_nil_r]. Qed.

Lemma lift_bind_sent {A B} (r : Result A) (k : A -> Async B) :
  (bind (lift r) k).1 = match r with inl _ => [] | inr a => (k a).1 end.
Proof.
  destruct r as [e|a]; [reflexivity|]. unfold bind, lift. now destruct (k a).
Qed.

Lemma attempt_sent failed (work : Async File) s :
  (attempt failed work s).2 = work.1.
Proof. now destruct work as [sent [e|f]]. Qed.

Lemma generateWith_requests env image prompt context :
  (generateWith env image prompt context).1
  = match newGoogleGenAI env, fileToPart env image with
    | inr _, inr part => [ {| model := MODEL; contents := [part; TextPart prompt] |} ]
    | _, _ => []
    end.
Proof.
  unfold generateWith, bind, lift, submit.
  destruct (newGoogleGenAI env) as [e|ai]; [reflexivity|].
  destruct (fileToPart env image) as [e|part]; [reflexivity|].
  destruct (generateContent env _) as [e|response]; reflexivity.
Qed.

Lemma generateWith_sent env image prompt context :
  String.prefix CLINICAL_CONTEXT prompt = true ->
  sentBy env (generateWith env image prompt context).1.
Proof.
  intros Hprefix. rewrite generateWith_requests.
  destruct (newGoogleGenAI env) as [e|ai]; [now left|].
  destruct (fileToPart env image) as [e|part] eqn:Hpart; [now left|].
  right. exists [part], prompt.
  split; [constructor; [now exists image|constructor]|].
  split; [simpl; lia|]. split; [exact Hprefix|reflexivity].
Qed.

Lemma generateCombinedImage_sent env destination source userPrompt point :
  sentBy env (generateCombinedImage env destination source userPrompt point).1.
Proof.
  unfold generateCombinedImage, bind, lift, submit.
  destruct (newGoogleGenAI env) as [e|ai]; [now left|].
  destruct (fileToPart env destination) as [e|part1] eqn:H1; [now left|].
  destruct (fileToPart env source) as [e|part2] eqn:H2; [now left|].
  right. eexists [part1; part2], _.
  split; [repeat constructor; [now exists destination|now exists source]|].
  split; [simpl; lia|]. split; [apply prefix_append|].
  destruct (generateContent env _) as [e|response]; reflexivity.
Qed.

Ltac sent_by_generateWith :=
  rewrite attempt_sent, bind_lift_sent;
  apply generateWith_sent, prefix_append.

(** What an edit submits, for each of the nine handlers. *)
Lemma edit_sent br op s : sentBy (service br) (edit br op s).2.
Proof.
  destruct op; simpl.
  - unfold handleGenerate, generateEditedImage.
    repeat match goal with
      | |- context [match ?x with _ => _ end] => destruct x
      end; try (now left). sent_by_generateWith.
  - unfold handleApplyFilter, generateFilteredImage.
    destruct (currentImage s); [sent_by_generateWith|now left].
  - unfold handleApplyAdjustment, generateAdjustedImage.
    destruct (currentImage s); [sent_by_generateWith|now left].
  - unfold handleApplyReframe, generateReframedImage.
    destruct (currentImage s); [sent_by_generateWith|now left].
  - unfold handleApplyZoom, generateZoomedImage.
    destruct (currentImage s); [sent_by_generateWith|now left].
  - unfold handleApplyEnhancement, generateEnhancedImage.
    repeat match goal with
      | |- context [match ?x with _ => _ end] => destruct x
      end; try (now left). sent_by_generateWith.
  - unfold handleApplyExpansion.
    destruct (currentImage s) as [image|]; [|now left].
    rewrite attempt_sent, lift_bind_sent.
    destruct (loadImage br image) as [e|size]; [now left|].
    destruct (drawPadded br image _) as [padded|]; [|now left].
    rewrite lift_bind_sent.
    destruct (dataURLtoFile br padded _) as [e|paddedFile]; [now left|].
    rewrite bind_lift_sent.
    unfold generateExpandedImage. apply generateWith_sent, prefix_append.
  - unfold handleApplyHarmonize, generateHarmonizedImage.
    repeat match goal with
      | |- context [match ?x with _ => _ end] => destruct x
      end; try (now left). sent_by_generateWith.
  - unfold handleApplyCombine.
    repeat match goal with
      | |- context [match ?x with _ => _ end] => destruct x
      end; try (now left).
    rewrite attempt_sent, bind_lift_sent. apply generateCombinedImage_sent.
Qed.

(** X5.  An edit submits at most one request, and none when no file can
    be read and taken apart by [fileToPart]. *)
Theorem edit_submits_at_most_one br op s :
  (length (edit br op s).2 <= 1)%nat
  /\ ((forall file, exists e, fileToPart (service br) file = inl e) ->
      (edit br op s).2 = []).
Proof.
  destruct (edit_sent br op s) as [->|(images & text & Hread & Hlen & _ & ->)].
  - split; [simpl; lia|reflexivity].
  - split; [simpl; lia|]. intros Hfail. exfalso.
    destruct images as [|p images]; [simpl in Hlen; lia|].
    apply Forall_cons_1 in Hread as [[file Hp] _].
    destruct (Hfail file) as [e He]. congruence.
Qed.

(** With a file reader that fails, the retouch edit submits nothing. *)
Lemma edit_submits_at_most_one_witness :
  (forall file, exists e, fileToPart (service sampleUnreadable) file = inl e)
  /\ (edit sampleUnreadable Generate sampleReady).2 = [].
Proof.
  assert (forall file, exists e, fileToPart (service sampleUnreadable) file = inl e)
    as Hfail by (intros file; now eexists).
  split; [exact Hfail|].
  exact (proj2 (edit_submits_at_most_one sampleUnreadable Generate sampleReady) Hfail).
Defined.

(** X6.  Every request an edit submits names the model
    gemini-2.5-flash-image and is made of one or two inline image parts,
    each what [fileToPart] reads from a file, followed by exactly one text
    part, which begins with the fixed framing text. *)
Theorem request_shape br op s (request : Request) :
  request ∈ (edit br op s).2 ->
  model request = "gemini-2.5-flash-image"
  /\ exists images text,
      contents request = images ++ [TextPart text]
      /\ (1 <= length images <= 2)%nat
      /\ Forall (fun p => exists file mimeType data,
                    p = InlinePart mimeType data
                    /\ fileToPart (service br) file = inr p) images
      /\ String.prefix CLINICAL_CONTEXT text = true.
Proof.
  intros Hin.
  destruct (edit_sent br op s) as [E|(images & text & Hread & Hlen & Hprefix & E)];
    rewrite E in Hin.
  - now apply elem_of_nil in Hin.
  - apply list_elem_of_singleton in Hin as ->. split; [reflexivity|].
    exists images, text. repeat split; try assumption; try lia.
    eapply Forall_impl; [exact Hread|]. intros p [file Hp].
    assert (exists mimeType data, p = InlinePart mimeType data) as (m & d & ->).
    { revert Hp. unfold fileToPart.
      destruct (readAsDataURL _ file) as [?|url]; [discriminate|].
      destruct (parseDataUrl url) as [?|[m d]]; [discriminate|].
      intros [= <-]. now eexists _, _. }
    now exists file, m, d.
Qed.

(** The request of the retouch edit on the sample state. *)
Lemma request_shape_witness :
  exists request,
    (edit (sampleBrowser sampleImageResponse) Generate sampleReady).2 = [request]
    /\ model request = "gemini-2.5-flash-image"
    /\ length (contents request) = 2%nat.
Proof.
  set (sent := (edit (sampleBrowser sampleImageResponse) Generate sampleReady).2).
  assert (exists request, sent = [request]) as [request Hsent]
    by (vm_compute; now eexists).
  exists request. split; [exact Hsent|].
  assert (request ∈ sent) as Hin by (rewrite Hsent; apply list_elem_of_here).
  destruct (request_shape _ _ _ request Hin) as [Hmodel _].
  split; [exact Hmodel|].
  injection Hsent as <-. reflexivity.
Defined.

End Dispatch.

(* ===================================================================== *)
(** ** Buttons, blank prompts and the failures of the expansion *)
(* ===================================================================== *)

Section ButtonsAndGuards.

Implicit Types (s : AppState) (br : Browser).

Lemma generateCombinedImage_requests env destination source userPrompt point
    part1 part2 :
  newGoogleGenAI env = inr tt ->
  fileToPart env destination = inr part1 -> fileToPart env source = inr part2 ->
  length (generateCombinedImage env destination source userPrompt point).1 = 1%nat.
Proof.
  intros Hclient H1 H2. unfold generateCombinedImage, bind, lift, submit.
  rewrite Hclient, H1, H2. now destruct (generateContent env _).
Qed.

(** X7.  When the client of the endpoint can be constructed and the image
    loaded is one that [fileToPart] can read, an enabled button leads to
    exactly one request: the retouch button and the harmonize button
    whenever they are enabled, the combine button when it is enabled and
    [fileToPart] can read the source image as well, and the enhance button
    when the selected area has a width other than 0; with an area of width
    0 the enhance button is enabled and nothing is submitted. *)
Theorem enabled_button_dispatches br s image part :
  newGoogleGenAI (service br) = inr tt ->
  currentImage s = Some image -> fileToPart (service br) image = inr part ->
  (Buttons.generateDisabled s = false -> length (handleGenerate br s).2 = 1%nat)
  /\ (Buttons.harmonizeDisabled s = false ->
      forall userPrompt, length (handleApplyHarmonize br userPrompt s).2 = 1%nat)
  /\ (forall sourceImage prompt sourcePart,
        Buttons.canGenerate (Some sourceImage) prompt s = true ->
        fileToPart (service br) sourceImage = inr sourcePart ->
        length (CombinePanel.onClick br (Some sourceImage) prompt s).2 = 1%nat)
  /\ (Buttons.enhanceDisabled s = false ->
      exists area,
        completedEnhanceCrop s = Some area
        /\ forall enhancementPrompt,
            length (handleApplyEnhancement br enhancementPrompt s).2
            = if isZero (width area) then 0%nat else 1%nat).
Proof.
  intros Hclient Himg Hpart. repeat split.
  - unfold Buttons.generateDisabled. intros Hen.
    apply orb_false_elim in Hen as [Hen Hspot].
    apply orb_false_elim in Hen as [_ Htext].
    apply negb_false_iff in Htext, Hspot.
    apply bool_decide_eq_true in Hspot as [hotspot Hspot].
    unfold handleGenerate, generateEditedImage. rewrite Himg, Htext, Hspot. simpl.
    now rewrite attempt_sent, bind_lift_sent, generateWith_requests, Hclient, Hpart.
  - unfold Buttons.harmonizeDisabled. intros Hen userPrompt.
    apply orb_false_elim in Hen as [Hen Hbg].
    apply orb_false_elim in Hen as [_ Hfg].
    apply negb_false_iff in Hfg, Hbg.
    apply bool_decide_eq_true in Hfg as [fg Hfg], Hbg as [bg Hbg].
    unfold handleApplyHarmonize, generateHarmonizedImage. rewrite Himg, Hfg, Hbg.
    now rewrite attempt_sent, bind_lift_sent, generateWith_requests, Hclient, Hpart.
  - intros sourceImage prompt sourcePart Hcan Hsource.
    unfold Buttons.canGenerate in Hcan.
    apply andb_prop in Hcan as [Hcan _]. apply andb_prop in Hcan as [_ Hspot].
    apply bool_decide_eq_true in Hspot as [hotspot Hspot].
    unfold CombinePanel.onClick, handleApplyCombine. rewrite Himg, Hspot.
    rewrite attempt_sent, bind_lift_sent.
    now apply (generateCombinedImage_requests _ _ _ _ _ part sourcePart).
  - unfold Buttons.enhanceDisabled, Buttons.isAreaSelected. intros Hen.
    apply orb_false_elim in Hen as [_ Harea]. apply negb_false_iff in Harea.
    apply bool_decide_eq_true in Harea as [area Harea].
    exists area. split; [exact Harea|]. intros enhancementPrompt.
    unfold handleApplyEnhancement, generateEnhancedImage. rewrite Himg, Harea.
    destruct (isZero (width area)); [reflexivity|].
    now rewrite attempt_sent, bind_lift_sent, generateWith_requests, Hclient, Hpart.
Qed.

(** The retouch button on the sample state. *)
Lemma enabled_button_dispatches_witness :
  newGoogleGenAI (service (sampleBrowser sampleImageResponse)) = inr tt
  /\ currentImage sampleReady = Some (sampleFile "A")
  /\ fileToPart (service (sampleBrowser sampleImageResponse)) (sampleFile "A")
     = inr (InlinePart "image/png" "AAAA")
  /\ Buttons.generateDisabled sampleReady = false
  /\ length (handleGenerate (sampleBrowser sampleImageResponse) sampleReady).2
     = 1%nat.
Proof.
  split; [reflexivity|]. split; [reflexivity|].
  split; [reflexivity|]. split; [reflexivity|].
  exact (proj1 (enabled_button_dispatches (sampleBrowser sampleImageResponse)
                  sampleReady (sampleFile "A") (InlinePart "image/png" "AAAA")
                  eq_refl eq_refl eq_refl) eq_refl).
Defined.

Lemma trimStart_blank (t : string) :
  allWhiteSpace t = true -> trimStart t = EmptyString.
Proof.
  induction t as [|c t IH]; simpl; [reflexivity|].
  intros H. apply andb_prop in H as [Hc Ht]. now rewrite Hc, IH.
Qed.

Lemma trimEnd_nonblank (c : ascii) (t : string) :
  isWhiteSpace c = false -> trimEnd (String c t) <> EmptyString.
Proof. intros Hc. simpl. destruct (trimEnd t); [now rewrite Hc|easy]. Qed.

(** A text trims to nothing exactly when it is all white space. *)
Lemma trim_blank (t : string) :
  trim t = EmptyString <-> allWhiteSpace t = true.
Proof.
  unfold trim. split.
  - induction t as [|c t IH]; [reflexivity|]. simpl.
    destruct (isWhiteSpace c) eqn:Hc; [exact IH|].
    intros H. now apply trimEnd_nonblank in H.
  - intros H. now rewrite trimStart_blank.
Qed.

(** X8.  With an image loaded, the retouch handler refuses a prompt made
    only of white space: it sets the message that asks for a description
    and submits nothing.  A prompt with any other character is never
    answered with that message. *)
Theorem blank_prompt_refused br s :
  is_Some (currentImage s) ->
  (allWhiteSpace (prompt s) = true ->
     handleGenerate br s
     = (setError (Some "Please enter a description for your edit.") s, []))
  /\ (allWhiteSpace (prompt s) = false ->
      error (handleGenerate br s).1
      <> Some "Please enter a description for your edit.").
Proof.
  intros [image Himg]. split; intros Hblank.
  - apply trim_blank in Hblank. unfold handleGenerate. now rewrite Himg, Hblank.
  - assert (truthy (trim (prompt s)) = true) as Htext.
    { apply truthy_spec. intros H. apply trim_blank in H. congruence. }
    unfold handleGenerate. rewrite Himg, Htext. simpl.
    destruct (editHotspot s) as [hotspot|]; [|discriminate].
    match goal with
    | |- context [attempt ?failed ?work s] => destruct work as [sent [err|f]]
    end; simpl; discriminate.
Qed.

(** A prompt of three blanks on the sample state. *)
Lemma blank_prompt_refused_witness :
  is_Some (currentImage (setPrompt "   " sampleReady))
  /\ allWhiteSpace (prompt (setPrompt "   " sampleReady)) = true
  /\ (handleGenerate (sampleBrowser sampleImageResponse)
        (setPrompt "   " sampleReady)).2 = [].
Proof.
  assert (is_Some (currentImage (setPrompt "   " sampleReady))) as Himg
    by now eexists.
  split; [exact Himg|]. split; [reflexivity|].
  rewrite (proj1 (blank_prompt_refused (sampleBrowser sampleImageResponse)
                    (setPrompt "   " sampleReady) Himg) eq_refl).
  reflexivity.
Defined.

(** X9.  With an image loaded, the expansion fails before anything is
    submitted when the image cannot be decoded, when the canvas gives no
    context, and when the data URL of the canvas cannot be decoded: the
    error message is set, the busy flag is lowered, and the history is
    unchanged. *)
Theorem expansion_fails_before_dispatch br aspectRatio userPrompt s image :
  currentImage s = Some image ->
  (forall e, loadImage br image = inl e ->
     handleApplyExpansion br aspectRatio userPrompt s
     = (setIsLoading false
          (setError (Some ("Failed to expand the image. " +:+ errorMessageOf e)) s),
        []))
  /\ (forall w h, loadImage br image = inr (w, h) ->
      drawPadded br image (placementOf w h aspectRatio) = None ->
      handleApplyExpansion br aspectRatio userPrompt s
      = (setIsLoading false
           (setError
              (Some ("Failed to expand the image. "
                     +:+ "Could not create canvas context for model.")) s),
         []))
  /\ (forall w h padded e, loadImage br image = inr (w, h) ->
      drawPadded br image (placementOf w h aspectRatio) = Some padded ->
      dataURLtoFile br padded (stamped br "padded-for-model" 0) = inl e ->
      handleApplyExpansion br aspectRatio userPrompt s
      = (setIsLoading false
           (setError (Some ("Failed to expand the image. " +:+ errorMessageOf e)) s),
         [])).
Proof.
  intros Himg. unfold handleApplyExpansion. rewrite Himg. repeat split.
  - intros e Hload. now rewrite Hload.
  - intros w h Hload Hdraw. rewrite Hload. simpl. now rewrite Hdraw.
  - intros w h padded e Hload Hdraw Hdecode. rewrite Hload. simpl.
    now rewrite Hdraw, Hdecode.
Qed.

(** A canvas without a context, on the sample state. *)
Lemma expansion_fails_before_dispatch_witness :
  currentImage sampleReady = Some (sampleFile "A")
  /\ handleApplyExpansion sampleNoCanvas (ofZ 1) "a beach" sampleReady
     = (setIsLoading false
          (setError
             (Some ("Failed to expand the image. "
                    +:+ "Could not create canvas context for model."))
             sampleReady),
        []).
Proof.
  split; [reflexivity|].
  destruct (expansion_fails_before_dispatch sampleNoCanvas (ofZ 1) "a beach"
              sampleReady (sampleFile "A") eq_refl) as (_ & Hcanvas & _).
  exact (Hcanvas (ofZ 1000) (ofZ 500) eq_refl eq_refl).
Defined.

End ButtonsAndGuards.

(* ===================================================================== *)
(** ** Bounds of the expansion canvas and of the clicked point *)
(* ===================================================================== *)

Section Bounds.

Local Open Scope Q_scope.

Lemma nearest_nonneg (q : Q) : 0 <= q -> (0 <= nearest q)%Z.
Proof.
  intros Hq. rewrite <- (nearest_Z 0). now apply nearest_mono.
Qed.

(** The sizes of a placement: integers, the original inside the canvas,
    the canvas inside the bound, and equal margins on both sides. *)
Lemma placement_sizes (w h : Z) (r : Q) :
  (0 < w)%Z -> (0 < h)%Z -> 0 < r ->
  exists (cw ch sw sh : Z) (dx dy : Q),
    placementOf (ofZ w) (ofZ h) (Finite r)
    = {| modelCanvasWidth := ofZ cw; modelCanvasHeight := ofZ ch;
         scaledOriginalWidth := ofZ sw; scaledOriginalHeight := ofZ sh;
         dxModel := Finite dx; dyModel := Finite dy |}
    /\ (0 <= sw <= cw)%Z /\ (cw <= 2048)%Z
    /\ (0 <= sh <= ch)%Z /\ (ch <= 2048)%Z
    /\ dx + inject_Z sw + dx == inject_Z cw
    /\ dy + inject_Z sh + dy == inject_Z ch.
Proof.
  intros Hw Hh Hr.
  destruct (finalSize_spec w h r Hw Hh Hr) as (fw & fh & Hfinal & Hsides).
  assert ((0 < fw)%Z /\ (0 < fh)%Z /\ (w <= fw)%Z /\ (h <= fh)%Z)
    as (Hfw & Hfh & Hwfw & Hhfh) by (destruct Hsides as [?|?]; lia).
  destruct (scaleFactorOf_spec fw fh Hfw Hfh) as (k & Hk & Hscale).
  assert (0 <= k) as Hk0.
  { destruct Hscale as [(_ & _ & ->)|[_ ->]]; [lra|].
    apply Qdiv_nonneg; [lra|]. apply inject_Z_pos. lia. }
  set (cw := nearest (inject_Z fw * k)). set (ch := nearest (inject_Z fh * k)).
  set (sw := nearest (inject_Z w * k)). set (sh := nearest (inject_Z h * k)).
  destruct (half_difference cw sw) as (dx & Hdx & Hdx').
  destruct (half_difference ch sh) as (dy & Hdy & Hdy').
  assert ((sw <= cw)%Z /\ (sh <= ch)%Z) as [Hsw Hsh]
    by (split; now apply scaled_mono).
  assert ((0 <= sw)%Z /\ (0 <= sh)%Z) as [Hsw0 Hsh0].
  { split; apply nearest_nonneg, Qmult_le_0_compat; try exact Hk0;
      apply Qlt_le_weak, inject_Z_pos; assumption. }
  assert ((cw <= 2048)%Z /\ (ch <= 2048)%Z) as [Hcw Hch].
  { destruct Hscale as [(Hfitw & Hfith & Hone)|[_ Hratio]].
    - assert (forall a, nearest (inject_Z a * k) = a) as Hsame.
      { intros a. rewrite <- (nearest_Z a) at 2. apply nearest_comp.
        rewrite Hone. ring. }
      unfold cw, ch. rewrite !Hsame. lia.
    - split.
      + apply (scaled_longer fw (Z.max fw fh) k); [lia|exact Hratio].
      + apply (scaled_longer fh (Z.max fw fh) k); [lia|exact Hratio]. }
  exists cw, ch, sw, sh, dx, dy.
  split.
  { unfold placementOf. rewrite Hfinal, Hk, !round_scaled.
    fold cw ch sw sh. now rewrite Hdx, Hdy. }
  repeat split; try lia; assumption.
Qed.

(** X10.  For an image of positive natural size and a positive target
    ratio, the canvas of the expansion is never wider or higher than 2048,
    the scaled original lies inside it, and both offsets are at least 0. *)
Theorem canvas_within_model_bound (w h : Z) (r : Q) :
  (0 < w)%Z -> (0 < h)%Z -> 0 < r ->
  withinModelBound (placementOf (ofZ w) (ofZ h) (Finite r)).
Proof.
  intros Hw Hh Hr.
  destruct (placement_sizes w h r Hw Hh Hr)
    as (cw & ch & sw & sh & dx & dy & Hplace & Hsw & Hcw & Hsh & Hch & Hdx & Hdy).
  exists cw, ch, sw, sh, dx, dy.
  assert (inject_Z sw <= inject_Z cw) as Hsw' by (rewrite <- Zle_Qle; lia).
  assert (inject_Z sh <= inject_Z ch) as Hsh' by (rewrite <- Zle_Qle; lia).
  split; [exact Hplace|]. repeat split; try lia; lra.
Qed.

(** A 3000 by 1500 image with the ratio 16:9. *)
Lemma canvas_within_model_bound_witness :
  (0 < 3000)%Z /\ (0 < 1500)%Z /\ 0 < 16 # 9
  /\ withinModelBound (placementOf (ofZ 3000) (ofZ 1500) (Finite (16 # 9))).
Proof.
  split; [reflexivity|]. split; [reflexivity|]. split; [reflexivity|].
  exact (canvas_within_model_bound 3000 1500 (16 # 9) eq_refl eq_refl eq_refl).
Defined.

(** X11.  The button of the expand panel always reaches the expansion
    handler, with the ratio its selected name stands for; the ratio is
    positive, so that for an image of positive natural size the canvas is
    within the bound of the model. *)
Theorem expand_presets (br : Browser) (a : ExpandPanel.AspectRatio)
    (prompt : string) (s : AppState) :
  ExpandPanel.handleApply br a prompt s
  = handleApplyExpansion br (Finite (namedRatio a)) prompt s
  /\ 0 < namedRatio a
  /\ forall w h : Z, (0 < w)%Z -> (0 < h)%Z ->
       withinModelBound (placementOf (ofZ w) (ofZ h) (Finite (namedRatio a))).
Proof.
  assert (0 < namedRatio a) as Hpos by now destruct a.
  split; [now destruct a|]. split; [exact Hpos|].
  intros w h Hw Hh.
  destruct (placement_sizes w h (namedRatio a) Hw Hh Hpos)
    as (cw & ch & sw & sh & dx & dy & Hplace & Hsw & Hcw & Hsh & Hch & Hdx & Hdy).
  exists cw, ch, sw, sh, dx, dy.
  assert (inject_Z sw <= inject_Z cw) as Hsw' by (rewrite <- Zle_Qle; lia).
  assert (inject_Z sh <= inject_Z ch) as Hsh' by (rewrite <- Zle_Qle; lia).
  split; [exact Hplace|]. repeat split; try lia; lra.
Qed.

(** The ratio 9:16 on a 4000 by 3000 image. *)
Lemma expand_presets_witness :
  (0 < 4000)%Z /\ (0 < 3000)%Z
  /\ withinModelBound
       (placementOf (ofZ 4000) (ofZ 3000) (Finite (namedRatio ExpandPanel.Ratio_9_16))).
Proof.
  split; [reflexivity|]. split; [reflexivity|].
  destruct (expand_presets (sampleBrowser sampleImageResponse)
              ExpandPanel.Ratio_9_16 "a beach" sampleReady) as (_ & _ & Hbound).
  exact (Hbound 4000%Z 3000%Z eq_refl eq_refl).
Defined.




End Bounds.

(* ===================================================================== *)
(** ** The panels *)
(* ===================================================================== *)

Section Panels.

Implicit Types (s : AppState) (br : Browser).

Lemma zoom_level_cases (level : Z) :
  ZoomPanel.MIN_ZOOM <= level <= ZoomPanel.MAX_ZOOM ->
  level = -2 \/ level = -1 \/ level = 0 \/ level = 1 \/ level = 2 \/ level = 3.
Proof. unfold ZoomPanel.MIN_ZOOM, ZoomPanel.MAX_ZOOM. lia. Qed.

Lemma zoomPrompts_outside (level : Z) :
  ~ (ZoomPanel.MIN_ZOOM <= level <= ZoomPanel.MAX_ZOOM) ->
  ZoomPanel.zoomPrompts !! level = None
  /\ ZoomPanel.zoomLevelDescriptions !! level = None.
Proof.
  unfold ZoomPanel.MIN_ZOOM, ZoomPanel.MAX_ZOOM. intros Hout.
  unfold ZoomPanel.zoomPrompts, ZoomPanel.zoomLevelDescriptions,
    ZoomPanel.MIN_ZOOM, ZoomPanel.MAX_ZOOM.
  simpl. rewrite !lookup_insert_ne by lia. now rewrite !lookup_empty.
Qed.

(** X13.  The two tables of the zoom panel are defined exactly on the
    levels of the slider, from -2 to 3.  On these levels the instruction
    handed to the zoom handler begins with the prompt of the level, is that
    prompt alone for the standard lens, and differs for any two different
    choices of level and lens. *)
Theorem zoom_tables_cover_slider :
  (forall level,
     ZoomPanel.MIN_ZOOM <= level <= ZoomPanel.MAX_ZOOM
     <-> is_Some (ZoomPanel.zoomPrompts !! level))
  /\ (forall level,
        ZoomPanel.MIN_ZOOM <= level <= ZoomPanel.MAX_ZOOM
        <-> is_Some (ZoomPanel.zoomLevelDescriptions !! level))
  /\ (forall level lens,
        ZoomPanel.MIN_ZOOM <= level <= ZoomPanel.MAX_ZOOM ->
        exists base,
          ZoomPanel.zoomPrompts !! level = Some base
          /\ ZoomPanel.zoomInstruction level ZoomPanel.Standard = base
          /\ String.prefix base (ZoomPanel.zoomInstruction level lens) = true)
  /\ (forall level lens level' lens',
        ZoomPanel.MIN_ZOOM <= level <= ZoomPanel.MAX_ZOOM ->
        ZoomPanel.MIN_ZOOM <= level' <= ZoomPanel.MAX_ZOOM ->
        ZoomPanel.zoomInstruction level lens = ZoomPanel.zoomInstruction level' lens' ->
        level = level' /\ lens = lens').
Proof.
  split; [|split; [|split]].
  - intros level. split.
    + intros Hin. apply zoom_level_cases in Hin.
      destruct Hin as [->|[->|[->|[->|[->| ->]]]]]; vm_compute; now eexists.
    + intros Hsome.
      destruct (decide (ZoomPanel.MIN_ZOOM <= level <= ZoomPanel.MAX_ZOOM))
        as [Hin|Hout]; [exact Hin|].
      apply zoomPrompts_outside in Hout as [Hnone _].
      rewrite Hnone in Hsome. now destruct Hsome.
  - intros level. split.
    + intros Hin. apply zoom_level_cases in Hin.
      destruct Hin as [->|[->|[->|[->|[->| ->]]]]]; vm_compute; now eexists.
    + intros Hsome.
      destruct (decide (ZoomPanel.MIN_ZOOM <= level <= ZoomPanel.MAX_ZOOM))
        as [Hin|Hout]; [exact Hin|].
      apply zoomPrompts_outside in Hout as [_ Hnone].
      rewrite Hnone in Hsome. now destruct Hsome.
  - intros level lens Hin. apply zoom_level_cases in Hin.
    destruct Hin as [->|[->|[->|[->|[->| ->]]]]]; destruct lens;
      eexists; (split; [vm_compute; reflexivity|]); split; vm_compute; reflexivity.
  - intros level lens level' lens' Hin Hin' Heq.
    apply zoom_level_cases in Hin, Hin'.
    apply String.eqb_eq in Heq.
    destruct Hin as [->|[->|[->|[->|[->| ->]]]]];
      destruct Hin' as [->|[->|[->|[->|[->| ->]]]]];
      destruct lens, lens';
      solve [ split; reflexivity | vm_compute in Heq; discriminate Heq ].
Qed.

(** The widest level with the wide lens. *)
Lemma zoom_tables_cover_slider_witness :
  ZoomPanel.MIN_ZOOM <= -2 <= ZoomPanel.MAX_ZOOM
  /\ String.prefix "Execute 50% wide-angle projection."
       (ZoomPanel.zoomInstruction (-2) ZoomPanel.Wide) = true
  /\ exists base,
      ZoomPanel.zoomPrompts !! (-2) = Some base
      /\ String.prefix base (ZoomPanel.zoomInstruction (-2) ZoomPanel.Wide) = true.
Proof.
  assert (ZoomPanel.MIN_ZOOM <= -2 <= ZoomPanel.MAX_ZOOM) as Hin
    by (split; discriminate).
  split; [exact Hin|]. split; [vm_compute; reflexivity|].
  destruct zoom_tables_cover_slider as (_ & _ & Hbase & _).
  destruct (Hbase (-2) ZoomPanel.Wide Hin) as (base & Hlookup & _ & Hprefix).
  now exists base.
Defined.

Lemma presets_not_blank :
  Forall (fun preset => truthy (trim preset.2) = true) ReframePanel.presets.
Proof. repeat constructor. Qed.

(** X14.  The reframe panel does nothing while the editor is busy and
    nothing for a prompt of white space only; when the editor is idle each
    of its eight presets reaches the reframe handler. *)
Theorem reframe_presets_dispatch br s :
  (forall prompt,
     isLoading s = true \/ allWhiteSpace prompt = true ->
     ReframePanel.handleApply br prompt s = (s, []))
  /\ (isLoading s = false ->
      length ReframePanel.presets = 8%nat
      /\ forall preset, preset ∈ ReframePanel.presets ->
           ReframePanel.handleApply br preset.2 s = handleApplyReframe br preset.2 s).
Proof.
  split.
  - intros prompt [Hbusy|Hblank]; unfold ReframePanel.handleApply.
    + rewrite Hbusy. now destruct (truthy _).
    + apply trim_blank in Hblank. now rewrite Hblank.
  - intros Hidle. split; [reflexivity|]. intros preset Hin.
    pose proof presets_not_blank as Hall. rewrite Forall_forall in Hall.
    unfold ReframePanel.handleApply. now rewrite (Hall preset Hin), Hidle.
Qed.

(** A blank prompt on the sample state. *)
Lemma reframe_presets_dispatch_witness :
  allWhiteSpace "  " = true
  /\ ReframePanel.handleApply (sampleBrowser sampleImageResponse) "  " sampleReady
     = (sampleReady, []).
Proof.
  split; [reflexivity|].
  exact (proj1 (reframe_presets_dispatch (sampleBrowser sampleImageResponse)
                  sampleReady) "  " (or_intror eq_refl)).
Defined.

End Panels.

(* ===================================================================== *)
(** ** Data URLs from the response to the file *)
(* ===================================================================== *)

Section ResponseToFile.

Implicit Types (t mime payload : string) (c sep : ascii).

Lemma contains_append c (a b : string) :
  contains c (a +:+ b) = contains c a || contains c b.
Proof.
  induction a as [|c' a IH]; [reflexivity|].
  change (String c' a +:+ b) with (String c' (a +:+ b)). simpl.
  now rewrite IH, orb_assoc.
Qed.

(** The pieces of a text with a separator after a prefix that has none. *)
Lemma split_after_prefix sep (prefix rest : string) :
  contains sep prefix = false ->
  split sep (prefix +:+ String sep rest) = prefix :: split sep rest.
Proof.
  induction prefix as [|c prefix IH]; intros H.
  - change (EmptyString +:+ String sep rest) with (String sep rest).
    simpl. now rewrite Ascii.eqb_refl.
  - simpl in H. apply orb_false_elim in H as [Hc Hp].
    rewrite append_cons. simpl. now rewrite Hc, (IH Hp).
Qed.

(** A text with a separator has at least two pieces. *)
Lemma split_with sep t :
  contains sep t = true -> exists first second rest, split sep t = first :: second :: rest.
Proof.
  induction t as [|c t IH]; [discriminate|]. simpl.
  destruct (Ascii.eqb c sep) eqn:Hc; simpl.
  - intros _. destruct (split_nonempty sep t) as (w & ws & ->). now eexists _, _, _.
  - intros H. destruct (IH H) as (first & second & rest & ->). now eexists _, _, _.
Qed.

Lemma lazyUpToSemicolon_found mime (rest : string) :
  contains ";"%char mime = false -> noLineTerminator mime = true ->
  lazyUpToSemicolon (mime +:+ String ";"%char rest) = Some mime.
Proof.
  induction mime as [|c mime IH]; intros Hsemi Hline; [reflexivity|].
  simpl in Hsemi, Hline. apply orb_false_elim in Hsemi as [Hc Hsemi].
  apply andb_prop in Hline as [Hl Hline]. apply negb_true_iff in Hl.
  rewrite append_cons. simpl. now rewrite Hc, Hl, (IH Hsemi Hline).
Qed.

Lemma dataUrl_shape mime payload :
  dataUrlOf {| mimeType := Some mime; data := Some payload |}
  = ("data:" +:+ mime +:+ ";base64") +:+ String ","%char payload.
Proof. unfold dataUrlOf. simpl. now rewrite !string_app_assoc. Qed.

Lemma parse_clean mime payload :
  cleanMime mime = true -> contains ","%char payload = false ->
  parseDataUrl (dataUrlOf {| mimeType := Some mime; data := Some payload |})
  = inr (mime, payload).
Proof.
  unfold cleanMime. intros Hclean Hpayload.
  apply andb_prop in Hclean as [Hclean Hline].
  apply andb_prop in Hclean as [Hclean Hsemi].
  apply andb_prop in Hclean as [Htruthy Hcomma].
  apply negb_true_iff in Hsemi, Hcomma.
  rewrite dataUrl_shape. unfold parseDataUrl.
  rewrite split_after_prefix, (split_without _ _ Hpayload).
  - change ("data:" +:+ mime +:+ ";base64")
      with (String "d" (String "a" (String "t" (String "a"
              (String ":" (mime +:+ String ";" "base64")))))).
    simpl. rewrite (lazyUpToSemicolon_found mime "base64" Hsemi Hline).
    now rewrite Htruthy.
  - rewrite !contains_append. simpl. now rewrite Hcomma.
Qed.

Lemma typeOfFile_kept (t : string) : lowerPrintable t = true -> typeOfFile t = t.
Proof.
  intros Hplain. unfold typeOfFile.
  assert (allChars isPrintable t = true /\ mapChars asciiLower t = t) as [-> ->];
    [|reflexivity].
  induction t as [|c t IH]; [now split|].
  cbn [lowerPrintable] in Hplain. cbv zeta in Hplain.
  apply andb_prop in Hplain as [Hc Hrest]. apply andb_prop in Hc as [Hprint Hupper].
  destruct (IH Hrest) as [Hall Hmap]. cbn [allChars mapChars].
  apply negb_true_iff in Hupper.
  assert (isPrintable c = true) as Hp by exact Hprint.
  assert (asciiLower c = c) as Hl
    by (unfold asciiLower; cbv zeta; now rewrite Hupper).
  now rewrite Hp, Hl, Hall, Hmap.
Qed.

Lemma typeOfFile_emptied (t : string) :
  hasUnprintable t = true -> typeOfFile t = EmptyString.
Proof.
  intros Hout. unfold typeOfFile.
  assert (allChars isPrintable t = false) as ->; [|reflexivity].
  induction t as [|c t IH]; [discriminate|].
  cbn [hasUnprintable] in Hout. cbv zeta in Hout. cbn [allChars].
  destruct (isPrintable c) eqn:Hp; [|reflexivity]. cbn [andb]. apply IH.
  unfold isPrintable in Hp. cbv zeta in Hp.
  apply andb_prop in Hp as [Hlo Hhi]. apply Nat.leb_le in Hlo, Hhi.
  destruct (Nat.ltb_spec (Ascii.nat_of_ascii c) 32); [lia|].
  destruct (Nat.ltb_spec 126 (Ascii.nat_of_ascii c)); [lia|]. exact Hout.
Qed.

Lemma typeOfFile_lowered (t : string) :
  hasUnprintable t = false -> typeOfFile t = lowered t.
Proof.
  intros Hin. unfold typeOfFile.
  assert (allChars isPrintable t = true /\ mapChars asciiLower t = lowered t)
    as [-> ->]; [|reflexivity].
  induction t as [|c t IH]; [now split|].
  cbn [hasUnprintable] in Hin. cbv zeta in Hin.
  apply orb_false_elim in Hin as [Hc Hrest]. apply orb_false_elim in Hc as [Hlo Hhi].
  apply Nat.ltb_ge in Hlo, Hhi.
  destruct (IH Hrest) as [Hall Hmap]. cbn [allChars mapChars lowered].
  assert (isPrintable c = true) as Hp.
  { unfold isPrintable. cbv zeta. apply andb_true_intro.
    split; now apply Nat.leb_le. }
  rewrite Hp, Hall, Hmap. split; reflexivity.
Qed.

(** X15.  A data URL made of the scheme, a clean MIME type, the base64
    marker and a payload without a comma is taken apart again into that
    type and payload.  [fileToPart] gives the inline part of that type and
    payload.  [dataURLtoFile] throws what [atob] throws on the payload, and
    otherwise gives a file of the given name with the bytes that [atob]
    decodes; the type of the file is empty when some code unit of the MIME
    type lies outside U+0020..U+007E, and is otherwise the MIME type with
    its upper-case letters in lower case, hence the MIME type itself when
    that has no upper-case letter. *)
Theorem data_url_round_trip (br : Browser) (mime payload filename : string) :
  cleanMime mime = true -> contains ","%char payload = false ->
  let dataUrl := "data:" +:+ mime +:+ ";base64," +:+ payload in
  (forall env file,
     readAsDataURL env file = inr dataUrl ->
     fileToPart env file = inr (InlinePart mime payload))
  /\ (forall e, atob br payload = inl e ->
        dataURLtoFile br dataUrl filename = inl e)
  /\ (forall bstr, atob br payload = inr bstr ->
        exists type,
          dataURLtoFile br dataUrl filename
          = inr {| fileName := filename; fileType := type;
                   fileBytes := list_ascii_of_string bstr |}
          /\ (hasUnprintable mime = true -> type = EmptyString)
          /\ (hasUnprintable mime = false -> type = lowered mime)
          /\ (lowerPrintable mime = true -> type = mime)).
Proof.
  intros Hclean Hpayload dataUrl.
  pose proof (parse_clean mime payload Hclean Hpayload) as Hparse.
  change (dataUrlOf _) with dataUrl in Hparse. split; [|split].
  - intros env file Hread. unfold fileToPart. now rewrite Hread, Hparse.
  - intros e Hatob. unfold dataURLtoFile. now rewrite Hparse, Hatob.
  - intros bstr Hatob. exists (typeOfFile mime). split; [|split; [|split]].
    + unfold dataURLtoFile. now rewrite Hparse, Hatob.
    + apply typeOfFile_emptied.
    + apply typeOfFile_lowered.
    + apply typeOfFile_kept.
Qed.

Lemma data_url_round_trip_parts (br : Browser) (mime payload filename : string) :
  cleanMime mime = true -> lowerPrintable mime = true ->
  contains ","%char payload = false ->
  dataURLtoFile br (dataUrlOf {| mimeType := Some mime; data := Some payload |})
    filename
  = match atob br payload with
    | inl e => inl e
    | inr bstr =>
        inr {| fileName := filename; fileType := mime;
               fileBytes := list_ascii_of_string bstr |}
    end.
Proof.
  intros Hclean Hplain Hpayload. unfold dataURLtoFile.
  rewrite (parse_clean mime payload Hclean Hpayload).
  now rewrite (typeOfFile_kept mime Hplain).
Qed.

(** The image of the sample response, decoded in the sample browser. *)
Lemma data_url_round_trip_witness :
  cleanMime "image/png" = true /\ contains ","%char "AAAA" = false
  /\ atob (sampleBrowser sampleImageResponse) "AAAA" = inr "AAAA"
  /\ lowerPrintable "image/png" = true
  /\ dataURLtoFile (sampleBrowser sampleImageResponse)
       "data:image/png;base64,AAAA" "edited-0.png"
     = inr {| fileName := "edited-0.png"; fileType := "image/png";
              fileBytes := list_ascii_of_string "AAAA" |}.
Proof.
  split; [reflexivity|]. split; [reflexivity|]. split; [reflexivity|].
  split; [reflexivity|].
  destruct (proj2 (proj2 (data_url_round_trip (sampleBrowser sampleImageResponse)
                            "image/png" "AAAA" "edited-0.png" eq_refl eq_refl))
              "AAAA" eq_refl) as (type & Hfile & _ & _ & Hkept).
  rewrite (Hkept eq_refl) in Hfile. exact Hfile.
Defined.

Lemma success_is_dataUrl response context url :
  handleApiResponse response context = inr url -> exists d, url = dataUrlOf d.
Proof.
  unfold handleApiResponse.
  destruct (blockReasonOf response); [discriminate|].
  destruct (imagePartFromResponse response) as [[[d|] ?]|].
  - intros [= <-]. now exists d.
  - destruct (firstCandidate response ≫= finishReason) as [reason|];
      [destruct (_ && _)|]; discriminate.
  - destruct (firstCandidate response ≫= finishReason) as [reason|];
      [destruct (_ && _)|]; discriminate.
Qed.

(** X16.  What the interpreter returns on success is always a data URL
    with a comma: it begins with the scheme, neither decoding routine
    answers it with the invalid-data-URL error, and [dataURLtoFile] fails on
    it only with the MIME error or with what [atob] throws. *)
Theorem success_is_never_invalid response context url :
  handleApiResponse response context = inr url ->
  String.prefix "data:" url = true
  /\ contains ","%char url = true
  /\ parseDataUrl url <> inl (Error "Invalid data URL")
  /\ forall (br : Browser) filename e,
       dataURLtoFile br url filename = inl e ->
       e = Error "Could not parse MIME type from data URL"
       \/ exists payload, atob br payload = inl e.
Proof.
  intros Hsuccess. destruct (success_is_dataUrl _ _ _ Hsuccess) as [d ->].
  assert (contains ","%char (dataUrlOf d) = true) as Hcomma.
  { unfold dataUrlOf. rewrite !contains_append. simpl.
    now rewrite orb_true_r. }
  destruct (split_with _ _ Hcomma) as (first & second & rest & Hsplit).
  assert (parseDataUrl (dataUrlOf d)
          = inl (Error "Could not parse MIME type from data URL")
          \/ exists mime, parseDataUrl (dataUrlOf d) = inr (mime, second))
    as Hparse.
  { unfold parseDataUrl. rewrite Hsplit.
    destruct (matchMime first) as [mime|]; [|now left].
    destruct (truthy mime); [right; now exists mime|now left]. }
  split; [unfold dataUrlOf; apply prefix_append|]. split; [exact Hcomma|]. split.
  - destruct Hparse as [->|[mime ->]]; discriminate.
  - intros br filename e. unfold dataURLtoFile.
    destruct Hparse as [->|[mime ->]].
    + intros [= <-]. now left.
    + destruct (atob br second) as [e'|bstr] eqn:Hatob; [|discriminate].
      intros [= <-]. right. now exists second.
Qed.

(** The data URL of the sample response. *)
Lemma success_is_never_invalid_witness :
  handleApiResponse sampleImageResponse "edit" = inr "data:image/png;base64,AAAA"
  /\ parseDataUrl "data:image/png;base64,AAAA" <> inl (Error "Invalid data URL").
Proof.
  split; [reflexivity|].
  exact (proj1 (proj2 (proj2 (success_is_never_invalid sampleImageResponse "edit"
                                "data:image/png;base64,AAAA" eq_refl)))).
Defined.

(** X17.  Only the first candidate of a response is read: the candidates
    after it do not change the result, and a response whose first candidate
    has no part with inline data is never a success, whatever the other
    candidates hold. *)
Theorem later_candidates_ignored :
  (forall feedback (first : Candidate) rest rest' getter context,
     handleApiResponse
       {| promptFeedback := feedback; candidates := Some (first :: rest);
          text := getter |} context
     = handleApiResponse
         {| promptFeedback := feedback; candidates := Some (first :: rest');
            text := getter |} context)
  /\ (forall response context,
        firstCandidateHasNoImage response ->
        exists e, handleApiResponse response context = inl e).
Proof.
  split; [reflexivity|].
  intros response context Hnone.
  assert (imagePartFromResponse response = None) as Himg.
  { unfold imagePartFromResponse.
    destruct (firstCandidate response) as [first|] eqn:Hc; [|reflexivity].
    destruct (content first) as [ct|] eqn:Hct; [|reflexivity].
    destruct (parts ct) as [ps|] eqn:Hps; [|reflexivity].
    now apply find_no_inline, (Hnone first ct). }
  unfold handleApiResponse. rewrite Himg.
  destruct (blockReasonOf response); [now eexists|].
  destruct (firstCandidate response ≫= finishReason) as [reason|];
    [destruct (_ && _)|]; now eexists.
Qed.

(** A response whose image is in the second candidate only. *)
Lemma later_candidates_ignored_witness :
  let response :=
    {| promptFeedback := None;
       candidates :=
         Some ({| content := None; finishReason := Some "STOP" |}
               :: default [] (candidates sampleImageResponse));
       text := TextIs None |} in
  firstCandidateHasNoImage response
  /\ exists e, handleApiResponse response "edit" = inl e.
Proof.
  intros response.
  assert (firstCandidateHasNoImage response) as Hnone.
  { intros first ct ps Hc Hct. injection Hc as <-. discriminate Hct. }
  split; [exact Hnone|].
  exact (proj2 later_candidates_ignored response "edit" Hnone).
Defined.

End ResponseToFile.

(* ===================================================================== *)
(** ** The local crop, the new upload and the error messages *)
(* ===================================================================== *)

Section CropAndMessages.

Implicit Types (s : AppState) (br : Browser) (pg : LocalCrop.Page).

(** X18.  The crop handler sets the message that asks for an area when no
    crop is completed or no image element is there, and the message that
    the crop could not be processed when the canvas gives no context.
    Otherwise it appends the file decoded from the canvas, or lets the
    error of the decoding escape without a new state.  Every state it
    produces keeps the cursor invariant and the busy flag, and either keeps
    history and cursor or is the append of one file. *)
Theorem crop_outcomes br pg s :
  (completedCrop s = None \/ LocalCrop.imgRef pg = None ->
     LocalCrop.handleApplyCrop br pg s
     = inr (setError (Some "Please select an area to crop.") s))
  /\ (forall c image,
        completedCrop s = Some c -> LocalCrop.imgRef pg = Some image ->
        let dataUrl :=
          LocalCrop.toDataURL pg image (LocalCrop.drawingOf pg image c) in
        (LocalCrop.hasContext pg = false ->
           LocalCrop.handleApplyCrop br pg s
           = inr (setError (Some "Could not process the crop.") s))
        /\ (LocalCrop.hasContext pg = true ->
            LocalCrop.handleApplyCrop br pg s
            = match dataURLtoFile br dataUrl (stamped br "cropped" 0) with
              | inl e => inl e
              | inr newImageFile => inr (addImageToHistory newImageFile s)
              end))
  /\ (forall s', LocalCrop.handleApplyCrop br pg s = inr s' ->
        (cursorOk s -> cursorOk s')
        /\ isLoading s' = isLoading s
        /\ ((history s' = history s /\ historyIndex s' = historyIndex s
             /\ is_Some (error s'))
            \/ exists f, s' = addImageToHistory f s)).
Proof.
  split; [|split].
  - intros [Hcrop|Himage]; unfold LocalCrop.handleApplyCrop.
    + now rewrite Hcrop.
    + rewrite Himage. now destruct (completedCrop s).
  - intros c image Hcrop Himage dataUrl. unfold LocalCrop.handleApplyCrop.
    rewrite Hcrop, Himage. split; intros ->; reflexivity.
  - intros s'. unfold LocalCrop.handleApplyCrop.
    destruct (completedCrop s) as [c|]; [destruct (LocalCrop.imgRef pg) as [image|]|].
    + destruct (LocalCrop.hasContext pg).
      * destruct (dataURLtoFile br _ _) as [e|f]; [discriminate|].
        intros [= <-]. split; [intros _; apply cursorOk_add|].
        split; [reflexivity|]. right. now exists f.
      * intros [= <-]. split; [easy|]. split; [reflexivity|]. left.
        now repeat split.
    + intros [= <-]. split; [easy|]. split; [reflexivity|]. left.
      now repeat split.
    + intros [= <-]. split; [easy|]. split; [reflexivity|]. left.
      now repeat split.
Qed.

(** A crop whose canvas gives a URL without a MIME type: the error of the
    decoding escapes the handler. *)
Lemma crop_outcomes_witness :
  LocalCrop.hasContext (samplePage (ofZ 2) "data:,") = true
  /\ LocalCrop.handleApplyCrop (sampleBrowser sampleImageResponse)
       (samplePage (ofZ 2) "data:,") sampleCropped
     = inl (Error "Could not parse MIME type from data URL").
Proof.
  split; [reflexivity|].
  destruct (crop_outcomes (sampleBrowser sampleImageResponse)
              (samplePage (ofZ 2) "data:,") sampleCropped) as (_ & Hrun & _).
  destruct (Hrun _ _ eq_refl eq_refl) as [_ Hdecode].
  rewrite (Hdecode eq_refl). reflexivity.
Defined.

(** X20.  After a new upload is asked for there is no current image: undo,
    redo and reset do nothing, and every edit sets its no-image message and
    submits nothing.  The tab and the completed crop are kept.  Uploading a
    file then gives the state of uploading it directly, with the prompt
    emptied. *)
Theorem after_upload_new s :
  currentImage (handleUploadNew s) = None
  /\ (forall a, isNavigation a = true ->
        perform a (handleUploadNew s) = handleUploadNew s)
  /\ (forall br op,
        edit br op (handleUploadNew s)
        = (setError (Some (noImageLoaded op)) (handleUploadNew s), []))
  /\ activeTab (handleUploadNew s) = activeTab s
  /\ completedCrop (handleUploadNew s) = completedCrop s
  /\ (forall file,
        handleImageUpload file (handleUploadNew s)
        = setPrompt EmptyString (handleImageUpload file s)).
Proof.
  assert (currentImage (handleUploadNew s) = None) as Hnone by reflexivity.
  assert (canUndo (handleUploadNew s) = false) as Hundo by reflexivity.
  assert (canRedo (handleUploadNew s) = false) as Hredo by reflexivity.
  assert ((0 <? Z.of_nat (length (history (handleUploadNew s)))) = false)
    as Hreset by reflexivity.
  split; [exact Hnone|]. split; [|split; [|split; [|split]]].
  - intros a Ha. destruct a; try discriminate; simpl.
    + unfold handleUndo. now rewrite Hundo.
    + unfold handleRedo. now rewrite Hredo.
    + unfold handleReset. now rewrite Hreset.
  - intros br op.
    destruct op; simpl;
      [ unfold handleGenerate | unfold handleApplyFilter
      | unfold handleApplyAdjustment | unfold handleApplyReframe
      | unfold handleApplyZoom | unfold handleApplyEnhancement
      | unfold handleApplyExpansion | unfold handleApplyHarmonize
      | unfold handleApplyCombine ];
      now rewrite Hnone.
  - reflexivity.
  - reflexivity.
  - intros file. now destruct s.
Qed.

(** X21.  After an edit the error message is absent, or is one of the
    messages of the guards of its handler with nothing submitted, or is the
    prefix of its handler followed by the message of what was thrown, which
    reads that an unknown error occurred when what was thrown is not an
    error object. *)
Theorem error_message_forms br (op : EditOp) s :
  let s' := (edit br op s).1 in
  error s' = None
  \/ (exists message,
        message ∈ guardMessages op /\ error s' = Some message
        /\ (edit br op s).2 = [])
  \/ (exists thrown,
        error s' = Some (failedPrefix op +:+ errorMessageOf thrown)
        /\ (thrown = NotAnError ->
            error s' = Some (failedPrefix op +:+ "An unknown error occurred."))).
Proof.
  assert (forall failed work,
            error (attempt failed work s).1 = None
            \/ exists thrown,
                 error (attempt failed work s).1
                 = Some (failed +:+ errorMessageOf thrown)
                 /\ (thrown = NotAnError ->
                     error (attempt failed work s).1
                     = Some (failed +:+ "An unknown error occurred.")))
    as Hattempt.
  { intros failed [sent [thrown|f]]; [right|now left].
    exists thrown. split; [reflexivity|]. now intros ->. }
  assert (forall failed work,
            failed = failedPrefix op ->
            let s' := (attempt failed work s).1 in
            error s' = None
            \/ (exists message,
                  message ∈ guardMessages op /\ error s' = Some message
                  /\ (attempt failed work s).2 = [])
            \/ (exists thrown,
                  error s' = Some (failedPrefix op +:+ errorMessageOf thrown)
                  /\ (thrown = NotAnError ->
                      error s'
                      = Some (failedPrefix op +:+ "An unknown error occurred."))))
    as Hrun.
  { intros failed work -> s'. destruct (Hattempt (failedPrefix op) work) as [H|H];
      [now left|right; now right]. }
  assert (forall message,
            message ∈ guardMessages op ->
            let s' := (refuse message s).1 in
            error s' = None
            \/ (exists message',
                  message' ∈ guardMessages op /\ error s' = Some message'
                  /\ (refuse message s).2 = [])
            \/ (exists thrown,
                  error s' = Some (failedPrefix op +:+ errorMessageOf thrown)
                  /\ (thrown = NotAnError ->
                      error s'
                      = Some (failedPrefix op +:+ "An unknown error occurred."))))
    as Hrefuse.
  { intros message Hin s'. right; left. now exists message. }
  destruct op; simpl;
    [ unfold handleGenerate | unfold handleApplyFilter
    | unfold handleApplyAdjustment | unfold handleApplyReframe
    | unfold handleApplyZoom | unfold handleApplyEnhancement
    | unfold handleApplyExpansion | unfold handleApplyHarmonize
    | unfold handleApplyCombine ];
    repeat match goal with
      | |- context [match ?x with _ => _ end] => destruct x
      end;
    lazymatch goal with
    | |- context [attempt _ _ _] => apply Hrun; reflexivity
    | |- context [refuse _ _] =>
        apply Hrefuse; unfold guardMessages; simpl;
        repeat first [apply list_elem_of_here | apply list_elem_of_further]
    end.
Qed.

(** A new upload asked for on the sample history: a redo does nothing. *)
Lemma after_upload_new_witness :
  isNavigation Redo = true
  /\ perform Redo (handleUploadNew sampleABC) = handleUploadNew sampleABC
  /\ history (handleUploadNew sampleABC) = [].
Proof.
  split; [reflexivity|].
  destruct (after_upload_new sampleABC) as (_ & Hnavigation & _).
  split; [exact (Hnavigation Redo eq_refl)|reflexivity].
Defined.

(** A file reader that rejects with an event, on the sample state. *)
Lemma error_message_forms_witness :
  error (edit sampleUnreadable Generate sampleReady).1
  = Some "Failed to generate the image. An unknown error occurred."
  /\ (let s' := (edit sampleUnreadable Generate sampleReady).1 in
      error s' = None
      \/ (exists message,
            message ∈ guardMessages Generate /\ error s' = Some message
            /\ (edit sampleUnreadable Generate sampleReady).2 = [])
      \/ (exists thrown,
            error s' = Some (failedPrefix Generate +:+ errorMessageOf thrown)
            /\ (thrown = NotAnError ->
                error s'
                = Some (failedPrefix Generate +:+ "An unknown error occurred.")))).
Proof.
  split; [reflexivity|].
  exact (error_message_forms sampleUnreadable Generate sampleReady).
Defined.

Lemma currentImage_idle (busy : bool) s :
  currentImage (setIsLoading busy s) = currentImage s.
Proof. reflexivity. Qed.

Lemma canRedo_idle (busy : bool) s : canRedo (setIsLoading busy s) = canRedo s.
Proof. reflexivity. Qed.

Lemma generateWith_value env image prompt context part response url :
  newGoogleGenAI env = inr tt ->
  fileToPart env image = inr part ->
  (forall request, generateContent env request = inr response) ->
  handleApiResponse response context = inr url ->
  generateWith env image prompt context
  = ([ {| model := MODEL; contents := [part; TextPart prompt] |} ], inr url).
Proof.
  intros Hclient Hpart Hanswer Hurl. unfold generateWith, bind, lift, submit.
  now rewrite Hclient, Hpart, Hanswer, Hurl.
Qed.

(** X22.  A retouch whose guards pass, whose client is constructed, whose
    image is read, and whose response is interpreted as a data URL of a
    clean MIME type, made of code units in U+0020..U+007E without upper-case
    letters, and a payload that [atob] decodes, submits one request, clears
    the error and the busy flag, and appends one file: named after the
    clock, of the MIME type of the response, with the decoded bytes.  That
    file is then the current image and redo is not possible. *)
Theorem successful_retouch_appends br s image hotspot part response mime payload
    bstr :
  currentImage s = Some image -> trim (prompt s) <> EmptyString ->
  editHotspot s = Some hotspot ->
  newGoogleGenAI (service br) = inr tt ->
  fileToPart (service br) image = inr part ->
  (forall request, generateContent (service br) request = inr response) ->
  handleApiResponse response "edit"
  = inr ("data:" +:+ mime +:+ ";base64," +:+ payload) ->
  cleanMime mime = true -> lowerPrintable mime = true ->
  contains ","%char payload = false ->
  atob br payload = inr bstr ->
  let newImageFile :=
    {| fileName := "edited-" +:+ pretty (clock br 0) +:+ ".png";
       fileType := mime; fileBytes := list_ascii_of_string bstr |} in
  (handleGenerate br s).1
  = setIsLoading false (addImageToHistory newImageFile (setError None s))
  /\ length (handleGenerate br s).2 = 1%nat
  /\ currentImage (handleGenerate br s).1 = Some newImageFile
  /\ canRedo (handleGenerate br s).1 = false
  /\ error (handleGenerate br s).1 = None.
Proof.
  intros Himg Hprompt Hspot Hclient Hpart Hanswer Hurl Hclean Hplain Hpayload Hatob
    newImageFile.
  assert (handleGenerate br s
          = (setIsLoading false (addImageToHistory newImageFile (setError None s)),
             (generateEditedImage (service br) image (prompt s) hotspot).1))
    as Hrun.
  { rewrite (handleGenerate_attempt br s image hotspot) by assumption.
    pose proof (data_url_round_trip_parts br mime payload (stamped br "edited" 0)
                  Hclean Hplain Hpayload) as Hdecode.
    rewrite Hatob in Hdecode.
    change (dataUrlOf _) with ("data:" +:+ mime +:+ ";base64," +:+ payload)
      in Hdecode.
    unfold generateEditedImage.
    erewrite generateWith_value by eauto.
    unfold bind, lift. rewrite Hdecode. reflexivity. }
  rewrite Hrun. cbn [fst snd].
  split; [reflexivity|]. split.
  - unfold generateEditedImage. now rewrite generateWith_requests, Hclient, Hpart.
  - split; [|split].
    + rewrite currentImage_idle. exact (currentImage_add _ _).
    + rewrite canRedo_idle. exact (canRedo_add _ _).
    + now destruct s.
Qed.

(** The retouch of the sample state in the sample browser. *)
Lemma successful_retouch_appends_witness :
  history (handleGenerate (sampleBrowser sampleImageResponse) sampleReady).1
  = [ sampleFile "A";
      {| fileName := "edited-0.png"; fileType := "image/png";
         fileBytes := list_ascii_of_string "AAAA" |} ]
  /\ error (handleGenerate (sampleBrowser sampleImageResponse) sampleReady).1 = None.
Proof.
  destruct (successful_retouch_appends (sampleBrowser sampleImageResponse)
              sampleReady (sampleFile "A") {| x := ofZ 10; y := ofZ 20 |}
              (InlinePart "image/png" "AAAA") sampleImageResponse
              "image/png" "AAAA" "AAAA"
              eq_refl ltac:(discriminate) eq_refl eq_refl eq_refl (fun _ => eq_refl)
              eq_refl eq_refl eq_refl eq_refl eq_refl)
    as (Hstate & _ & _ & _ & Herror).
  split; [|exact Herror]. rewrite Hstate. reflexivity.
Defined.

End CropAndMessages.
